(** * Article / tag persistence, embedding task and blog-writing task

    A shallow embedding of the blogging backend:
    - [app/models/article.py]: the [Article], [Tag], [ArticleTag] tables;
    - [app/api/schemas/article.py]: [ArticleSchema];
    - [app/api/resources/article.py]: [ArticleResource] and [ArticleList];
    - [app/services/embedding.py]: [EmbeddingService];
    - [app/tasks/article_embeddings.py]: [generate_article_embedding];
    - [app/services/agents/writting_agent.py]: [BlogWriterAgent];
    - [app/tasks/write_blog.py]: [write_blog].

    Python code that mutates the ORM session, the broker queue and the logger
    is rendered in a state-and-exception monad over a [World].  The external
    services (search tool, language model, embedding model, slugify) are
    parameters of the definitions that call them. *)

From Stdlib Require Import List String Ascii ZArith Lia Bool Arith PeanoNat.
From Stdlib Require DecimalString.
Import ListNotations.

Local Open Scope string_scope.
Local Open Scope list_scope.
Local Open Scope Z_scope.

(* ================================================================== *)
(** * Python strings *)

Infix "+++" := String.append (right associativity, at level 60).

Definition nl : string := String "010"%char EmptyString.

(** [str(n)] for a non-negative integer. *)
Definition str_of_nat (n : nat) : string :=
  DecimalString.NilEmpty.string_of_uint (Nat.to_uint n).

(** The ASCII part of [str.isspace]. *)
Definition isspace (c : ascii) : bool :=
  let n := nat_of_ascii c in
  ((9 <=? n)%nat && (n <=? 13)%nat) || (28 <=? n)%nat && (n <=? 32)%nat.

Fixpoint lstrip (s : string) : string :=
  match s with
  | EmptyString => EmptyString
  | String c r => if isspace c then lstrip r else s
  end.

Fixpoint all_space (s : string) : bool :=
  match s with
  | EmptyString => true
  | String c r => isspace c && all_space r
  end.

Fixpoint rstrip (s : string) : string :=
  match s with
  | EmptyString => EmptyString
  | String c r => if all_space s then EmptyString else String c (rstrip r)
  end.

(** [s.strip()] *)
Definition strip (s : string) : string := rstrip (lstrip s).

(** Truth value of a string: [bool(s)]. *)
Definition truthy (s : string) : bool :=
  match s with EmptyString => false | _ => true end.

(** [s.split(sep)] for a one-character separator, by accumulating the
    current piece in reverse. *)
Fixpoint split_acc (sep : ascii) (acc : string) (s : string) : list string :=
  match s with
  | EmptyString => [acc]
  | String c r =>
      if Ascii.eqb c sep then acc :: split_acc sep EmptyString r
      else split_acc sep (acc +++ String c EmptyString) r
  end.

Definition split (sep : ascii) (s : string) : list string :=
  split_acc sep EmptyString s.

(** [len(s.split())]: the number of maximal runs of non-space characters. *)
Fixpoint count_words (inword : bool) (s : string) : nat :=
  match s with
  | EmptyString => 0%nat
  | String c r =>
      if isspace c then count_words false r
      else if inword then count_words true r
      else S (count_words true r)
  end.

(** [sep.join(parts)] *)
Fixpoint join (sep : string) (parts : list string) : string :=
  match parts with
  | [] => EmptyString
  | [p] => p
  | p :: rest => p +++ sep +++ join sep rest
  end.

(** [s[:n]] *)
Definition prefix (n : nat) (s : string) : string := String.substring 0 n s.

(** [xs.index(x)] on a list of strings: position of the first occurrence. *)
Fixpoint index (x : string) (xs : list string) : option nat :=
  match xs with
  | [] => None
  | y :: r => if String.eqb y x then Some 0%nat
              else option_map S (index x r)
  end.

(* ================================================================== *)
(** * Exceptions and results *)

(** The exceptions the program can meet.  All of them derive from
    [Exception]; signals outside that hierarchy ([KeyboardInterrupt],
    [SystemExit]) are not part of the model. *)
Inductive exn : Type :=
| NotFound                          (* werkzeug NotFound raised by get_or_404 *)
| ValidationError (msg : string)    (* pydantic.ValidationError *)
| IntegrityError (msg : string)     (* sqlalchemy.exc.IntegrityError *)
| DataError (msg : string)          (* sqlalchemy.exc.DataError *)
| ObjectDeletedError (msg : string) (* sqlalchemy.orm.exc.ObjectDeletedError *)
| AttributeError (msg : string)
| IndexError (msg : string)
| ValueError (msg : string)
| PyException (msg : string)        (* raise Exception(msg) *)
| ExternalError (msg : string)      (* failure inside an external client *)
| Retry (exc : exn) (when : Z).     (* celery.exceptions.Retry *)

(** [isinstance(e, SQLAlchemyError)] *)
Definition is_SQLAlchemyError (e : exn) : bool :=
  match e with
  | IntegrityError _ | DataError _ | ObjectDeletedError _ => true
  | _ => false
  end.

(** [str(e)] *)
Fixpoint exn_str (e : exn) : string :=
  match e with
  | NotFound => "404 Not Found"
  | ValidationError m | IntegrityError m | DataError m
  | ObjectDeletedError m | AttributeError m | IndexError m
  | ValueError m | PyException m | ExternalError m => m
  | Retry exc _ => "Retry: " +++ exn_str exc
  end.

(** Outcome of running a piece of Python code: a value, an exception, or
    no outcome at all within the allotted number of steps. *)
Inductive Res (A : Type) : Type :=
| Ok (a : A)
| Raise (e : exn)
| Diverge.
Arguments Ok {A} a.
Arguments Raise {A} e.
Arguments Diverge {A}.

Definition is_ok {A} (r : Res A) : bool :=
  match r with Ok _ => true | _ => false end.

Definition is_raise {A} (r : Res A) : bool :=
  match r with Raise _ => true | _ => false end.

(* ================================================================== *)
(** * Data model: [app/models/article.py] *)

Definition DateTime := Z.

(** A Python float, kept as its IEEE-754 binary64 bit pattern. *)
Inductive pyfloat : Type := Float64 (bits : Z).

Definition Vector := list pyfloat.

Module Article.
Record t : Type := mk {
  id : option Z;
  image : option string;
  slug : string;
  title : string;
  content : string;
  author_id : option Z;
  created_at : option DateTime;
  updated_at : option DateTime;
  is_draft : bool;
  embedding : option Vector
}.

Definition with_id (i : option Z) (a : t) : t :=
  mk i (image a) (slug a) (title a) (content a) (author_id a)
     (created_at a) (updated_at a) (is_draft a) (embedding a).

Definition with_author_id (u : option Z) (a : t) : t :=
  mk (id a) (image a) (slug a) (title a) (content a) u
     (created_at a) (updated_at a) (is_draft a) (embedding a).

Definition with_created_at (d : option DateTime) (a : t) : t :=
  mk (id a) (image a) (slug a) (title a) (content a) (author_id a)
     d (updated_at a) (is_draft a) (embedding a).

Definition with_updated_at (d : option DateTime) (a : t) : t :=
  mk (id a) (image a) (slug a) (title a) (content a) (author_id a)
     (created_at a) d (is_draft a) (embedding a).

Definition with_embedding (v : option Vector) (a : t) : t :=
  mk (id a) (image a) (slug a) (title a) (content a) (author_id a)
     (created_at a) (updated_at a) (is_draft a) v.
End Article.

Module Tag.
Record t : Type := mk {
  id : option Z;
  name : option string       (* nullable=True *)
}.
End Tag.

Module ArticleTag.
Record t : Type := mk {
  id : option Z;
  article_id : option Z;
  tag_id : option Z
}.
End ArticleTag.

Definition opt_Z_eqb (a b : option Z) : bool :=
  match a, b with
  | Some x, Some y => Z.eqb x y
  | None, None => true
  | _, _ => false
  end.

(** SQL equality of a column with a bound value: never true on NULL. *)
Definition col_is (c : option Z) (v : Z) : bool :=
  match c with Some x => Z.eqb x v | None => false end.

Definition name_is (c : option string) (v : string) : bool :=
  match c with Some x => String.eqb x v | None => false end.

(** The relational store: the three tables of [article.py] and the key
    column of the [users] table that [Article.author_id] refers to. *)
Record Tables : Type := mkTables {
  articles : list Article.t;
  tags : list Tag.t;
  article_tags : list ArticleTag.t;
  users : list Z
}.

Definition with_articles (l : list Article.t) (t : Tables) : Tables :=
  mkTables l (tags t) (article_tags t) (users t).
Definition with_tags (l : list Tag.t) (t : Tables) : Tables :=
  mkTables (articles t) l (article_tags t) (users t).
Definition with_article_tags (l : list ArticleTag.t) (t : Tables) : Tables :=
  mkTables (articles t) (tags t) l (users t).

(* ================================================================== *)
(** * The world: database, ORM session, logger and task queue *)

(** Objects built by a model constructor and not yet read back from a row. *)
Inductive Obj : Type :=
| OArticle (a : Article.t)
| OTag (t : Tag.t)
| OArticleTag (r : ArticleTag.t).

(** Work recorded in the session and sent to the database by the next flush. *)
Inductive PendingOp : Type :=
| PInsert (h : nat)                 (* session.add(obj), obj at heap index h *)
| PUpdate (a : Article.t)           (* a loaded article whose attributes changed *)
| PDelete (a : Article.t).          (* session.delete(article) *)

Inductive LogLevel : Type := INFO | WARNING | ERROR.

(** A message on the broker for [tasks.generate_article_embedding]. *)
Record Message : Type := mkMessage {
  m_article_id : option Z;
  m_retries : nat;
  m_countdown : Z
}.

Record World : Type := mkWorld {
  committed : Tables;        (* what other transactions see *)
  txn : Tables;              (* the tables as seen inside the open transaction *)
  seq_article : Z;           (* autoincrement sequences *)
  seq_tag : Z;
  seq_article_tag : Z;
  heap : list Obj;           (* objects created by constructors *)
  pending : list PendingOp;  (* session.new / dirty / deleted, in order *)
  clock : DateTime;          (* func.now() *)
  log : list (LogLevel * string);
  queue : list Message       (* the broker *)
}.

Definition with_committed (t : Tables) (w : World) : World :=
  mkWorld t (txn w) (seq_article w) (seq_tag w) (seq_article_tag w)
          (heap w) (pending w) (clock w) (log w) (queue w).
Definition with_txn (t : Tables) (w : World) : World :=
  mkWorld (committed w) t (seq_article w) (seq_tag w) (seq_article_tag w)
          (heap w) (pending w) (clock w) (log w) (queue w).
Definition with_seq_article (n : Z) (w : World) : World :=
  mkWorld (committed w) (txn w) n (seq_tag w) (seq_article_tag w)
          (heap w) (pending w) (clock w) (log w) (queue w).
Definition with_seq_tag (n : Z) (w : World) : World :=
  mkWorld (committed w) (txn w) (seq_article w) n (seq_article_tag w)
          (heap w) (pending w) (clock w) (log w) (queue w).
Definition with_seq_article_tag (n : Z) (w : World) : World :=
  mkWorld (committed w) (txn w) (seq_article w) (seq_tag w) n
          (heap w) (pending w) (clock w) (log w) (queue w).
Definition with_heap (h : list Obj) (w : World) : World :=
  mkWorld (committed w) (txn w) (seq_article w) (seq_tag w) (seq_article_tag w)
          h (pending w) (clock w) (log w) (queue w).
Definition with_pending (p : list PendingOp) (w : World) : World :=
  mkWorld (committed w) (txn w) (seq_article w) (seq_tag w) (seq_article_tag w)
          (heap w) p (clock w) (log w) (queue w).
Definition with_log (l : list (LogLevel * string)) (w : World) : World :=
  mkWorld (committed w) (txn w) (seq_article w) (seq_tag w) (seq_article_tag w)
          (heap w) (pending w) (clock w) l (queue w).
Definition with_queue (q : list Message) (w : World) : World :=
  mkWorld (committed w) (txn w) (seq_article w) (seq_tag w) (seq_article_tag w)
          (heap w) (pending w) (clock w) (log w) q.

(** ** The monad *)

Definition M (A : Type) : Type := World -> Res A * World.

Definition ret {A} (a : A) : M A := fun w => (Ok a, w).

Definition bind {A B} (m : M A) (f : A -> M B) : M B :=
  fun w =>
    match m w with
    | (Ok a, w1) => f a w1
    | (Raise e, w1) => (Raise e, w1)
    | (Diverge, w1) => (Diverge, w1)
    end.

Definition raise {A} (e : exn) : M A := fun w => (Raise e, w).

(** [try: body except Exception as e: handler(e)].  Only exceptions are
    caught; a computation that does not come back is not. *)
Definition try_except {A} (body : M A) (handler : exn -> M A) : M A :=
  fun w =>
    match body w with
    | (Raise e, w1) => handler e w1
    | r => r
    end.

(** Lifting of a computation that does not touch the world. *)
Definition lift {A} (r : Res A) : M A := fun w => (r, w).

Declare Scope py_scope.
Delimit Scope py_scope with py.
Notation "x <- m ;; k" := (bind m (fun x => k))
  (at level 100, m at next level, right associativity) : py_scope.
Notation "m ;; k" := (bind m (fun _ => k))
  (at level 100, right associativity) : py_scope.
Local Open Scope py_scope.

(** [for x in xs: body(x)] *)
Fixpoint for_each {A} (xs : list A) (body : A -> M unit) : M unit :=
  match xs with
  | [] => ret tt
  | x :: r => body x ;; for_each r body
  end.

Definition modify (f : World -> World) : M unit := fun w => (Ok tt, f w).
Definition gets {A} (f : World -> A) : M A := fun w => (Ok (f w), w).

(** Modelled from the spec: [app.extensions], which creates the shared
    [celery] object, is not among the sources; [celery.logger.<level>(msg)]
    is taken to record the message ("log and terminate") and not to fail. *)
Definition logger (lvl : LogLevel) (msg : string) : M unit :=
  modify (fun w => with_log (log w ++ [(lvl, msg)]) w).

(* ================================================================== *)
(** * The ORM session over the database *)

(** ** Object heap *)

Fixpoint list_set {A} (n : nat) (x : A) (l : list A) : list A :=
  match l, n with
  | [], _ => []
  | _ :: r, O => x :: r
  | y :: r, S k => y :: list_set k x r
  end.

(** A model constructor call: [Tag(name=...)], [ArticleTag(...)], [Article(...)]. *)
Definition new_obj (o : Obj) : M nat :=
  fun w => (Ok (List.length (heap w)), with_heap (heap w ++ [o]) w).

Definition obj_article (h : nat) : M Article.t :=
  fun w =>
    match nth_error (heap w) h with
    | Some (OArticle a) => (Ok a, w)
    | _ => (Raise (AttributeError "not an Article"), w)
    end.

Definition obj_tag (h : nat) : M Tag.t :=
  fun w =>
    match nth_error (heap w) h with
    | Some (OTag t) => (Ok t, w)
    | _ => (Raise (AttributeError "not a Tag"), w)
    end.

(** [article.author_id = u] on an object held by the caller. *)
Definition set_author_id (h : nat) (u : option Z) : M unit :=
  a <- obj_article h ;;
  modify (fun w => with_heap (list_set h (OArticle (Article.with_author_id u a)) (heap w)) w).

(** [db.session.add(obj)] *)
Definition session_add (h : nat) : M unit :=
  modify (fun w => with_pending (pending w ++ [PInsert h]) w).

(** [db.session.delete(article)] *)
Definition session_delete (a : Article.t) : M unit :=
  modify (fun w => with_pending (pending w ++ [PDelete a]) w).

(** ** Statements sent by a flush, with the constraints declared on the
    columns: primary keys drawn from the sequences, [nullable=False],
    [unique=True], [String(255)], [ForeignKey] and [uix_article_tag]. *)

Definition too_long (s : string) : bool := (255 <? String.length s)%nat.

Definition or_default {A} (o : option A) (d : A) : option A :=
  match o with Some x => Some x | None => Some d end.

Definition insert_article (h : nat) (a : Article.t) : M unit :=
  fun w =>
    let t := txn w in
    if too_long (Article.slug a) || too_long (Article.title a) then
      (Raise (DataError "value too long for type character varying(255)"), w)
    else
      match Article.author_id a with
      | None =>
          (Raise (IntegrityError "null value in column author_id of relation articles"), w)
      | Some u =>
          if negb (existsb (Z.eqb u) (users t)) then
            (Raise (IntegrityError "articles.author_id is not present in table users"), w)
          else if existsb (fun r => String.eqb (Article.slug r) (Article.slug a)) (articles t) then
            (Raise (IntegrityError "duplicate key value violates unique constraint on articles.slug"), w)
          else
            let a' :=
              Article.with_updated_at (or_default (Article.updated_at a) (clock w))
                (Article.with_created_at (or_default (Article.created_at a) (clock w))
                   (Article.with_id (Some (seq_article w)) a)) in
            (Ok tt,
             with_heap (list_set h (OArticle a') (heap w))
               (with_seq_article (seq_article w + 1)
                  (with_txn (with_articles (articles t ++ [a']) t) w)))
      end.

Definition insert_tag (h : nat) (g : Tag.t) : M unit :=
  fun w =>
    let t := txn w in
    match Tag.name g with
    | Some n =>
        if too_long n then
          (Raise (DataError "value too long for type character varying(255)"), w)
        else if existsb (fun r => name_is (Tag.name r) n) (tags t) then
          (Raise (IntegrityError "duplicate key value violates unique constraint on tags.name"), w)
        else
          let g' := Tag.mk (Some (seq_tag w)) (Some n) in
          (Ok tt,
           with_heap (list_set h (OTag g') (heap w))
             (with_seq_tag (seq_tag w + 1)
                (with_txn (with_tags (tags t ++ [g']) t) w)))
    | None =>
        let g' := Tag.mk (Some (seq_tag w)) None in
        (Ok tt,
         with_heap (list_set h (OTag g') (heap w))
           (with_seq_tag (seq_tag w + 1)
              (with_txn (with_tags (tags t ++ [g']) t) w)))
    end.

Definition insert_article_tag (h : nat) (r : ArticleTag.t) : M unit :=
  fun w =>
    let t := txn w in
    match ArticleTag.article_id r, ArticleTag.tag_id r with
    | None, _ =>
        (Raise (IntegrityError "null value in column article_id of relation article_tags"), w)
    | _, None =>
        (Raise (IntegrityError "null value in column tag_id of relation article_tags"), w)
    | Some a, Some g =>
        if negb (existsb (fun x => col_is (Article.id x) a) (articles t)) then
          (Raise (IntegrityError "article_tags.article_id is not present in table articles"), w)
        else if negb (existsb (fun x => col_is (Tag.id x) g) (tags t)) then
          (Raise (IntegrityError "article_tags.tag_id is not present in table tags"), w)
        else if existsb (fun x => col_is (ArticleTag.article_id x) a
                                  && col_is (ArticleTag.tag_id x) g) (article_tags t) then
          (Raise (IntegrityError "duplicate key value violates unique constraint uix_article_tag"), w)
        else
          let r' := ArticleTag.mk (Some (seq_article_tag w)) (Some a) (Some g) in
          (Ok tt,
           with_heap (list_set h (OArticleTag r') (heap w))
             (with_seq_article_tag (seq_article_tag w + 1)
                (with_txn (with_article_tags (article_tags t ++ [r']) t) w)))
    end.

(** UPDATE of a loaded article; [updated_at] has [onupdate=func.now()]. *)
Definition update_article (a : Article.t) : M unit :=
  fun w =>
    let t := txn w in
    if too_long (Article.slug a) || too_long (Article.title a) then
      (Raise (DataError "value too long for type character varying(255)"), w)
    else if existsb (fun r => String.eqb (Article.slug r) (Article.slug a)
                              && negb (opt_Z_eqb (Article.id r) (Article.id a))) (articles t) then
      (Raise (IntegrityError "duplicate key value violates unique constraint on articles.slug"), w)
    else
      let a' := Article.with_updated_at (Some (clock w)) a in
      (Ok tt,
       with_txn (with_articles
                   (map (fun r => if opt_Z_eqb (Article.id r) (Article.id a) then a' else r)
                        (articles t)) t) w).

(** DELETE of an article row.  [article_tags.article_id] is declared
    [ForeignKey('articles.id')] with no [ondelete], and no relationship
    with a delete cascade is declared on either model, so the statement is
    refused while a row of [article_tags] refers to the article. *)
Definition delete_article (a : Article.t) : M unit :=
  fun w =>
    let t := txn w in
    if existsb (fun r => opt_Z_eqb (ArticleTag.article_id r) (Article.id a)) (article_tags t) then
      (Raise (IntegrityError "update or delete on table articles violates foreign key constraint on table article_tags"), w)
    else
      (Ok tt,
       with_txn (with_articles
                   (filter (fun r => negb (opt_Z_eqb (Article.id r) (Article.id a)))
                           (articles t)) t) w).

Definition flush_op (op : PendingOp) : M unit :=
  match op with
  | PInsert h =>
      fun w =>
        match nth_error (heap w) h with
        | Some (OArticle a) => insert_article h a w
        | Some (OTag g) => insert_tag h g w
        | Some (OArticleTag r) => insert_article_tag h r w
        | None => (Raise (PyException "unknown object"), w)
        end
  | PUpdate a => update_article a
  | PDelete a => delete_article a
  end.

(** [db.session.flush()]; also run by the session before every query
    (autoflush is on by default).  The statements go out in the order in
    which the work was registered; the unit of work may order statements
    of different tables otherwise, which changes at most which of several
    violated constraints is reported. *)
Definition flush : M unit :=
  ops <- gets pending ;;
  for_each ops flush_op ;;
  modify (with_pending []).

(** [db.session.commit()] *)
Definition commit : M unit :=
  flush ;;
  modify (fun w => with_committed (txn w) w).

(** [db.session.rollback()] *)
Definition rollback : M unit :=
  modify (fun w => with_pending [] (with_txn (committed w) w)).

(** End of a request or of a task run: the scoped session is removed with
    the application context, which discards whatever was not committed. *)
Definition session_remove (w : World) : World :=
  with_pending [] (with_txn (committed w) w).

(** ** Queries *)

Definition find_article (k : option Z) (t : Tables) : option Article.t :=
  find (fun a => opt_Z_eqb (Article.id a) k) (articles t).

(** [Article.query.get(k)] *)
Definition Article_query_get (k : option Z) : M (option Article.t) :=
  flush ;;
  gets (fun w => match k with
                 | Some _ => find_article k (txn w)
                 | None => None
                 end).

(** [Article.query.get_or_404(k)] *)
Definition Article_query_get_or_404 (k : Z) : M Article.t :=
  r <- Article_query_get (Some k) ;;
  match r with
  | Some a => ret a
  | None => raise NotFound
  end.

(** [Tag.query.filter_by(name=n).first()] *)
Definition Tag_query_filter_by_name_first (n : string) : M (option Tag.t) :=
  flush ;;
  gets (fun w => find (fun g => name_is (Tag.name g) n) (tags (txn w))).

(** [ArticleTag.query.filter_by(article_id=k).delete()] *)
Definition ArticleTag_query_filter_by_article_id_delete (k : option Z) : M unit :=
  flush ;;
  modify (fun w =>
    with_txn (with_article_tags
                (filter (fun r => negb (opt_Z_eqb (ArticleTag.article_id r) k))
                        (article_tags (txn w))) (txn w)) w).

(** [generate_article_embedding.delay(k)] *)
Definition delay (k : option Z) : M unit :=
  modify (fun w => with_queue (queue w ++ [mkMessage k 0 0]) w).

(** The get-or-create idiom that [put], [post] and [write_blog] each spell
    out in their loop body:
<<
    tag = Tag.query.filter_by(name=tag_name).first()
    if not tag:
        tag = Tag(name=tag_name)
        db.session.add(tag)
        db.session.flush()
>>
    It yields the tag object, whose [id] the caller reads next. *)
Definition get_or_create_tag (tag_name : string) : M Tag.t :=
  tag <- Tag_query_filter_by_name_first tag_name ;;
  match tag with
  | Some g => ret g
  | None =>
      h <- new_obj (OTag (Tag.mk None (Some tag_name))) ;;
      session_add h ;;
      flush ;;
      obj_tag h
  end.

(* ================================================================== *)
(** * Request bodies and the schema: [app/api/schemas/article.py] *)

(** [request.json] for the article endpoints: each key may be absent.
    The keys are the fields [ArticleSchema] declares, so the same record
    serves for the keyword arguments of a constructor call that name a
    field, each with a value of the type the field is annotated with. *)
Record Json : Type := mkJson {
  j_title : option string;
  j_content : option string;
  j_slug : option string;
  j_image : option string;
  j_is_draft : option bool;
  j_tags : option (list string)
}.

Record Response : Type := mkResponse {
  r_status : Z;
  r_msg : string;
  r_article : option Article.t
}.

Definition from_opt {A} (o : option A) (d : A) : A :=
  match o with Some x => x | None => d end.

(** [class ArticleSchema(BaseModel)] *)
Module ArticleSchema.

(** An instance holds the six declared fields. *)
Record t : Type := mk {
  title : string;
  content : string;
  slug : string;
  image : option string;
  is_draft : bool;
  tags : list string
}.

(** A field declared [str = Field(..., min_length=lo, max_length=hi)]:
    the ellipsis makes it required.  The result lists what is wrong with
    the value given for it, as pairs of the field name and the message. *)
Definition required_str (name : string) (lo : nat) (hi : option nat) (v : option string)
  : list (string * string) :=
  match v with
  | None => [(name, "Field required")]
  | Some s =>
      if (String.length s <? lo)%nat then
        [(name, "String should have at least " +++ str_of_nat lo
                +++ (if (lo =? 1)%nat then " character" else " characters"))]
      else
        match hi with
        | Some h =>
            if (h <? String.length s)%nat then
              [(name, "String should have at most " +++ str_of_nat h
                      +++ (if (h =? 1)%nat then " character" else " characters"))]
            else []
        | None => []
        end
  end.

(** The errors of a constructor call, in the order of the fields.
    [image], [is_draft] and [tags] have defaults and no constraint. *)
Definition errors (data : Json) : list (string * string) :=
  required_str "title" 1 (Some 255%nat) (j_title data)
  ++ required_str "content" 1 None (j_content data)
  ++ required_str "slug" 1 (Some 255%nat) (j_slug data).

(** [str(e)] of the [ValidationError] that collects [errs], without the
    bracketed details that follow each message. *)
Definition error_message (errs : list (string * string)) : string :=
  join nl
    ((str_of_nat (List.length errs)
      +++ (if (List.length errs =? 1)%nat then " validation error" else " validation errors")
      +++ " for ArticleSchema")
     :: map (fun e => fst e +++ nl +++ "  " +++ snd e) errs).

(** [ArticleSchema] called with keyword arguments: [data] holds those
    that name a declared field, [others] the names of the remaining ones.
    The constructor inherited from [BaseModel] validates the arguments
    against the declared fields and raises one [ValidationError] with
    every error found; a keyword that names no field is ignored (the
    [Config] of the class sets only [json_schema_extra]). *)
Definition init (data : Json) (others : list string) : Res t :=
  match errors data, j_title data, j_content data, j_slug data with
  | [], Some t, Some c, Some s =>
      Ok (mk t c s (j_image data) (from_opt (j_is_draft data) true)
             (from_opt (j_tags data) []))
  | errs, _, _, _ => Raise (ValidationError (error_message errs))
  end.

(** A call that names no declared field. *)
Definition no_fields : Json := mkJson None None None None None None.

(** [schema.load(data, instance=...)].  The class declares its fields
    and a [Config] and nothing else, and [BaseModel] has no [load]: the
    attribute lookup raises before the arguments are looked at. *)
Definition load {A} (self : t) (data : Json) (instance : option Article.t) : M A :=
  raise (AttributeError "'ArticleSchema' object has no attribute 'load'").

(** [schema.dump(obj)]: as for [load]. *)
Definition dump {A} (self : t) (obj : Article.t) : M A :=
  raise (AttributeError "'ArticleSchema' object has no attribute 'dump'").

End ArticleSchema.

(* ================================================================== *)
(** * [app/api/resources/article.py] *)

Module ArticleResource.

Definition put (request_json : Json) (article_id : Z) : M Response :=
  schema <- lift (ArticleSchema.init ArticleSchema.no_fields ["partial"]) ;;
  article <- Article_query_get_or_404 article_id ;;
  article <- ArticleSchema.load (A:=Article.t) schema request_json (Some article) ;;
  match j_tags request_json with
  | Some names =>
      (* Remove existing tags *)
      ArticleTag_query_filter_by_article_id_delete (Article.id article) ;;
      (* Add new tags *)
      for_each names (fun tag_name =>
        tag <- get_or_create_tag tag_name ;;
        article_tag <- new_obj (OArticleTag
                         (ArticleTag.mk None (Article.id article) (Tag.id tag))) ;;
        session_add article_tag)
  | None => ret tt
  end ;;
  commit ;;
  (* Generate embedding task *)
  delay (Article.id article) ;;
  dumped <- ArticleSchema.dump (A:=Article.t) schema article ;;
  ret (mkResponse 200 "article updated" (Some dumped)).

Definition delete (article_id : Z) : M Response :=
  article <- Article_query_get_or_404 article_id ;;
  session_delete article ;;
  commit ;;
  ret (mkResponse 200 "article deleted" None).

End ArticleResource.

Module ArticleList.

Definition post (request_json : Json) (current_user_id : Z) : M Response :=
  schema <- lift (ArticleSchema.init ArticleSchema.no_fields []) ;;
  article <- ArticleSchema.load (A:=nat) schema request_json None ;;
  set_author_id article (Some current_user_id) ;;
  match j_tags request_json with
  | Some names =>
      for_each names (fun tag_name =>
        tag <- get_or_create_tag tag_name ;;
        a <- obj_article article ;;
        article_tag <- new_obj (OArticleTag
                         (ArticleTag.mk None (Article.id a) (Tag.id tag))) ;;
        session_add article_tag)
  | None => ret tt
  end ;;
  session_add article ;;
  commit ;;
  (* Generate embedding task *)
  a <- obj_article article ;;
  delay (Article.id a) ;;
  dumped <- ArticleSchema.dump (A:=Article.t) schema a ;;
  ret (mkResponse 201 "article created" (Some dumped)).

End ArticleList.

(* ================================================================== *)
(** * External collaborators *)

Record SearchResult : Type := mkSearchResult {
  sr_title : string;
  sr_content : string
}.

(** The services and library functions the program calls but does not
    define.  Each may be any function of its input. *)
Record External : Type := mkExternal {
  search_tool_invoke : string -> Res (list SearchResult);  (* TavilySearchResults.invoke *)
  llm_invoke : string -> Res string;         (* ChatAnthropic.invoke(prompt).content *)
  model_embed_one : string -> Res Vector;    (* TextEmbedding.embed on one text *)
  slugify : string -> string;                (* slugify.slugify *)
  isoformat : DateTime -> string;            (* datetime.isoformat *)
  str_datetime : DateTime -> string;         (* str(datetime) *)
  repr_float : pyfloat -> string             (* repr(float) *)
}.

(** ** Python values that reach a format string or a result dictionary *)

#[local] Set Warnings "-register-all".
Inductive PyVal : Type :=
| VNone
| VBool (b : bool)
| VInt (z : Z)
| VStr (s : string)
| VDateTime (d : DateTime)
| VVector (v : Vector)
| VList (l : list PyVal)
| VDict (d : list (string * PyVal)).

Definition str_of_Z (z : Z) : string :=
  DecimalString.NilZero.string_of_int (Z.to_int z).

Definition of_opt {A} (f : A -> PyVal) (o : option A) : PyVal :=
  match o with Some x => f x | None => VNone end.

(** [d[key]] on a result dictionary. *)
Fixpoint dict_get (key : string) (d : list (string * PyVal)) : option PyVal :=
  match d with
  | [] => None
  | (k, v) :: r => if String.eqb k key then Some v else dict_get key r
  end.

(** [str(v)], as an f-string renders it, for the values an article
    attribute can hold. *)
Definition py_str (ext : External) (v : PyVal) : string :=
  match v with
  | VNone => "None"
  | VBool true => "True"
  | VBool false => "False"
  | VInt z => str_of_Z z
  | VStr s => s
  | VDateTime d => str_datetime ext d
  | VVector v => "[" +++ join ", " (map (repr_float ext) v) +++ "]"
  | VList _ => "[...]"
  | VDict _ => "{...}"
  end.

(* ================================================================== *)
(** * [app/services/embedding.py] *)

Module EmbeddingService.
Section WithExternal.

Variable ext : External.

(** [list(self._model.embed(texts))]: one vector per text, in order. *)
Fixpoint model_embed (texts : list string) : Res (list Vector) :=
  match texts with
  | [] => Ok []
  | t :: r =>
      match model_embed_one ext t with
      | Ok v =>
          match model_embed r with
          | Ok vs => Ok (v :: vs)
          | Raise e => Raise e
          | Diverge => Diverge
          end
      | Raise e => Raise e
      | Diverge => Diverge
      end
  end.

Definition _compute_single_embedding (text : string) : Res Vector :=
  match model_embed [text] with
  | Ok (v :: _) => Ok v
  | Ok [] => Raise (PyException ("Failed to compute embedding: "
                                 +++ exn_str (IndexError "list index out of range")))
  | Raise e => Raise (PyException ("Failed to compute embedding: " +++ exn_str e))
  | Diverge => Diverge
  end.

(** The [lru_cache] wrapper returns what the wrapped function returned
    for the same text, and the model is a function of the text, so the
    cached and the uncached call agree. *)
Definition _get_single_embedding (text : string) : Res Vector :=
  _compute_single_embedding text.

Definition get_embedding (text : string) (use_cache : bool) : Res Vector :=
  if negb (truthy (strip text)) then
    Raise (ValueError "Input must be a non-empty string")
  else
    if use_cache then _get_single_embedding text
    else _compute_single_embedding text.

(** [range(0, stop, step)] for [step > 0]; empty for [step < 0]. *)
Fixpoint range_from (fuel : nat) (i stop step : Z) : list Z :=
  match fuel with
  | O => []
  | S f => if i <? stop then i :: range_from f (i + step) stop step else []
  end.

Definition range0 (stop step : Z) : list Z :=
  if 0 <? step then range_from (Z.to_nat stop) 0 stop step else [].

(** [texts[i:j]] for [0 <= i <= j]. *)
Definition slice {A} (i j : Z) (l : list A) : list A :=
  firstn (Z.to_nat (j - i)) (skipn (Z.to_nat i) l).

(** The body of the batching loop, threaded over the start offsets. *)
Fixpoint embed_batches (texts : list string) (batch_size : Z)
         (starts : list Z) (embeddings : list Vector) : Res (list Vector) :=
  match starts with
  | [] => Ok embeddings
  | i :: rest =>
      let batch := slice i (i + batch_size) texts in
      match model_embed batch with
      | Ok batch_embeddings =>
          embed_batches texts batch_size rest (embeddings ++ batch_embeddings)
      | Raise e => Raise e
      | Diverge => Diverge
      end
  end.

Definition get_embeddings (texts : list string) (batch_size : option Z)
  : Res (list Vector) :=
  match texts with
  | [] => Raise (ValueError "Input must be a non-empty list of strings")
  | _ =>
      if negb (forallb (fun t => truthy (strip t)) texts) then
        Raise (ValueError "All inputs must be non-empty strings")
      else
        let attempt :=
          match batch_size with
          | Some b =>
              if negb (b =? 0) then
                embed_batches texts b (range0 (Z.of_nat (List.length texts)) b) []
              else model_embed texts
          | None => model_embed texts
          end in
        match attempt with
        | Raise e => Raise (PyException ("Failed to compute embeddings: " +++ exn_str e))
        | r => r
        end
  end.

End WithExternal.
End EmbeddingService.

(* ================================================================== *)
(** * [app/tasks/article_embeddings.py] *)

(** [getattr(article, name)] on an instance of the [Article] model: the
    class declares exactly these ten columns. *)
Definition Article_getattr (a : Article.t) (name : string) : Res PyVal :=
  if String.eqb name "id" then Ok (of_opt VInt (Article.id a))
  else if String.eqb name "image" then Ok (of_opt VStr (Article.image a))
  else if String.eqb name "slug" then Ok (VStr (Article.slug a))
  else if String.eqb name "title" then Ok (VStr (Article.title a))
  else if String.eqb name "content" then Ok (VStr (Article.content a))
  else if String.eqb name "author_id" then Ok (of_opt VInt (Article.author_id a))
  else if String.eqb name "created_at" then Ok (of_opt VDateTime (Article.created_at a))
  else if String.eqb name "updated_at" then Ok (of_opt VDateTime (Article.updated_at a))
  else if String.eqb name "is_draft" then Ok (VBool (Article.is_draft a))
  else if String.eqb name "embedding" then Ok (of_opt VVector (Article.embedding a))
  else Raise (AttributeError ("'Article' object has no attribute '" +++ name +++ "'")).

Section EmbeddingTask.

Variable ext : External.

Definition max_retries : nat := 3.
Definition default_retry_delay : Z := 300.

(** [self.retry(exc=e)] of a bound task whose request is [self]: publish
    the same call again with the retry count advanced and the default
    delay, then leave through [Retry]; when the count would pass
    [max_retries] nothing is published and [exc] itself is raised. *)
Definition self_retry {A} (self : Message) (exc : exn) : M A :=
  if (max_retries <? m_retries self + 1)%nat then raise exc
  else
    modify (fun w => with_queue
              (queue w ++ [mkMessage (m_article_id self) (m_retries self + 1)
                                     default_retry_delay]) w) ;;
    raise (Retry exc default_retry_delay).

(** [article.embedding = v] on a loaded article. *)
Definition set_embedding (a : Article.t) (v : Vector) : M unit :=
  modify (fun w => with_pending
            (pending w ++ [PUpdate (Article.with_embedding (Some v) a)]) w).

(** Modelled from the spec: [app.extensions], which creates the shared
    [embeddings] object, is not among the sources; the object is taken to
    be the [EmbeddingService] of "Embedding Computation", called with its
    default [use_cache=True]. *)
Definition embeddings_get_embedding (text : string) : Res Vector :=
  EmbeddingService.get_embedding ext text true.

(** The [try] block of the task. *)
Definition generate_article_embedding_body (article_id : option Z) : M unit :=
  article <- Article_query_get article_id ;;
  match article with
  | None =>
      logger WARNING ("Article " +++ py_str ext (of_opt VInt article_id) +++ " not found")
  | Some article =>
      (* Combine relevant text fields for embedding *)
      title <- lift (Article_getattr article "title") ;;
      description <- lift (Article_getattr article "description") ;;
      content <- lift (Article_getattr article "content") ;;
      let text_to_embed :=
        py_str ext title +++ nl +++ py_str ext description +++ nl +++ py_str ext content in
      (* Generate embedding *)
      embedding_vector <- lift (embeddings_get_embedding text_to_embed) ;;
      (* Update article with embedding *)
      set_embedding article embedding_vector ;;
      commit ;;
      logger INFO ("Successfully generated embedding for article "
                   +++ py_str ext (of_opt VInt article_id))
  end.

Definition generate_article_embedding (self : Message) (article_id : option Z) : M unit :=
  try_except
    (generate_article_embedding_body article_id)
    (fun e =>
       logger ERROR ("Error generating embedding for article "
                     +++ py_str ext (of_opt VInt article_id) +++ ": " +++ exn_str e) ;;
       self_retry self e).

(** ** The worker side of the queue *)

Record TaskRecord : Type := mkTaskRecord {
  t_message : Message;
  t_outcome : Res unit
}.

(** The worker takes the oldest message, runs the task inside an
    application context ([ContextTask.__call__]) and goes on to the next
    message; [fuel] bounds the number of messages handled. *)
Fixpoint worker (fuel : nat) (w : World) : list TaskRecord * World :=
  match fuel with
  | O => ([], w)
  | S f =>
      match queue w with
      | [] => ([], w)
      | msg :: rest =>
          let (r, w1) := generate_article_embedding msg (m_article_id msg)
                           (with_queue rest w) in
          let (recs, w2) := worker f (session_remove w1) in
          (mkTaskRecord msg r :: recs, w2)
      end
  end.

End EmbeddingTask.

(* ================================================================== *)
(** * [app/services/agents/writting_agent.py] *)

Record Metadata : Type := mkMetadata {
  suggested_tags : list string;
  estimated_read_time : Z;
  seo_keywords : list string
}.

(** The dictionary [BlogState().dict()] that the workflow threads through
    its nodes; every node reads and writes it by key. *)
Record BlogState : Type := mkBlogState {
  messages : list (list (string * string));
  topic : string;
  research_data : list SearchResult;
  outline : list string;
  current_section : option string;
  draft : string;
  status : string;
  metadata : Metadata
}.

(** [BlogState.__init__] *)
Definition BlogState_init : BlogState :=
  mkBlogState [] "" [] [] None "" "initialized" (mkMetadata [] 0 []).

Definition set_topic (t : string) (s : BlogState) : BlogState :=
  mkBlogState (messages s) t (research_data s) (outline s) (current_section s)
              (draft s) (status s) (metadata s).
Definition set_research_data (r : list SearchResult) (s : BlogState) : BlogState :=
  mkBlogState (messages s) (topic s) r (outline s) (current_section s)
              (draft s) (status s) (metadata s).
Definition set_outline (o : list string) (s : BlogState) : BlogState :=
  mkBlogState (messages s) (topic s) (research_data s) o (current_section s)
              (draft s) (status s) (metadata s).
Definition set_current_section (c : option string) (s : BlogState) : BlogState :=
  mkBlogState (messages s) (topic s) (research_data s) (outline s) c
              (draft s) (status s) (metadata s).
Definition set_draft (d : string) (s : BlogState) : BlogState :=
  mkBlogState (messages s) (topic s) (research_data s) (outline s) (current_section s)
              d (status s) (metadata s).
Definition set_metadata (m : Metadata) (s : BlogState) : BlogState :=
  mkBlogState (messages s) (topic s) (research_data s) (outline s) (current_section s)
              (draft s) (status s) m.

(** [enumerate(xs)] counted from [i]. *)
Fixpoint enumerate_from {A} (i : nat) (xs : list A) : list (nat * A) :=
  match xs with
  | [] => []
  | x :: r => (i, x) :: enumerate_from (S i) r
  end.

(** The workflow graph: node functions, plain edges, conditional edges
    (a router and the map from its answers to nodes) and the entry point. *)
Record StateGraph : Type := mkStateGraph {
  nodes : list (string * (BlogState -> Res BlogState));
  edges : list (string * string);
  conditional_edges : list (string * ((BlogState -> string) * list (string * string)));
  entry_point : option string
}.

Definition END : string := "__end__".

Definition empty_graph : StateGraph := mkStateGraph [] [] [] None.

Definition add_node (name : string) (f : BlogState -> Res BlogState) (g : StateGraph) :=
  mkStateGraph (nodes g ++ [(name, f)]) (edges g) (conditional_edges g) (entry_point g).
Definition add_edge (src dst : string) (g : StateGraph) :=
  mkStateGraph (nodes g) (edges g ++ [(src, dst)]) (conditional_edges g) (entry_point g).
Definition add_conditional_edges (src : string) (router : BlogState -> string)
           (targets : list (string * string)) (g : StateGraph) :=
  mkStateGraph (nodes g) (edges g) (conditional_edges g ++ [(src, (router, targets))])
               (entry_point g).
Definition set_entry_point (name : string) (g : StateGraph) :=
  mkStateGraph (nodes g) (edges g) (conditional_edges g) (Some name).

Fixpoint assoc {B} (key : string) (l : list (string * B)) : option B :=
  match l with
  | [] => None
  | (k, v) :: r => if String.eqb k key then Some v else assoc key r
  end.

(** Where the graph goes after [node]: a conditional edge asks its router,
    otherwise the plain edge is followed. *)
Definition next_node (g : StateGraph) (node : string) (state : BlogState) : option string :=
  match assoc node (conditional_edges g) with
  | Some (router, targets) => assoc (router state) targets
  | None => assoc node (edges g)
  end.

(** Run the graph from [node]: apply the node's function when it has one,
    then follow the outgoing edge, until [END].  The result comes with the
    names of the nodes visited, in order. *)
Fixpoint run_from (g : StateGraph) (fuel : nat) (node : string) (state : BlogState)
  : list string * Res BlogState :=
  match fuel with
  | O => ([], Diverge)
  | S f =>
      if String.eqb node END then ([], Ok state)
      else
        let after :=
          match assoc node (nodes g) with
          | Some fn => fn state
          | None => Ok state
          end in
        match after with
        | Ok state' =>
            match next_node g node state' with
            | Some n =>
                let (visited, r) := run_from g f n state' in
                (node :: visited, r)
            | None => ([node], Raise (ValueError ("no edge leaves " +++ node)))
            end
        | Raise e => ([node], Raise e)
        | Diverge => ([node], Diverge)
        end
  end.

(** [workflow.run(state)] *)
Definition run (g : StateGraph) (fuel : nat) (state : BlogState)
  : list string * Res BlogState :=
  match entry_point g with
  | Some n => run_from g fuel n state
  | None => ([], Raise (ValueError "no entry point"))
  end.

Module BlogWriterAgent.
Section WithExternal.

Variable ext : External.

Definition indent : string := "        ".

(** Research the blog topic using Tavily. *)
Definition research_topic (state : BlogState) : Res BlogState :=
  match search_tool_invoke ext ("latest information about " +++ topic state) with
  | Ok search_results => Ok (set_research_data search_results state)
  | Raise e => Raise e
  | Diverge => Diverge
  end.

Definition create_outline (state : BlogState) : Res BlogState :=
  let research_context :=
    join nl (map (fun ir : nat * SearchResult =>
                    "Source " +++ str_of_nat (fst ir + 1) +++ ": "
                    +++ sr_title (snd ir) +++ " - "
                    +++ prefix 200 (sr_content (snd ir)) +++ "...")
                 (enumerate_from 0 (research_data state))) in
  let prompt :=
    "Based on the following research about " +++ topic state
    +++ ", create a detailed blog post outline:" +++ nl
    +++ nl
    +++ indent +++ "Research:" +++ nl
    +++ indent +++ research_context +++ nl
    +++ nl
    +++ indent +++ "Create an outline with main sections and subsections that covers the topic comprehensively." +++ nl
    +++ indent in
  match llm_invoke ext prompt with
  | Ok response =>
      let outline :=
        map strip (filter (fun line => truthy (strip line)) (split "010"%char response)) in
      Ok (set_outline outline state)
  | Raise e => Raise e
  | Diverge => Diverge
  end.

Definition write_section (state : BlogState) : Res BlogState :=
  let first_of_outline :=
    match outline state with
    | s :: _ => Ok s
    | [] => Raise (IndexError "list index out of range")
    end in
  let section :=
    match current_section state with
    | Some s => if truthy s then Ok s else first_of_outline
    | None => first_of_outline
    end in
  match section with
  | Ok cur =>
      let state := set_current_section (Some cur) state in
      let research_context :=
        join nl (map (fun ir : nat * SearchResult =>
                        "Source " +++ str_of_nat (fst ir + 1) +++ ": "
                        +++ sr_title (snd ir) +++ " - " +++ sr_content (snd ir))
                     (enumerate_from 0 (research_data state))) in
      let prompt :=
        "Write the following section of a blog post about " +++ topic state +++ ":" +++ nl
        +++ nl
        +++ indent +++ "Section: " +++ cur +++ nl
        +++ nl
        +++ indent +++ "Use this research for accurate information:" +++ nl
        +++ indent +++ research_context +++ nl
        +++ nl
        +++ indent +++ "Write in an engaging, conversational style. Include relevant examples and data from the research." +++ nl
        +++ indent in
      match llm_invoke ext prompt with
      | Ok response =>
          let state :=
            if truthy (draft state)
            then set_draft (draft state +++ nl +++ nl) state
            else state in
          let state :=
            set_draft (draft state +++ "## " +++ cur +++ nl +++ nl +++ response) state in
          match index cur (outline state) with
          | Some current_index =>
              if (current_index + 1 <? List.length (outline state))%nat then
                match nth_error (outline state) (current_index + 1) with
                | Some s => Ok (set_current_section (Some s) state)
                | None => Raise (IndexError "list index out of range")
                end
              else Ok (set_current_section None state)
          | None => Raise (ValueError (cur +++ " is not in list"))
          end
      | Raise e => Raise e
      | Diverge => Diverge
      end
  | Raise e => Raise e
  | Diverge => Diverge
  end.

(** Analyze the content to extract metadata. *)
Definition analyze_content (state : BlogState) : Res BlogState :=
  let prompt :=
    "Analyze this blog post and provide:" +++ nl
    +++ indent +++ "1. 5-7 relevant tags" +++ nl
    +++ indent +++ "2. Estimated read time in minutes" +++ nl
    +++ indent +++ "3. 3-5 main SEO keywords" +++ nl
    +++ nl
    +++ indent +++ "Content:" +++ nl
    +++ indent +++ draft state +++ nl
    +++ indent in
  match llm_invoke ext prompt with
  | Ok _ =>
      Ok (set_metadata
            (mkMetadata ["AI"; "Technology"; "Tutorial"]
                        (Z.of_nat (count_words false (draft state)) / 200)
                        ["artificial intelligence"; "machine learning"])
            state)
  | Raise e => Raise e
  | Diverge => Diverge
  end.

Definition should_continue (state : BlogState) : string :=
  match current_section state with
  | None => if truthy (draft state) then "analyze" else "continue_writing"
  | Some _ => "continue_writing"
  end.

Definition create_workflow : StateGraph :=
  let workflow := empty_graph in
  (* Add nodes *)
  let workflow := add_node "research" research_topic workflow in
  let workflow := add_node "create_outline" create_outline workflow in
  let workflow := add_node "write_section" write_section workflow in
  let workflow := add_node "analyze_content" analyze_content workflow in
  (* Add edges *)
  let workflow := add_edge "research" "create_outline" workflow in
  let workflow := add_edge "create_outline" "write_section" workflow in
  let workflow := add_edge "write_section" "should_continue" workflow in
  let workflow :=
    add_conditional_edges "should_continue" should_continue
      [("continue_writing", "write_section"); ("analyze", "analyze_content")]
      workflow in
  let workflow := add_edge "analyze_content" END workflow in
  set_entry_point "research" workflow.

End WithExternal.
End BlogWriterAgent.

(* ================================================================== *)
(** * [app/tasks/write_blog.py] *)

Section WriteBlog.

Variable ext : External.

(** How many node visits the workflow is given before the run is counted
    as not coming back. *)
Variable fuel : nat.

Definition search_result_val (r : SearchResult) : PyVal :=
  VDict [("title", VStr (sr_title r)); ("content", VStr (sr_content r))].

(** The [try] block of the task. *)
Definition write_blog_body (topic : string) (author_id : Z) (tags : option (list string))
  : M (list (string * PyVal)) :=
  (* Initialize state and agent *)
  let state := set_topic topic BlogState_init in
  (* Create and run workflow *)
  let workflow := BlogWriterAgent.create_workflow ext in
  result <- lift (snd (run workflow fuel state)) ;;
  (* Create slug from topic *)
  let slug := slugify ext topic in
  (* Create new article *)
  article <- new_obj (OArticle
               (Article.mk None None slug topic (draft result) (Some author_id)
                           None None true (* Set as draft initially *) None)) ;;
  (* Add article to database *)
  session_add article ;;
  (* Handle tags if provided *)
  match tags with
  | Some ((_ :: _) as names) =>
      for_each names (fun tag_name =>
        (* Get or create tag *)
        tag <- get_or_create_tag tag_name ;;
        (* Create article-tag association *)
        a <- obj_article article ;;
        article_tag <- new_obj (OArticleTag
                         (ArticleTag.mk None (Article.id a) (Tag.id tag))) ;;
        session_add article_tag)
  | _ => ret tt
  end ;;
  (* Commit changes *)
  commit ;;
  a <- obj_article article ;;
  logger INFO ("Successfully created article: " +++ py_str ext (of_opt VInt (Article.id a))
               +++ " - " +++ Article.title a) ;;
  created_at <- match Article.created_at a with
                | Some d => ret (isoformat ext d)
                | None => raise (AttributeError "'NoneType' object has no attribute 'isoformat'")
                end ;;
  ret [("status", VStr "success");
       ("article", VDict [("id", of_opt VInt (Article.id a));
                          ("slug", VStr (Article.slug a));
                          ("title", VStr (Article.title a));
                          ("created_at", VStr created_at);
                          ("is_draft", VBool (Article.is_draft a))]);
       ("outline", VList (map VStr (outline result)));
       ("research_data", VList (map search_result_val (research_data result)))].

Definition write_blog (topic : string) (author_id : Z) (tags : option (list string))
  : M (list (string * PyVal)) :=
  try_except
    (write_blog_body topic author_id tags)
    (fun e =>
       if is_SQLAlchemyError e then
         logger ERROR ("Database error while creating article: " +++ exn_str e) ;;
         rollback ;;
         ret [("status", VStr "error");
              ("error", VStr "Database error occurred");
              ("details", VStr (exn_str e))]
       else
         logger ERROR ("Error while writing blog: " +++ exn_str e) ;;
         rollback ;;
         ret [("status", VStr "error");
              ("error", VStr "An unexpected error occurred");
              ("details", VStr (exn_str e))]).

End WriteBlog.

(* ================================================================== *)
(** * Vocabulary of the properties *)

(** The association rows of article [k]. *)
Definition associations (k : Z) (t : Tables) : list ArticleTag.t :=
  filter (fun r => col_is (ArticleTag.article_id r) k) (article_tags t).

(** The name of the tag row a [tag_id] refers to. *)
Definition tag_name_of (t : Tables) (i : option Z) : option string :=
  match i with
  | Some z =>
      match find (fun g => col_is (Tag.id g) z) (tags t) with
      | Some g => Tag.name g
      | None => None
      end
  | None => None
  end.

(** The tag names article [k] is associated with, one per association
    row, in row order. *)
Definition associated_tag_names (k : Z) (t : Tables) : list (option string) :=
  map (fun r => tag_name_of t (ArticleTag.tag_id r)) (associations k t).

(** The tag rows called [n]. *)
Definition tag_rows_named (n : string) (t : Tables) : list Tag.t :=
  filter (fun g => name_is (Tag.name g) n) (tags t).

(** Primary keys of the [tags] table: present, pairwise distinct and all
    drawn from the sequence already; names unique where present. *)
Record tags_ok (seq : Z) (t : Tables) : Prop := mk_tags_ok {
  tag_ids_below : Forall (fun g => exists z, Tag.id g = Some z /\ z < seq) (tags t);
  tag_ids_distinct : NoDup (map Tag.id (tags t));
  tag_names_unique : forall n, (List.length (tag_rows_named n t) <= 1)%nat
}.

Definition store_ok (w : World) : Prop :=
  tags_ok (seq_tag w) (committed w).

(** A request or task run starts with nothing pending and a transaction
    that has seen no change. *)
Definition session_clean (w : World) : Prop :=
  pending w = [] /\ txn w = committed w.

(** [m] keeps [J]: whatever way [m] ends, a world in [J] is left in [J]. *)
Definition preserves {A} (J : World -> Prop) (m : M A) : Prop :=
  forall w r w', J w -> m w = (r, w') -> J w'.

(** [l'] is [l] with rows added at the end. *)
Definition extends {A} (l l' : list A) : Prop := exists extra, l' = l ++ extra.

(** The state of the [tags] table during a call that started from the
    committed rows [base]: keys in order in both views, and nothing of
    [base] lost. *)
Definition tags_inv (base : list Tag.t) (w : World) : Prop :=
  tags_ok (seq_tag w) (txn w) /\ tags_ok (seq_tag w) (committed w)
  /\ extends base (tags (txn w)) /\ extends base (tags (committed w)).

(** A tag row called [n] is visible in the transaction. *)
Definition has_tag (n : string) (w : World) : Prop :=
  exists g, In g (tags (txn w)) /\ Tag.name g = Some n.

(** What a pending operation will add to the associations of article [k]:
    the [tag_id] of a new [ArticleTag] object for [k]. *)
Definition pending_tag_id (k : Z) (hp : list Obj) (op : PendingOp) : list (option Z) :=
  match op with
  | PInsert h =>
      match nth_error hp h with
      | Some (OArticleTag r) =>
          if col_is (ArticleTag.article_id r) k then [ArticleTag.tag_id r] else []
      | _ => []
      end
  | _ => []
  end.

(** The associations of article [k] as the session holds them: the rows
    in the transaction followed by the objects still to be flushed. *)
Definition session_tag_ids (k : Z) (w : World) : list (option Z) :=
  map ArticleTag.tag_id (associations k (txn w))
  ++ flat_map (pending_tag_id k (heap w)) (pending w).

(** The transaction still shows every row of [T]. *)
Definition txn_extends (T : list Tag.t) (w : World) : Prop := extends T (tags (txn w)).

(** The part of an object that decides what it adds to the associations
    of article [k]. *)
Definition assoc_key (k : Z) (o : option Obj) : list (option Z) :=
  match o with
  | Some (OArticleTag r) =>
      if col_is (ArticleTag.article_id r) k then [ArticleTag.tag_id r] else []
  | _ => []
  end.

(** The error of building an [ArticleSchema] from no field at all. *)
Definition fields_required : exn :=
  ValidationError
    (ArticleSchema.error_message
       [("title", "Field required"); ("content", "Field required");
        ("slug", "Field required")]).

(** The error of reading [article.description]. *)
Definition no_description : exn :=
  AttributeError "'Article' object has no attribute 'description'".

(** Sequencing of two embedding results, the second appended to the first. *)
Definition then_append (a b : Res (list Vector)) : Res (list Vector) :=
  match a with
  | Ok va =>
      match b with
      | Ok vb => Ok (va ++ vb)
      | Raise e => Raise e
      | Diverge => Diverge
      end
  | Raise e => Raise e
  | Diverge => Diverge
  end.

(** The loop body of [put], where the article is a loaded row with
    primary key [aid]. *)
Definition put_loop_body (aid : option Z) (tag_name : string) : M unit :=
  tag <- get_or_create_tag tag_name ;;
  article_tag <- new_obj (OArticleTag (ArticleTag.mk None aid (Tag.id tag))) ;;
  session_add article_tag.

(** An outline that names a section twice. *)
Definition repeated_outline : list string := ["Intro"; "Body"; "Intro"].

(** The loop body of [post] and [write_blog], where the article is an
    object held by the caller. *)
Definition tag_loop_body (article : nat) (tag_name : string) : M unit :=
  tag <- get_or_create_tag tag_name ;;
  a <- obj_article article ;;
  article_tag <- new_obj (OArticleTag (ArticleTag.mk None (Article.id a) (Tag.id tag))) ;;
  session_add article_tag.

(** The prompt [write_section] sends for section [cur]. *)
Definition section_prompt (s : BlogState) (cur : string) : string :=
  "Write the following section of a blog post about " +++ topic s +++ ":" +++ nl
  +++ nl
  +++ BlogWriterAgent.indent +++ "Section: " +++ cur +++ nl
  +++ nl
  +++ BlogWriterAgent.indent +++ "Use this research for accurate information:" +++ nl
  +++ BlogWriterAgent.indent
  +++ join nl (map (fun ir : nat * SearchResult =>
                      "Source " +++ str_of_nat (fst ir + 1) +++ ": "
                      +++ sr_title (snd ir) +++ " - " +++ sr_content (snd ir))
                   (enumerate_from 0 (research_data s))) +++ nl
  +++ nl
  +++ BlogWriterAgent.indent +++ "Write in an engaging, conversational style. Include relevant examples and data from the research." +++ nl
  +++ BlogWriterAgent.indent.

(** A section as it is appended to the draft. *)
Definition section_text (cur response : string) : string :=
  "## " +++ cur +++ nl +++ nl +++ response.

(** The state [write_section] returns: the section appended to the
    draft, the pointer moved to [next]. *)
Definition after_section (s : BlogState) (cur response : string) (next : option string)
  : BlogState :=
  mkBlogState (messages s) (topic s) (research_data s) (outline s) next
    ((if truthy (draft s) then draft s +++ nl +++ nl else draft s)
       +++ section_text cur response)
    (status s) (metadata s).

(** What the language model answers for section [cur] of state [s]. *)
Definition response_for (ext : External) (s : BlogState) (cur : string) : string :=
  match llm_invoke ext (section_prompt s cur) with
  | Ok response => response
  | _ => ""
  end.

(** The draft made of the sections [done], in order, each under its
    heading and separated by a blank line. *)
Definition drafted (ext : External) (s : BlogState) (done : list string) : string :=
  join (nl +++ nl) (map (fun cur => section_text cur (response_for ext s cur)) done).

(** The nodes visited while [n] sections are written and the content is
    analyzed. *)
Fixpoint section_visits (n : nat) : list string :=
  match n with
  | O => ["analyze_content"]
  | S k => "write_section" :: "should_continue" :: section_visits k
  end.

(** The state the outline stage hands to the section loop. *)
Definition outlined (topic : string) (research : list SearchResult) (o : list string)
  : BlogState :=
  mkBlogState [] topic research o None "" "initialized" (mkMetadata [] 0 []).

(** How a workflow run that does not end normally ended: by an error of
    the language model, or not at all. *)
Definition stuck (ext : External) (r : Res BlogState) : Prop :=
  match r with
  | Ok _ => False
  | Raise e => exists prompt, llm_invoke ext prompt = Raise e
  | Diverge => True
  end.

Definition is_article (o : Obj) : bool :=
  match o with OArticle _ => true | _ => false end.

(** The new article object [h] of a blog-writing run, once flushed: its
    row [a] is the last of the [articles] table, which otherwise is [A];
    every object created after it is a tag or an association. *)
Record inserted (h : nat) (a : Article.t) (A : list Article.t) (w : World) : Prop :=
  mk_inserted {
    ins_obj : nth_error (heap w) h = Some (OArticle a);
    ins_rows : articles (txn w) = A ++ [a];
    ins_later : forall h' o, (h < h')%nat -> nth_error (heap w) h' = Some o ->
                             is_article o = false
  }.

(** Everything pending was created after object [h]. *)
Definition pending_after (h : nat) (w : World) : Prop :=
  Forall (fun op => exists h', op = PInsert h' /\ (h < h')%nat) (pending w).

(** The same object before its first flush: it is the newest object and
    the only pending one. *)
Record to_insert (h : nat) (a0 : Article.t) (A : list Article.t) (w : World) : Prop :=
  mk_to_insert {
    toi_obj : nth_error (heap w) h = Some (OArticle a0);
    toi_last : List.length (heap w) = S h;
    toi_pending : pending w = [PInsert h];
    toi_rows : articles (txn w) = A
  }.

(** The row made of the object [a0] by its INSERT. *)
Definition row_of (a0 a : Article.t) : Prop :=
  Article.title a = Article.title a0
  /\ Article.slug a = Article.slug a0
  /\ Article.content a = Article.content a0
  /\ Article.author_id a = Article.author_id a0
  /\ Article.is_draft a = Article.is_draft a0
  /\ (exists i, Article.id a = Some i)
  /\ (exists d, Article.created_at a = Some d).

(** The article object is either still to be inserted or inserted. *)
Definition ready (h : nat) (A : list Article.t) (a0 : Article.t) (w : World) : Prop :=
  to_insert h a0 A w
  \/ exists a, row_of a0 a /\ inserted h a A w /\ pending_after h w.

(** The object [Article(title=topic, slug=slug, content=draft,
    author_id=author_id, is_draft=True)] that [write_blog] builds. *)
Definition new_article (slug topic draft : string) (author_id : Z) : Article.t :=
  Article.mk None None slug topic draft (Some author_id) None None true None.

(** The record a successful run returns for the row [a]. *)
Definition success_record (ext : External) (a : Article.t) (d : DateTime)
           (result : BlogState) : list (string * PyVal) :=
  [("status", VStr "success");
   ("article", VDict [("id", of_opt VInt (Article.id a));
                      ("slug", VStr (Article.slug a));
                      ("title", VStr (Article.title a));
                      ("created_at", VStr (isoformat ext d));
                      ("is_draft", VBool (Article.is_draft a))]);
   ("outline", VList (map VStr (outline result)));
   ("research_data", VList (map search_result_val (research_data result)))].

(** The record a failed run returns for the exception [e]. *)
Definition failure_record (e : exn) : list (string * PyVal) :=
  [("status", VStr "error");
   ("error", VStr (if is_SQLAlchemyError e then "Database error occurred"
                   else "An unexpected error occurred"));
   ("details", VStr (exn_str e))].

(** ** Sequences of calls *)

Inductive Call : Type :=
| Create (j : Json) (current_user_id : Z)                  (* POST /articles *)
| Update (j : Json) (article_id : Z)                       (* PUT /articles/<id> *)
| WriteBlog (topic : string) (author_id : Z) (tags : option (list string)).

Inductive CallResult : Type :=
| Http (r : Res Response)
| Task (r : Res (list (string * PyVal))).

Definition requested_tags (c : Call) : list string :=
  match c with
  | Create j _ | Update j _ => from_opt (j_tags j) []
  | WriteBlog _ _ tags => from_opt tags []
  end.

(** A request completes successfully when the view returns its response;
    a blog-writing run when it returns the ["success"] record. *)
Definition completed_successfully (r : CallResult) : bool :=
  match r with
  | Http (Ok _) => true
  | Task (Ok d) =>
      match dict_get "status" d with
      | Some (VStr s) => String.eqb s "success"
      | _ => false
      end
  | _ => false
  end.

Section Calls.

Variable ext : External.
Variable fuel : nat.

(** One call, followed by the removal of its session. *)
Definition perform (c : Call) (w : World) : CallResult * World :=
  match c with
  | Create j u =>
      let (r, w') := ArticleList.post j u w in (Http r, session_remove w')
  | Update j k =>
      let (r, w') := ArticleResource.put j k w in (Http r, session_remove w')
  | WriteBlog topic author tags =>
      let (r, w') := write_blog ext fuel topic author tags w in (Task r, session_remove w')
  end.

Fixpoint run_calls (cs : list Call) (w : World) : list CallResult * World :=
  match cs with
  | [] => ([], w)
  | c :: rest =>
      let (r, w1) := perform c w in
      let (rs, w2) := run_calls rest w1 in
      (r :: rs, w2)
  end.

End Calls.

(* ================================================================== *)
(** * Sample data *)

(** External services that always answer: one search hit, a three-line
    outline for every prompt, a one-dimensional embedding. *)
Definition ext_sample : External :=
  mkExternal
    (fun _ => Ok [mkSearchResult "Rocq" "A proof assistant."])
    (fun _ => Ok ("Intro" +++ nl +++ "Body" +++ nl +++ "Outro"))
    (fun _ => Ok [Float64 0])
    (fun s => s)
    (fun _ => "2024-10-31T12:00:00")
    (fun _ => "2024-10-31 12:00:00")
    (fun _ => "0.0").

(** The same services with a language model whose outline names one
    section twice. *)
Definition ext_repeating : External :=
  mkExternal
    (search_tool_invoke ext_sample)
    (fun _ => Ok ("Intro" +++ nl +++ "Body" +++ nl +++ "Intro"))
    (model_embed_one ext_sample)
    (slugify ext_sample) (isoformat ext_sample)
    (str_datetime ext_sample) (repr_float ext_sample).

(** One user, one article tagged [x] and [y]. *)
Definition tables_sample : Tables :=
  mkTables
    [Article.mk (Some 1) None "a" "A" "text" (Some 1) (Some 0) (Some 0) true None]
    [Tag.mk (Some 1) (Some "x"); Tag.mk (Some 2) (Some "y")]
    [ArticleTag.mk (Some 1) (Some 1) (Some 1); ArticleTag.mk (Some 2) (Some 1) (Some 2)]
    [1].

Definition world_sample : World :=
  mkWorld tables_sample tables_sample 2 3 3 [] [] 100 [] [].

(** One user and nothing else. *)
Definition world_empty : World :=
  mkWorld (mkTables [] [] [] [1]) (mkTables [] [] [] [1]) 1 1 1 [] [] 100 [] [].

Definition json_tags (names : list string) : Json :=
  mkJson None None None None None (Some names).

(** Two updates with a blog-writing run between them. *)
Definition calls_sample : list Call :=
  [Update (json_tags ["y"; "z"]) 1;
   WriteBlog "Proofs" 1 (Some ["z"; "w"]);
   Update (json_tags ["q"]) 9].

(* ================================================================== *)
(** * The cache of [EmbeddingService]: [app/services/embedding.py] *)

(** [functools.lru_cache(maxsize=n)] around a function of one string.
    The cache holds the value of every call that returned, most recently
    used first; a hit moves its entry to the front, a miss that returns is
    stored in front and the least recently used entry is dropped when the
    cache is full; a call that raises stores nothing.  With [maxsize] zero
    or negative nothing is cached. *)
Module LruCache.

Record t : Type := mk {
  maxsize : Z;
  entries : list (string * Vector)
}.

Fixpoint lookup (key : string) (l : list (string * Vector)) : option Vector :=
  match l with
  | [] => None
  | (k, v) :: r => if String.eqb k key then Some v else lookup key r
  end.

Definition remove (key : string) (l : list (string * Vector)) : list (string * Vector) :=
  filter (fun kv => negb (String.eqb (fst kv) key)) l.

Definition call (f : string -> Res Vector) (key : string) (c : t) : Res Vector * t :=
  if maxsize c <=? 0 then (f key, c)
  else
    match lookup key (entries c) with
    | Some v => (Ok v, mk (maxsize c) ((key, v) :: remove key (entries c)))
    | None =>
        match f key with
        | Ok v =>
            (Ok v, mk (maxsize c)
                      (firstn (Z.to_nat (maxsize c)) ((key, v) :: entries c)))
        | r => (r, c)
        end
    end.

End LruCache.

Module CachedEmbeddingService.
Section WithExternal.

Variable ext : External.

(** [__init__]: [text_embedding] is the outcome of building
    [TextEmbedding(model_name=..., max_length=...)]; the cache starts
    empty. *)
Definition init (text_embedding : Res unit) (cache_size : Z) : Res LruCache.t :=
  match text_embedding with
  | Ok _ => Ok (LruCache.mk cache_size [])
  | Raise e => Raise (PyException ("Failed to initialize embedding model: " +++ exn_str e))
  | Diverge => Diverge
  end.

Definition _get_single_embedding (text : string) (cache : LruCache.t)
  : Res Vector * LruCache.t :=
  LruCache.call (EmbeddingService._compute_single_embedding ext) text cache.

(** [get_embedding] with the cache of the service threaded through. *)
Definition get_embedding (text : string) (use_cache : bool) (cache : LruCache.t)
  : Res Vector * LruCache.t :=
  if negb (truthy (strip text)) then
    (Raise (ValueError "Input must be a non-empty string"), cache)
  else
    if use_cache then _get_single_embedding text cache
    else (EmbeddingService._compute_single_embedding ext text, cache).

End WithExternal.
End CachedEmbeddingService.

(* ================================================================== *)
(** * Vocabulary of the further properties *)

(** A client asking for the embedding of each text in turn. *)
Fixpoint serve (ext : External) (requests : list (string * bool)) (cache : LruCache.t)
  : list (Res Vector) * LruCache.t :=
  match requests with
  | [] => ([], cache)
  | (text, use_cache) :: rest =>
      let (r, cache1) := CachedEmbeddingService.get_embedding ext text use_cache cache in
      let (rs, cache2) := serve ext rest cache1 in
      (r :: rs, cache2)
  end.

(** Every cached vector is what the model computes for its text. *)
Definition cache_sound (ext : External) (c : LruCache.t) : Prop :=
  Forall (fun kv => EmbeddingService._compute_single_embedding ext (fst kv) = Ok (snd kv))
         (LruCache.entries c).

(** The cache holds no more than [maxsize] entries. *)
Definition cache_bounded (c : LruCache.t) : Prop :=
  (List.length (LruCache.entries c) <= Z.to_nat (LruCache.maxsize c))%nat.

(** A batch size that is absent, zero or positive. *)
Definition forward_batch (b : option Z) : Prop :=
  match b with Some z => 0 <= z | None => True end.

(** How many more runs a message can cause: its own and the retries left. *)
Definition runs_left (m : Message) : nat := S (max_retries - m_retries m).

Definition retry_budget (q : list Message) : nat := list_sum (map runs_left q).

(** An embedding model that is down. *)
Definition ext_model_down : External :=
  mkExternal
    (search_tool_invoke ext_sample) (llm_invoke ext_sample)
    (fun _ => Raise (ExternalError "model unavailable"))
    (slugify ext_sample) (isoformat ext_sample)
    (str_datetime ext_sample) (repr_float ext_sample).

(** The prompt [create_outline] sends for a topic and its research. *)
Definition outline_prompt (topic : string) (research : list SearchResult) : string :=
  "Based on the following research about " +++ topic
  +++ ", create a detailed blog post outline:" +++ nl
  +++ nl
  +++ BlogWriterAgent.indent +++ "Research:" +++ nl
  +++ BlogWriterAgent.indent
  +++ join nl (map (fun ir : nat * SearchResult =>
                      "Source " +++ str_of_nat (fst ir + 1) +++ ": "
                      +++ sr_title (snd ir) +++ " - "
                      +++ prefix 200 (sr_content (snd ir)) +++ "...")
                   (enumerate_from 0 research)) +++ nl
  +++ nl
  +++ BlogWriterAgent.indent +++ "Create an outline with main sections and subsections that covers the topic comprehensively." +++ nl
  +++ BlogWriterAgent.indent.

(** The outline [create_outline] reads off an answer of the language
    model. *)
Definition outline_of (response : string) : list string :=
  map strip (filter (fun line => truthy (strip line)) (split "010"%char response)).

(** The query [research_topic] sends to the search tool. *)
Definition research_query (topic : string) : string :=
  "latest information about " +++ topic.

(** [c in s] *)
Fixpoint contains (c : ascii) (s : string) : bool :=
  match s with
  | EmptyString => false
  | String x r => Ascii.eqb x c || contains c r
  end.

(** A string that is empty or starts with a character that is no space. *)
Definition headed (s : string) : Prop :=
  match s with
  | EmptyString => True
  | String c _ => isspace c = false
  end.

(** A line of an outline: not empty, on one line, with no space around. *)
Definition clean_line (x : string) : Prop :=
  truthy x = true /\ strip x = x /\ contains "010"%char x = false.

(** The metadata [analyze_content] attaches to a draft. *)
Definition metadata_of (draft : string) : Metadata :=
  mkMetadata ["AI"; "Technology"; "Tutorial"]
             (Z.of_nat (count_words false draft) / 200)
             ["artificial intelligence"; "machine learning"].

(** The section loop leaves these keys of the state alone. *)
Definition same_inputs (s s' : BlogState) : Prop :=
  messages s' = messages s /\ topic s' = topic s
  /\ research_data s' = research_data s /\ outline s' = outline s
  /\ status s' = status s.

(** A state as the section loop meets it: the pointer, when set, names
    an entry of the outline, and no entry is empty. *)
Definition loop_state (s : BlogState) : Prop :=
  (forall x, In x (outline s) -> truthy x = true)
  /\ (forall c, current_section s = Some c -> In c (outline s)).

(** The error of reading the first entry of an empty outline. *)
Definition empty_outline : exn := IndexError "list index out of range".

(** What a workflow run that raised [e] met: an error of the search
    tool, an error of the language model, or an empty outline. *)
Definition failure_cause (ext : External) (topic : string) (e : exn) : Prop :=
  search_tool_invoke ext (research_query topic) = Raise e
  \/ (exists prompt, llm_invoke ext prompt = Raise e)
  \/ (e = empty_outline
      /\ exists rs response,
           search_tool_invoke ext (research_query topic) = Ok rs
           /\ llm_invoke ext (outline_prompt topic rs) = Ok response
           /\ outline_of response = []).

(** A language model that answers every prompt with blank lines. *)
Definition ext_blank : External :=
  mkExternal
    (search_tool_invoke ext_sample)
    (fun _ => Ok ("  " +++ nl +++ " "))
    (model_embed_one ext_sample)
    (slugify ext_sample) (isoformat ext_sample)
    (str_datetime ext_sample) (repr_float ext_sample).

(** Some article of the store already has the slug [s]. *)
Definition slug_taken (s : string) (t : Tables) : Prop :=
  exists a, In a (articles t) /\ Article.slug a = s.

(** The world a failed blog-writing run leaves: the error logged, the
    session rolled back. *)
Definition after_failure (e : exn) (w : World) : World :=
  with_pending []
    (with_txn (committed w)
       (with_log (log w ++ [(ERROR,
                    (if is_SQLAlchemyError e
                     then "Database error while creating article: "
                     else "Error while writing blog: ") +++ exn_str e)]) w)).

(** The store with its only article untagged. *)
Definition world_untagged : World :=
  with_txn (with_article_tags [] tables_sample)
    (with_committed (with_article_tags [] tables_sample) world_sample).

(** What the loop has made of a state when the run is over. *)
Definition finished (s final : BlogState) : Prop :=
  same_inputs s final /\ current_section final = None
  /\ truthy (draft final) = true /\ metadata final = metadata_of (draft final).

(** The [tags] and [article_tags] tables, in the transaction and as
    committed, hold the rows [T] and [AT] and what was added after them;
    the [users] table is [U]. *)
Definition grows (T : list Tag.t) (AT : list ArticleTag.t) (U : list Z) (w : World) : Prop :=
  extends T (tags (txn w)) /\ extends T (tags (committed w))
  /\ extends AT (article_tags (txn w)) /\ extends AT (article_tags (committed w))
  /\ users (txn w) = U /\ users (committed w) = U.

(** The row an INSERT makes of the article object [a]: the key drawn
    from the sequence, the time stamps defaulted to the clock. *)
Definition stored (a : Article.t) (w : World) : Article.t :=
  Article.with_updated_at (or_default (Article.updated_at a) (clock w))
    (Article.with_created_at (or_default (Article.created_at a) (clock w))
       (Article.with_id (Some (seq_article w)) a)).

(** The new article object [h] of a blog-writing run and the row [a] it
    becomes: still to be inserted, with [a] the row the INSERT will make
    of it, or inserted as [a]. *)
Definition placed (h : nat) (a0 a : Article.t) (A : list Article.t) (w : World) : Prop :=
  (to_insert h a0 A w /\ stored a0 w = a)
  \/ (inserted h a A w /\ pending_after h w).

(** [post] from its tag loop to its commit, as those lines run when the
    body names the tags [names] and [article] is the object that the
    schema is asked to load. *)
Definition post_tags_and_commit (article : nat) (names : list string) : M unit :=
  for_each names (tag_loop_body article) ;;
  session_add article ;;
  commit.

(** The error of an association row without article key. *)
Definition null_article_id : exn :=
  IntegrityError "null value in column article_id of relation article_tags".

(** A store with one user and, in the session, a new article object
    that has not been added. *)
Definition world_new_article : World :=
  with_heap [OArticle (Article.mk None None "t" "T" "c" (Some 1) None None true None)]
    world_empty.

(* ================================================================== *)
(** * Proofs *)

(* ================================================================== *)
(** * Reasoning about monadic code *)

Lemma bind_Ok {A B} (m : M A) (f : A -> M B) w b w' :
  bind m f w = (Ok b, w') ->
  exists a w1, m w = (Ok a, w1) /\ f a w1 = (Ok b, w').
Proof.
  unfold bind. destruct (m w) as [[a|e|] w1]; intros H; try discriminate.
  exists a, w1. split; [reflexivity | exact H].
Qed.

Lemma bind_cases {A B} (m : M A) (f : A -> M B) w r w' :
  bind m f w = (r, w') ->
  (exists a w1, m w = (Ok a, w1) /\ f a w1 = (r, w'))
  \/ (exists e, m w = (Raise e, w') /\ r = Raise e)
  \/ (m w = (Diverge, w') /\ r = Diverge).
Proof.
  unfold bind. destruct (m w) as [[a|e|] w1]; intros H.
  - left. eauto.
  - right. left. inversion H; subst. eauto.
  - right. right. inversion H; subst. eauto.
Qed.

Lemma preserves_ret {A} J (a : A) : preserves J (ret a).
Proof. intros w r w' HJ H. inversion H; subst; exact HJ. Qed.

Lemma preserves_raise {A} J e : preserves J (@raise A e).
Proof. intros w r w' HJ H. inversion H; subst; exact HJ. Qed.

Lemma preserves_lift {A} J (x : Res A) : preserves J (lift x).
Proof. intros w r w' HJ H. inversion H; subst; exact HJ. Qed.

Lemma preserves_gets {A} J (f : World -> A) : preserves J (gets f).
Proof. intros w r w' HJ H. inversion H; subst; exact HJ. Qed.

Lemma preserves_modify J (f : World -> World) :
  (forall w, J w -> J (f w)) -> preserves J (modify f).
Proof. intros Hf w r w' HJ H. inversion H; subst; auto. Qed.

Lemma preserves_bind {A B} J (m : M A) (f : A -> M B) :
  preserves J m -> (forall a, preserves J (f a)) -> preserves J (bind m f).
Proof.
  intros Hm Hf w r w' HJ H.
  destruct (bind_cases _ _ _ _ _ H) as [(a & w1 & H1 & H2) | [(e & H1 & _) | (H1 & _)]].
  - eapply Hf; [eapply Hm; eauto | eauto].
  - eapply Hm; eauto.
  - eapply Hm; eauto.
Qed.

Lemma preserves_for_each {A} J (xs : list A) (body : A -> M unit) :
  (forall x, preserves J (body x)) -> preserves J (for_each xs body).
Proof.
  intros Hb. induction xs as [|x xs IH]; simpl.
  - apply preserves_ret.
  - apply preserves_bind; auto.
Qed.

Lemma preserves_try_except {A} J (body : M A) (handler : exn -> M A) :
  preserves J body -> (forall e, preserves J (handler e)) ->
  preserves J (try_except body handler).
Proof.
  intros Hb Hh w r w' HJ H. unfold try_except in H.
  destruct (body w) as [[a|e|] w1] eqn:E.
  - inversion H; subst. eapply Hb; eauto.
  - eapply Hh; [eapply Hb; eauto | eauto].
  - inversion H; subst. eapply Hb; eauto.
Qed.

(* ================================================================== *)
(** * The schema object of the article views *)

(** [put] and [post] build their schema first and so end there. *)
Lemma put_refused j k w : ArticleResource.put j k w = (Raise fields_required, w).
Proof. reflexivity. Qed.

Lemma post_refused j u w : ArticleList.post j u w = (Raise fields_required, w).
Proof. reflexivity. Qed.

(* ================================================================== *)
(** * The [tags] table *)

Lemma col_is_true c v : col_is c v = true -> c = Some v.
Proof.
  destruct c as [x|]; simpl; [|discriminate].
  intros H. apply Z.eqb_eq in H. congruence.
Qed.

Lemma col_is_refl v : col_is (Some v) v = true.
Proof. simpl. apply Z.eqb_refl. Qed.

Lemma name_is_true c v : name_is c v = true -> c = Some v.
Proof.
  destruct c as [x|]; simpl; [|discriminate].
  intros H. apply String.eqb_eq in H. congruence.
Qed.

Lemma opt_Z_eqb_true a b : opt_Z_eqb a b = true -> a = b.
Proof.
  destruct a, b; simpl; try discriminate; auto.
  intros H. apply Z.eqb_eq in H. congruence.
Qed.

Lemma opt_Z_eqb_refl a : opt_Z_eqb a a = true.
Proof. destruct a; simpl; auto. apply Z.eqb_refl. Qed.

Lemma extends_refl {A} (l : list A) : extends l l.
Proof. exists []. now rewrite app_nil_r. Qed.

Lemma extends_app {A} (l l' x : list A) : extends l l' -> extends l (l' ++ x).
Proof. intros [e ->]. exists (e ++ x). now rewrite app_assoc. Qed.

Lemma tags_ok_ext s t t' : tags t' = tags t -> tags_ok s t -> tags_ok s t'.
Proof.
  intros E [H1 H2 H3]. split; unfold tag_rows_named in *; rewrite E; auto.
Qed.

Lemma tags_ok_mono s s' t : s <= s' -> tags_ok s t -> tags_ok s' t.
Proof.
  intros Hs [H1 H2 H3]. split; auto.
  eapply Forall_impl; [|exact H1].
  intros g (z & E & Hz). exists z. split; [exact E | lia].
Qed.

Lemma fresh_id_not_in s (l : list Tag.t) :
  Forall (fun g => exists z, Tag.id g = Some z /\ z < s) l ->
  ~ In (Some s) (map Tag.id l).
Proof.
  intros HF Hin. apply in_map_iff in Hin. destruct Hin as (g & E & Hg).
  rewrite Forall_forall in HF. destruct (HF g Hg) as (z & E' & Hz).
  rewrite E in E'. inversion E'. lia.
Qed.

Lemma NoDup_snoc {A} (l : list A) x : NoDup l -> ~ In x l -> NoDup (l ++ [x]).
Proof.
  intros Hl Hx. induction Hl as [|y l Hy Hl IH]; simpl.
  - constructor; [intros [] | constructor].
  - constructor.
    + rewrite in_app_iff. intros [H | [H | []]]; [auto | subst; apply Hx; now left].
    + apply IH. intros H. apply Hx. now right.
Qed.

Lemma filter_none {A} (f : A -> bool) l : existsb f l = false -> filter f l = [].
Proof.
  induction l as [|x l IH]; simpl; auto.
  destruct (f x); simpl; [discriminate | auto].
Qed.

Lemma tags_ok_insert s t nm :
  tags_ok s t ->
  match nm with
  | Some n => existsb (fun r => name_is (Tag.name r) n) (tags t) = false
  | None => True
  end ->
  tags_ok (s + 1) (with_tags (tags t ++ [Tag.mk (Some s) nm]) t).
Proof.
  intros [H1 H2 H3] Hn. split; simpl.
  - apply Forall_app. split.
    + eapply Forall_impl; [|exact H1]. intros g (z & E & Hz). exists z. split; [auto | lia].
    + constructor; [|constructor]. exists s. simpl. split; [auto | lia].
  - rewrite map_app. simpl. apply NoDup_snoc; auto. now apply fresh_id_not_in.
  - intros n. unfold tag_rows_named in *. simpl. rewrite filter_app, length_app. simpl.
    destruct nm as [n0|]; simpl.
    + destruct (String.eqb n0 n) eqn:E; simpl.
      * apply String.eqb_eq in E. subst n0. rewrite (filter_none _ _ Hn). simpl. lia.
      * specialize (H3 n). lia.
    + specialize (H3 n). lia.
Qed.

(** ** Every statement of a flush keeps the tag invariant *)

Lemma tags_inv_frame base w w' :
  tags_inv base w ->
  tags (txn w') = tags (txn w) -> tags (committed w') = tags (committed w) ->
  seq_tag w <= seq_tag w' ->
  tags_inv base w'.
Proof.
  intros (H1 & H2 & H3 & H4) E1 E2 Hs. unfold tags_inv. rewrite E1, E2.
  split; [|split; [|split]]; auto.
  - apply tags_ok_mono with (s := seq_tag w); auto. eapply tags_ok_ext; eauto.
  - apply tags_ok_mono with (s := seq_tag w); auto. eapply tags_ok_ext; eauto.
Qed.

(** The change leaves both [tags] tables alone and does not lower the
    sequence. *)
Ltac frame_tac :=
  match goal with
  | HJ : tags_inv ?b ?w |- tags_inv ?b _ =>
      apply (tags_inv_frame b w); [exact HJ | reflexivity | reflexivity | simpl; lia]
  end.

Section TagsInv.

Variable base : list Tag.t.

Lemma tags_inv_insert_article h a : preserves (tags_inv base) (insert_article h a).
Proof.
  intros w r w' HJ H. unfold insert_article in H.
  repeat match type of H with
         | (if ?c then _ else _) = _ => destruct c
         | match ?c with _ => _ end = _ => destruct c
         end; inversion H; subst; try exact HJ; frame_tac.
Qed.

Lemma tags_inv_insert_article_tag h x : preserves (tags_inv base) (insert_article_tag h x).
Proof.
  intros w r w' HJ H. unfold insert_article_tag in H.
  repeat match type of H with
         | (if ?c then _ else _) = _ => destruct c
         | match ?c with _ => _ end = _ => destruct c
         end; inversion H; subst; try exact HJ; frame_tac.
Qed.

Lemma tags_inv_update_article a : preserves (tags_inv base) (update_article a).
Proof.
  intros w r w' HJ H. unfold update_article in H.
  repeat match type of H with
         | (if ?c then _ else _) = _ => destruct c
         end; inversion H; subst; try exact HJ; frame_tac.
Qed.

Lemma tags_inv_delete_article a : preserves (tags_inv base) (delete_article a).
Proof.
  intros w r w' HJ H. unfold delete_article in H.
  repeat match type of H with
         | (if ?c then _ else _) = _ => destruct c
         end; inversion H; subst; try exact HJ; frame_tac.
Qed.

Lemma tags_inv_insert_tag h g : preserves (tags_inv base) (insert_tag h g).
Proof.
  intros w r w' HJ H. unfold insert_tag in H.
  destruct HJ as (H1 & H2 & H3 & H4).
  assert (Hgoal : forall nm,
             match nm with
             | Some n => existsb (fun r => name_is (Tag.name r) n) (tags (txn w)) = false
             | None => True
             end ->
             tags_inv base
               (with_heap (list_set h (OTag (Tag.mk (Some (seq_tag w)) nm)) (heap w))
                  (with_seq_tag (seq_tag w + 1)
                     (with_txn (with_tags (tags (txn w) ++ [Tag.mk (Some (seq_tag w)) nm])
                                          (txn w)) w)))).
  { intros nm Hn. unfold tags_inv. simpl. split; [|split; [|split]].
    - now apply tags_ok_insert.
    - apply tags_ok_mono with (s := seq_tag w); [lia | auto].
    - now apply extends_app.
    - auto. }
  destruct (Tag.name g) as [n|].
  - destruct (too_long n); [inversion H; subst; unfold tags_inv; auto|].
    destruct (existsb _ _) eqn:E; inversion H; subst.
    + unfold tags_inv; auto.
    + apply (Hgoal (Some n)). exact E.
  - inversion H; subst. apply (Hgoal None). exact I.
Qed.

Lemma tags_inv_flush_op op : preserves (tags_inv base) (flush_op op).
Proof.
  destruct op as [h|a|a]; simpl.
  - intros w r w' HJ H.
    destruct (nth_error (heap w) h) as [[a|g|x]|].
    + eapply tags_inv_insert_article; eauto.
    + eapply tags_inv_insert_tag; eauto.
    + eapply tags_inv_insert_article_tag; eauto.
    + inversion H; subst; auto.
  - apply tags_inv_update_article.
  - apply tags_inv_delete_article.
Qed.

Lemma tags_inv_with_pending p w : tags_inv base w -> tags_inv base (with_pending p w).
Proof. intros H. exact H. Qed.

Lemma tags_inv_flush : preserves (tags_inv base) flush.
Proof.
  unfold flush. apply preserves_bind; [apply preserves_gets|]. intros ops.
  apply preserves_bind; [apply preserves_for_each; intros; apply tags_inv_flush_op|].
  intros _. apply preserves_modify. intros w H. exact H.
Qed.

Lemma tags_inv_commit : preserves (tags_inv base) commit.
Proof.
  unfold commit. apply preserves_bind; [apply tags_inv_flush|]. intros _.
  apply preserves_modify. intros w (H1 & H2 & H3 & H4). unfold tags_inv. simpl. auto.
Qed.

Lemma tags_inv_rollback : preserves (tags_inv base) rollback.
Proof.
  unfold rollback. apply preserves_modify.
  intros w (H1 & H2 & H3 & H4). unfold tags_inv. simpl. auto.
Qed.

Lemma tags_inv_session_remove w : tags_inv base w -> tags_inv base (session_remove w).
Proof. intros (H1 & H2 & H3 & H4). unfold tags_inv, session_remove. simpl. auto. Qed.

End TagsInv.

(* ================================================================== *)
(** * Invariants carried through the session operations and the handlers

    An invariant that the elementary state changes keep is kept by every
    derived operation and by the views and tasks built from them. *)

Ltac preserves_structure :=
  repeat match goal with
    | |- preserves _ (ret _) => apply preserves_ret
    | |- preserves _ (raise _) => apply preserves_raise
    | |- preserves _ (lift _) => apply preserves_lift
    | |- preserves _ (gets _) => apply preserves_gets
    | |- preserves _ (bind _ _) => apply preserves_bind; [|intros ?]
    | |- preserves _ (for_each _ _) => apply preserves_for_each; intros ?
    | |- preserves _ (try_except _ _) => apply preserves_try_except; [|intros ?]
    | |- preserves _ (match ?x with _ => _ end) => destruct x
    | |- preserves _ _ => assumption
    end.

Section PreservedBy.

Variable J : World -> Prop.

Hypothesis J_new_obj : forall o, preserves J (new_obj o).
Hypothesis J_set_author_id : forall h u, preserves J (set_author_id h u).
Hypothesis J_session_add : forall h, preserves J (session_add h).
Hypothesis J_session_delete : forall a, preserves J (session_delete a).
Hypothesis J_dirty : forall w a, J w -> J (with_pending (pending w ++ [PUpdate a]) w).
Hypothesis J_flushed : forall w, J w -> J (with_pending [] w).
Hypothesis J_log : forall w l, J w -> J (with_log l w).
Hypothesis J_queue : forall w q, J w -> J (with_queue q w).
Hypothesis J_flush_op : forall op, preserves J (flush_op op).
Hypothesis J_committed : forall w, J w -> J (with_committed (txn w) w).
Hypothesis J_unassociate :
  forall w f, J w ->
    J (with_txn (with_article_tags (filter f (article_tags (txn w))) (txn w)) w).
Hypothesis J_rollback : forall w, J w -> J (with_pending [] (with_txn (committed w) w)).

Lemma preserves_obj_article h : preserves J (obj_article h).
Proof.
  intros w r w' HJ H. unfold obj_article in H.
  destruct (nth_error (heap w) h) as [[?|?|?]|]; inversion H; subst; exact HJ.
Qed.

Lemma preserves_obj_tag h : preserves J (obj_tag h).
Proof.
  intros w r w' HJ H. unfold obj_tag in H.
  destruct (nth_error (heap w) h) as [[?|?|?]|]; inversion H; subst; exact HJ.
Qed.

Lemma preserves_logger lvl msg : preserves J (logger lvl msg).
Proof. apply preserves_modify. intros w H. now apply J_log. Qed.

Lemma preserves_delay k : preserves J (delay k).
Proof. apply preserves_modify. intros w H. now apply J_queue. Qed.

Lemma preserves_flush : preserves J flush.
Proof.
  unfold flush. preserves_structure; [apply J_flush_op|].
  apply preserves_modify. exact J_flushed.
Qed.

Lemma preserves_commit : preserves J commit.
Proof.
  unfold commit. preserves_structure; [apply preserves_flush|].
  apply preserves_modify. exact J_committed.
Qed.

Lemma preserves_rollback : preserves J rollback.
Proof. apply preserves_modify. exact J_rollback. Qed.

Lemma preserves_Article_query_get k : preserves J (Article_query_get k).
Proof. unfold Article_query_get. preserves_structure. apply preserves_flush. Qed.

Lemma preserves_Article_query_get_or_404 k : preserves J (Article_query_get_or_404 k).
Proof.
  unfold Article_query_get_or_404. preserves_structure.
  apply preserves_Article_query_get.
Qed.

Lemma preserves_Tag_query_filter_by_name_first n :
  preserves J (Tag_query_filter_by_name_first n).
Proof. unfold Tag_query_filter_by_name_first. preserves_structure. apply preserves_flush. Qed.

Lemma preserves_ArticleTag_query_filter_by_article_id_delete k :
  preserves J (ArticleTag_query_filter_by_article_id_delete k).
Proof.
  unfold ArticleTag_query_filter_by_article_id_delete. preserves_structure.
  - apply preserves_flush.
  - apply preserves_modify. intros w H. now apply J_unassociate.
Qed.

Lemma preserves_get_or_create_tag n : preserves J (get_or_create_tag n).
Proof.
  unfold get_or_create_tag. preserves_structure;
    first [ apply preserves_Tag_query_filter_by_name_first | apply J_new_obj
          | apply J_session_add | apply preserves_flush | apply preserves_obj_tag ].
Qed.

Lemma preserves_load {A} s j i : preserves J (@ArticleSchema.load A s j i).
Proof. apply preserves_raise. Qed.

Lemma preserves_dump {A} s a : preserves J (@ArticleSchema.dump A s a).
Proof. apply preserves_raise. Qed.

Lemma preserves_set_embedding a v : preserves J (set_embedding a v).
Proof. apply preserves_modify. intros w H. now apply J_dirty. Qed.

Ltac preserves_primitive :=
  first [ apply preserves_Article_query_get_or_404
        | apply preserves_Article_query_get
        | apply preserves_load
        | apply preserves_dump
        | apply preserves_ArticleTag_query_filter_by_article_id_delete
        | apply preserves_get_or_create_tag
        | apply preserves_set_embedding
        | apply J_new_obj
        | apply J_set_author_id
        | apply J_session_add
        | apply J_session_delete
        | apply preserves_obj_article
        | apply preserves_commit
        | apply preserves_rollback
        | apply preserves_delay
        | apply preserves_logger ].

Lemma preserves_put j k : preserves J (ArticleResource.put j k).
Proof. unfold ArticleResource.put. preserves_structure; preserves_primitive. Qed.

Lemma preserves_delete k : preserves J (ArticleResource.delete k).
Proof. unfold ArticleResource.delete. preserves_structure; preserves_primitive. Qed.

Lemma preserves_post j u : preserves J (ArticleList.post j u).
Proof. unfold ArticleList.post. preserves_structure; preserves_primitive. Qed.

Lemma preserves_generate_article_embedding_body ext k :
  preserves J (generate_article_embedding_body ext k).
Proof.
  unfold generate_article_embedding_body. preserves_structure; preserves_primitive.
Qed.

Lemma preserves_write_blog_body ext fuel topic author tgs :
  preserves J (write_blog_body ext fuel topic author tgs).
Proof. unfold write_blog_body. preserves_structure; preserves_primitive. Qed.

Lemma preserves_write_blog ext fuel topic author tgs :
  preserves J (write_blog ext fuel topic author tgs).
Proof.
  unfold write_blog. apply preserves_try_except.
  - apply preserves_write_blog_body.
  - intros e. destruct (is_SQLAlchemyError e); preserves_structure; preserves_primitive.
Qed.

End PreservedBy.

(* ================================================================== *)
(** * The tag invariant holds through every view and task *)

Ltac tags_inv_frame_tac base := intros; frame_tac.

Lemma tags_inv_new_obj base o : preserves (tags_inv base) (new_obj o).
Proof. intros w r w' HJ H. inversion H; subst. tags_inv_frame_tac base. Qed.

Lemma tags_inv_session_add base h : preserves (tags_inv base) (session_add h).
Proof. apply preserves_modify. tags_inv_frame_tac base. Qed.

Lemma tags_inv_session_delete base a : preserves (tags_inv base) (session_delete a).
Proof. apply preserves_modify. tags_inv_frame_tac base. Qed.

Lemma tags_inv_set_author_id base h u : preserves (tags_inv base) (set_author_id h u).
Proof.
  unfold set_author_id. apply preserves_bind.
  - intros w r w' HJ H. unfold obj_article in H.
    destruct (nth_error (heap w) h) as [[?|?|?]|]; inversion H; subst; exact HJ.
  - intros a. apply preserves_modify. tags_inv_frame_tac base.
Qed.

Ltac tags_inv_side base :=
  first [ apply tags_inv_new_obj | apply tags_inv_session_add
        | apply tags_inv_session_delete | apply tags_inv_set_author_id
        | apply tags_inv_flush_op
        | (intros w0 H0; destruct H0 as (? & ? & ? & ?); unfold tags_inv; simpl; auto; fail)
        | tags_inv_frame_tac base ].

Lemma tags_inv_put base j k : preserves (tags_inv base) (ArticleResource.put j k).
Proof. apply preserves_put; tags_inv_side base. Qed.

Lemma tags_inv_post base j u : preserves (tags_inv base) (ArticleList.post j u).
Proof. apply preserves_post; tags_inv_side base. Qed.

Lemma tags_inv_write_blog base ext fuel topic author tgs :
  preserves (tags_inv base) (write_blog ext fuel topic author tgs).
Proof. apply preserves_write_blog; tags_inv_side base. Qed.

Lemma tags_inv_get_or_create_tag base n : preserves (tags_inv base) (get_or_create_tag n).
Proof. apply preserves_get_or_create_tag; tags_inv_side base. Qed.

(** ** Rows of the transaction's [tags] are only ever added *)


Lemma txn_extends_flush_op T op : preserves (txn_extends T) (flush_op op).
Proof.
  intros w r w' HJ H. unfold txn_extends in *.
  destruct op as [h|a|a]; simpl in H.
  - destruct (nth_error (heap w) h) as [[a|g|x]|].
    + unfold insert_article in H.
      repeat match type of H with
             | (if ?c then _ else _) = _ => destruct c
             | match ?c with _ => _ end = _ => destruct c
             end; inversion H; subst; simpl; auto.
    + unfold insert_tag in H.
      repeat match type of H with
             | (if ?c then _ else _) = _ => destruct c
             | match ?c with _ => _ end = _ => destruct c
             end; inversion H; subst; simpl; auto using extends_app.
    + unfold insert_article_tag in H.
      repeat match type of H with
             | (if ?c then _ else _) = _ => destruct c
             | match ?c with _ => _ end = _ => destruct c
             end; inversion H; subst; simpl; auto.
    + inversion H; subst; auto.
  - unfold update_article in H.
    repeat match type of H with
           | (if ?c then _ else _) = _ => destruct c
           end; inversion H; subst; simpl; auto.
  - unfold delete_article in H.
    repeat match type of H with
           | (if ?c then _ else _) = _ => destruct c
           end; inversion H; subst; simpl; auto.
Qed.

(** Side conditions of the lemmas on kept invariants, for an invariant
    that unfolds to facts about fields the elementary change leaves alone. *)
Ltac untouched :=
  intros;
  lazymatch goal with
  | |- preserves _ _ =>
      let w := fresh "w" in
      let r := fresh "r" in
      let w' := fresh "w'" in
      let HJ := fresh "HJ" in
      let H := fresh "H" in
      intros w r w' HJ H;
      unfold new_obj, session_add, session_delete, set_author_id, obj_article,
             bind, modify in H;
      repeat match type of H with
             | match ?c with _ => _ end = _ => destruct c
             end;
      inversion H; subst; first [exact HJ | reflexivity | assumption]
  | _ => first [assumption | reflexivity]
  end.

Ltac txn_extends_side T := first [ apply txn_extends_flush_op | untouched ].

Lemma txn_extends_flush T : preserves (txn_extends T) flush.
Proof. apply preserves_flush; txn_extends_side T. Qed.

Lemma txn_extends_get_or_create_tag T n : preserves (txn_extends T) (get_or_create_tag n).
Proof. apply preserves_get_or_create_tag; txn_extends_side T. Qed.

Lemma txn_extends_start w : txn_extends (tags (txn w)) w.
Proof. apply extends_refl. Qed.

(* ================================================================== *)
(** * What a flush does to the associations of an article *)

Lemma nth_error_snoc {A} (l : list A) x : nth_error (l ++ [x]) (List.length l) = Some x.
Proof. induction l; simpl; auto. Qed.

Lemma nth_error_list_set_same {A} (l : list A) h x y :
  nth_error l h = Some y -> nth_error (list_set h x l) h = Some x.
Proof.
  revert h. induction l as [|z l IH]; intros [|h]; simpl; try discriminate; auto.
Qed.

Lemma nth_error_list_set_other {A} (l : list A) h h' x :
  h <> h' -> nth_error (list_set h x l) h' = nth_error l h'.
Proof.
  revert h h'. induction l as [|z l IH]; intros [|h] [|h']; simpl; auto; try congruence.
Qed.

Lemma pending_tag_id_key k hp h :
  pending_tag_id k hp (PInsert h) = assoc_key k (nth_error hp h).
Proof. unfold pending_tag_id, assoc_key. destruct (nth_error hp h) as [[?|?|?]|]; auto. Qed.

Lemma pending_tag_id_list_set k hp h o o' op :
  nth_error hp h = Some o ->
  assoc_key k (Some o') = assoc_key k (Some o) ->
  pending_tag_id k (list_set h o' hp) op = pending_tag_id k hp op.
Proof.
  intros Hh Hk. destruct op as [h'|a|a]; auto.
  rewrite !pending_tag_id_key.
  destruct (Nat.eq_dec h h') as [<-|Hne].
  - rewrite (nth_error_list_set_same _ _ _ _ Hh), Hh. exact Hk.
  - now rewrite nth_error_list_set_other.
Qed.

Lemma associations_snoc k t r :
  associations k (with_article_tags (article_tags t ++ [r]) t)
  = associations k t ++ (if col_is (ArticleTag.article_id r) k then [r] else []).
Proof. unfold associations. simpl. rewrite filter_app. simpl. destruct (col_is _ _); auto. Qed.

Lemma flush_op_tag_ids k op w w1 :
  flush_op op w = (Ok tt, w1) ->
  map ArticleTag.tag_id (associations k (txn w1))
  = map ArticleTag.tag_id (associations k (txn w)) ++ pending_tag_id k (heap w) op
  /\ forall op', pending_tag_id k (heap w1) op' = pending_tag_id k (heap w) op'.
Proof.
  intros H. destruct op as [h|a|a]; simpl in H.
  - rewrite pending_tag_id_key.
    destruct (nth_error (heap w) h) as [[a|g|x]|] eqn:Hh; simpl.
    + unfold insert_article in H.
      repeat match type of H with
             | (if ?c then _ else _) = _ => destruct c
             | match ?c with _ => _ end = _ => destruct c
             end; inversion H; subst; simpl.
      split; [now rewrite app_nil_r|].
      intros op'. eapply pending_tag_id_list_set; eauto.
    + unfold insert_tag in H.
      repeat match type of H with
             | (if ?c then _ else _) = _ => destruct c
             | match ?c with _ => _ end = _ => destruct c
             end; inversion H; subst; simpl;
        (split; [now rewrite app_nil_r|]);
        intros op'; eapply pending_tag_id_list_set; eauto.
    + unfold insert_article_tag in H.
      destruct (ArticleTag.article_id x) as [ai|] eqn:Ea; [|discriminate].
      destruct (ArticleTag.tag_id x) as [gi|] eqn:Eg; [|discriminate].
      repeat match type of H with
             | (if ?c then _ else _) = _ => destruct c
             end; inversion H; subst; simpl.
      split.
      * rewrite associations_snoc. simpl.
        destruct (ai =? k); simpl; rewrite map_app; simpl; auto.
      * intros op'. eapply pending_tag_id_list_set; eauto.
        simpl. rewrite Ea, Eg. reflexivity.
    + discriminate.
  - unfold update_article in H.
    repeat match type of H with
           | (if ?c then _ else _) = _ => destruct c
           end; inversion H; subst; simpl.
    split; [now rewrite app_nil_r | auto].
  - unfold delete_article in H.
    repeat match type of H with
           | (if ?c then _ else _) = _ => destruct c
           end; inversion H; subst; simpl.
    split; [now rewrite app_nil_r | auto].
Qed.

Lemma flush_ops_tag_ids k ops : forall w w',
  for_each ops flush_op w = (Ok tt, w') ->
  map ArticleTag.tag_id (associations k (txn w'))
  = map ArticleTag.tag_id (associations k (txn w)) ++ flat_map (pending_tag_id k (heap w)) ops.
Proof.
  induction ops as [|op ops IH]; intros w w' H; simpl in H.
  - inversion H; subst. simpl. now rewrite app_nil_r.
  - apply bind_Ok in H. destruct H as ([] & w1 & H1 & H2).
    destruct (flush_op_tag_ids k _ _ _ H1) as (E1 & E2).
    rewrite (IH _ _ H2), E1. simpl. rewrite <- app_assoc. f_equal. f_equal.
    apply flat_map_ext. exact E2.
Qed.

Lemma flush_Ok w w' :
  flush w = (Ok tt, w') ->
  exists w1, for_each (pending w) flush_op w = (Ok tt, w1) /\ w' = with_pending [] w1.
Proof.
  unfold flush. intros H.
  apply bind_Ok in H. destruct H as (ops & w0 & H0 & H).
  inversion H0; subst. clear H0.
  apply bind_Ok in H. destruct H as ([] & w1 & H1 & H2).
  inversion H2; subst. eauto.
Qed.

(** A flush moves the pending associations into the table and leaves
    none pending. *)
Lemma flush_tag_ids k w w' :
  flush w = (Ok tt, w') ->
  session_tag_ids k w' = session_tag_ids k w /\ pending w' = [].
Proof.
  intros H. apply flush_Ok in H. destruct H as (w1 & H1 & ->).
  split; [|reflexivity].
  unfold session_tag_ids. simpl. rewrite app_nil_r.
  now apply flush_ops_tag_ids.
Qed.

Lemma flush_clean w : pending w = [] -> flush w = (Ok tt, with_pending [] w).
Proof. intros E. unfold flush, bind, gets, modify. rewrite E. reflexivity. Qed.

(* ================================================================== *)
(** * Get-or-create of a tag *)

Lemma find_unique_id (l : list Tag.t) g z :
  NoDup (map Tag.id l) -> In g l -> Tag.id g = Some z ->
  find (fun x => col_is (Tag.id x) z) l = Some g.
Proof.
  induction l as [|x l IH]; simpl; intros Hnd Hin Hid; [contradiction|].
  inversion Hnd as [|? ? Hx Hl]; subst.
  destruct Hin as [->|Hin].
  - rewrite Hid. simpl. now rewrite Z.eqb_refl.
  - destruct (col_is (Tag.id x) z) eqn:E.
    + exfalso. apply col_is_true in E. apply Hx. rewrite E, <- Hid. now apply in_map.
    + auto.
Qed.

Lemma tag_name_of_member s t g :
  tags_ok s t -> In g (tags t) -> tag_name_of t (Tag.id g) = Tag.name g.
Proof.
  intros [H1 H2 H3] Hin. rewrite Forall_forall in H1.
  destruct (H1 g Hin) as (z & E & _). unfold tag_name_of. rewrite E.
  now rewrite (find_unique_id _ g z H2 Hin E).
Qed.

Lemma find_app_some {A} (f : A -> bool) l l' x :
  find f l = Some x -> find f (l ++ l') = Some x.
Proof.
  induction l as [|y l IH]; simpl; [discriminate|].
  destruct (f y); auto.
Qed.

Lemma tag_name_of_extends t t' i n :
  extends (tags t) (tags t') -> tag_name_of t i = Some n -> tag_name_of t' i = Some n.
Proof.
  intros [e E] H. unfold tag_name_of in *. destruct i as [z|]; [|discriminate].
  rewrite E. destruct (find _ (tags t)) as [g|] eqn:F; [|discriminate].
  now rewrite (find_app_some _ _ e _ F).
Qed.

Lemma map_names_extends t t' ids names :
  extends (tags t) (tags t') ->
  map (tag_name_of t) ids = map Some names ->
  map (tag_name_of t') ids = map Some names.
Proof.
  intros He. revert names. induction ids as [|i ids IH]; intros [|n names] H;
    simpl in *; try discriminate; auto.
  injection H as H1 H2.
  rewrite (tag_name_of_extends _ _ _ _ He H1), (IH _ H2). reflexivity.
Qed.

(** A successful get-or-create of [n] leaves the pending list empty,
    the session's associations as they were, and returns a row of the
    transaction's [tags] table that is called [n]. *)
Lemma get_or_create_tag_Ok n w g w1 :
  get_or_create_tag n w = (Ok g, w1) ->
  pending w1 = []
  /\ (forall k, session_tag_ids k w1 = session_tag_ids k w)
  /\ In g (tags (txn w1)) /\ Tag.name g = Some n.
Proof.
  unfold get_or_create_tag. intros H.
  apply bind_Ok in H. destruct H as (found & wa & Hq & H).
  unfold Tag_query_filter_by_name_first in Hq.
  apply bind_Ok in Hq. destruct Hq as ([] & wf & Hf & Hq).
  inversion Hq; subst wa found. clear Hq.
  assert (Hpf : pending wf = []) by (eapply (flush_tag_ids 0); eauto).
  assert (Hsf : forall k, session_tag_ids k wf = session_tag_ids k w)
    by (intros k; eapply flush_tag_ids; eauto).
  destruct (find _ (tags (txn wf))) as [g0|] eqn:F.
  - inversion H; subst. apply find_some in F. destruct F as (Hin & Hn).
    apply name_is_true in Hn. auto.
  - clear F.
    apply bind_Ok in H. destruct H as (h & wb & Hn & H).
    inversion Hn; subst h wb. clear Hn.
    apply bind_Ok in H. destruct H as ([] & wc & Ha & H).
    inversion Ha; subst wc. clear Ha.
    apply bind_Ok in H. destruct H as ([] & wd & Hfl & H).
    pose proof Hfl as Hfl'.
    apply flush_Ok in Hfl. destruct Hfl as (we & Hops & ->).
    simpl in Hops. rewrite Hpf in Hops. simpl in Hops.
    apply bind_Ok in Hops. destruct Hops as ([] & wg & Hins & Hret).
    inversion Hret; subst we. clear Hret.
    cbn [heap with_pending with_heap] in Hins.
    rewrite nth_error_snoc in Hins.
    unfold insert_tag in Hins. cbn [Tag.name] in Hins.
    destruct (too_long n); [discriminate|].
    destruct (existsb _ _); [discriminate|].
    inversion Hins; subst wg. clear Hins.
    unfold obj_tag in H. cbn [heap with_pending with_heap with_seq_tag with_txn] in H.
    rewrite (nth_error_list_set_same _ _ _ _ (nth_error_snoc _ _)) in H.
    inversion H; subst. simpl.
    split; [reflexivity|]. split; [|split; [|reflexivity]].
    + intros k. rewrite <- Hsf. unfold session_tag_ids. simpl. now rewrite Hpf.
    + apply in_or_app. right. now left.
Qed.

(* ================================================================== *)
(** * The tag loop over a loaded article, and the commit *)

Section PutLoop.

Variable base : list Tag.t.
Variable k : Z.

Lemma put_body_Ok n w w' names :
  put_loop_body (Some k) n w = (Ok tt, w') ->
  tags_inv base w ->
  map (tag_name_of (txn w)) (session_tag_ids k w) = map Some names ->
  tags_inv base w'
  /\ map (tag_name_of (txn w')) (session_tag_ids k w') = map Some (names ++ [n]).
Proof.
  unfold put_loop_body. intros H HJ Hnames.
  apply bind_Ok in H. destruct H as (g & w1 & Hg & H).
  pose proof (tags_inv_get_or_create_tag base n _ _ _ HJ Hg) as HJ1.
  pose proof (txn_extends_get_or_create_tag _ n _ _ _ (txn_extends_start w) Hg) as Hext.
  destruct (get_or_create_tag_Ok _ _ _ _ Hg) as (Hp1 & Hs1 & Hin & Hname).
  apply bind_Ok in H. destruct H as (h & w2 & Hn & H).
  inversion Hn; subst h w2. clear Hn.
  inversion H; subst w'. clear H.
  split.
  - apply (tags_inv_frame base w1); auto; simpl; lia.
  - unfold session_tag_ids. cbn [txn heap pending with_pending with_heap].
    rewrite Hp1. cbn [app flat_map]. rewrite pending_tag_id_key, nth_error_snoc.
    cbn [assoc_key ArticleTag.article_id ArticleTag.tag_id]. rewrite col_is_refl.
    rewrite app_nil_r, map_app. cbn [map].
    assert (E : map ArticleTag.tag_id (associations k (txn w1)) = session_tag_ids k w).
    { rewrite <- Hs1. unfold session_tag_ids. rewrite Hp1. simpl. now rewrite app_nil_r. }
    rewrite E, map_app. cbn [map]. f_equal.
    + eapply map_names_extends; eauto.
    + destruct HJ1 as (Hok & _). rewrite (tag_name_of_member _ _ _ Hok Hin). now rewrite Hname.
Qed.

Lemma put_loop_Ok names : forall done w w',
  for_each names (put_loop_body (Some k)) w = (Ok tt, w') ->
  tags_inv base w ->
  map (tag_name_of (txn w)) (session_tag_ids k w) = map Some done ->
  tags_inv base w'
  /\ map (tag_name_of (txn w')) (session_tag_ids k w') = map Some (done ++ names).
Proof.
  induction names as [|n names IH]; intros done w w' H HJ Hd; simpl in H.
  - inversion H; subst. now rewrite app_nil_r.
  - apply bind_Ok in H. destruct H as ([] & w1 & H1 & H2).
    destruct (put_body_Ok _ _ _ _ H1 HJ Hd) as (HJ1 & Hd1).
    destruct (IH _ _ _ H2 HJ1 Hd1) as (HJ' & Hd').
    split; [exact HJ'|]. now rewrite <- app_assoc in Hd'.
Qed.

Lemma commit_Ok w w1 :
  commit w = (Ok tt, w1) ->
  committed w1 = txn w1 /\ pending w1 = []
  /\ session_tag_ids k w1 = session_tag_ids k w
  /\ txn_extends (tags (txn w)) w1.
Proof.
  unfold commit. intros H.
  apply bind_Ok in H. destruct H as ([] & wf & Hf & H).
  inversion H; subst w1. clear H.
  destruct (flush_tag_ids k _ _ Hf) as (Hs & Hp).
  pose proof (txn_extends_flush _ _ _ _ (txn_extends_start w) Hf) as Hext.
  repeat split; auto.
Qed.

End PutLoop.

Lemma tags_inv_start w :
  store_ok w -> session_clean w -> tags_inv (tags (committed w)) w.
Proof.
  intros Hok (Hp & Ht). unfold tags_inv. rewrite Ht.
  repeat split; try apply Hok; apply extends_refl.
Qed.

(** C1.  An update never gets to replace the tags.  [put] first builds its
    schema object, [ArticleSchema(partial=True)]; the class is a pydantic
    model whose [title], [content] and [slug] are required and which
    ignores the keyword [partial], so the constructor raises
    [ValidationError] on every request, before the article is looked up,
    and the world is left as it was.  On the sample store, whose article 1
    is tagged [x] and [y], the request to tag it [y] and [z] ends that
    way, and the association rows of the article still name [x] and [y]. *)
Theorem put_stops_before_the_tags_are_replaced :
  (forall (j : Json) (k : Z) (w : World),
     ArticleResource.put j k w = (Raise fields_required, w))
  /\ fst (ArticleResource.put (json_tags ["y"; "z"]) 1 world_sample)
     = Raise fields_required
  /\ associated_tag_names 1
       (committed (session_remove
                     (snd (ArticleResource.put (json_tags ["y"; "z"]) 1 world_sample))))
     = [Some "x"; Some "y"].
Proof.
  split; [exact put_refused|].
  split; [now rewrite put_refused|].
  rewrite put_refused. reflexivity.
Qed.

Lemma store_ok_world_sample : store_ok world_sample.
Proof.
  unfold store_ok. split; simpl.
  - constructor; [exists 1; split; [reflexivity | lia]|].
    constructor; [exists 2; split; [reflexivity | lia]|]. constructor.
  - constructor; [simpl; intros [H|[]]; discriminate|].
    constructor; [intros []|]. constructor.
  - intros n. unfold tag_rows_named. cbn -[String.eqb].
    destruct (String.eqb "x" n) eqn:E1; destruct (String.eqb "y" n) eqn:E2;
      cbn -[String.eqb]; try lia.
    apply String.eqb_eq in E1, E2. congruence.
Qed.

(* ================================================================== *)
(** * Tag rows requested by a call *)

Lemma has_tag_of_extends n w w' :
  has_tag n w -> txn_extends (tags (txn w)) w' -> has_tag n w'.
Proof.
  intros (g & Hin & Hn) [e E]. exists g. split; [|exact Hn].
  rewrite E. apply in_or_app. now left.
Qed.

Lemma has_tag_flush_op n op : preserves (has_tag n) (flush_op op).
Proof.
  intros w r w' HJ H. eapply has_tag_of_extends; [exact HJ|].
  eapply txn_extends_flush_op; [apply txn_extends_start | exact H].
Qed.

Ltac has_tag_side := first [ apply has_tag_flush_op | untouched ].

Lemma has_tag_get_or_create_tag n m : preserves (has_tag n) (get_or_create_tag m).
Proof. apply preserves_get_or_create_tag; has_tag_side. Qed.

Lemma has_tag_commit n : preserves (has_tag n) commit.
Proof. apply preserves_commit; has_tag_side. Qed.

Lemma has_tag_tag_loop_body n article m : preserves (has_tag n) (tag_loop_body article m).
Proof.
  unfold tag_loop_body. preserves_structure;
    first [ apply has_tag_get_or_create_tag | apply preserves_obj_article | untouched ].
Qed.

Lemma tag_loop_body_Ok article n w w' :
  tag_loop_body article n w = (Ok tt, w') -> has_tag n w'.
Proof.
  unfold tag_loop_body. intros H.
  apply bind_Ok in H. destruct H as (g & w1 & Hg & H).
  destruct (get_or_create_tag_Ok _ _ _ _ Hg) as (_ & _ & Hin & Hn).
  assert (Ht : has_tag n w1) by (exists g; auto).
  revert H. generalize Ht.
  apply (preserves_bind (has_tag n)); [apply preserves_obj_article|]. intros a.
  preserves_structure; untouched.
Qed.

Lemma tag_loop_Ok article names : forall w w',
  for_each names (tag_loop_body article) w = (Ok tt, w') ->
  forall n, In n names -> has_tag n w'.
Proof.
  induction names as [|m names IH]; intros w w' H n Hin; [contradiction|].
  simpl in H. apply bind_Ok in H. destruct H as ([] & w1 & H1 & H2).
  destruct Hin as [<-|Hin].
  - apply tag_loop_body_Ok in H1.
    revert H2. generalize H1. apply preserves_for_each. intros x.
    apply has_tag_tag_loop_body.
  - eapply IH; eauto.
Qed.

(** ** A blog-writing run that reports success *)

Lemma write_blog_success ext fuel topic author tgs w d w' :
  write_blog ext fuel topic author tgs w = (Ok d, w') ->
  completed_successfully (Task (Ok d)) = true ->
  write_blog_body ext fuel topic author tgs w = (Ok d, w').
Proof.
  unfold write_blog, try_except. intros H Hs.
  destruct (write_blog_body ext fuel topic author tgs w) as [[d0|e|] w1]; auto.
  exfalso. destruct (is_SQLAlchemyError e);
    unfold bind, logger, rollback, modify, ret in H; inversion H; subst;
    simpl in Hs; discriminate.
Qed.

Lemma write_blog_body_Ok_tags ext fuel topic author tgs w d w' :
  write_blog_body ext fuel topic author tgs w = (Ok d, w') ->
  forall n, In n (from_opt tgs []) ->
            exists g, In g (tags (committed w')) /\ Tag.name g = Some n.
Proof.
  unfold write_blog_body. intros H n Hin.
  apply bind_Ok in H. destruct H as (result & w1 & _ & H).
  apply bind_Ok in H. destruct H as (article & w2 & _ & H).
  apply bind_Ok in H. destruct H as ([] & w3 & _ & H).
  apply bind_Ok in H. destruct H as ([] & w4 & Hloop & H).
  apply bind_Ok in H. destruct H as ([] & w5 & Hc & H).
  assert (Ht : has_tag n w4).
  { destruct tgs as [[|t ts]|]; simpl in Hin; try contradiction.
    apply (tag_loop_Ok article (t :: ts) w3 w4); [exact Hloop | exact Hin]. }
  pose proof (has_tag_commit n _ _ _ Ht Hc) as Ht5.
  destruct (commit_Ok 0 _ _ Hc) as (Hcm & _).
  assert (E : committed w' = committed w5).
  { apply bind_Ok in H. destruct H as (a & w6 & Ha & H).
    unfold obj_article in Ha.
    destruct (nth_error (heap w5) article) as [[?|?|?]|]; inversion Ha; subst.
    apply bind_Ok in H. destruct H as ([] & w7 & Hl & H).
    inversion Hl; subst. clear Hl.
    apply bind_Ok in H. destruct H as (c & w8 & Hcr & H).
    inversion H; subst.
    destruct (Article.created_at a); inversion Hcr; subst. reflexivity. }
  rewrite E, Hcm. exact Ht5.
Qed.

(* ================================================================== *)
(** * Sequences of create, update and blog-writing calls *)

Section CallSequences.

Variable ext : External.
Variable fuel : nat.

Lemma tags_inv_perform base c w r w' :
  tags_inv base w -> perform ext fuel c w = (r, w') -> tags_inv base w'.
Proof.
  intros HJ H. destruct c as [j u|j k|topic author tgs]; cbn [perform] in H.
  - destruct (ArticleList.post j u w) as [r0 w0] eqn:E. inversion H; subst.
    apply tags_inv_session_remove. eapply tags_inv_post; eauto.
  - destruct (ArticleResource.put j k w) as [r0 w0] eqn:E. inversion H; subst.
    apply tags_inv_session_remove. eapply tags_inv_put; eauto.
  - destruct (write_blog ext fuel topic author tgs w) as [r0 w0] eqn:E. inversion H; subst.
    apply tags_inv_session_remove. eapply tags_inv_write_blog; eauto.
Qed.

Lemma perform_clean c w r w' :
  perform ext fuel c w = (r, w') -> session_clean w'.
Proof.
  intros H. destruct c as [j u|j k|topic author tgs]; cbn [perform] in H;
    match type of H with
    | (let (_, _) := ?m in _) = _ => destruct m as [r0 w0]
    end; inversion H; subst; split; reflexivity.
Qed.

(** Every tag a successful call asked for has a row once the call is over. *)
Lemma perform_requested c w r w' :
  store_ok w -> session_clean w ->
  perform ext fuel c w = (r, w') ->
  completed_successfully r = true ->
  forall n, In n (requested_tags c) ->
            exists g, In g (tags (committed w')) /\ Tag.name g = Some n.
Proof.
  intros Hok Hcl H Hs n Hin.
  destruct c as [j u|j k|topic author tgs]; cbn [perform] in H; simpl in Hin.
  - rewrite post_refused in H. inversion H; subst. discriminate.
  - rewrite put_refused in H. inversion H; subst. discriminate.
  - destruct (write_blog ext fuel topic author tgs w) as [[d|e|] w0] eqn:E;
      inversion H; subst; try discriminate.
    pose proof (write_blog_success _ _ _ _ _ _ _ _ E Hs) as Hb.
    destruct (write_blog_body_Ok_tags _ _ _ _ _ _ _ _ Hb n Hin) as (g & Hg & Hname).
    exists g. simpl. auto.
Qed.

Lemma named_row_count s t g n :
  tags_ok s t -> In g (tags t) -> Tag.name g = Some n ->
  List.length (tag_rows_named n t) = 1%nat.
Proof.
  intros [_ _ H3] Hin Hn. specialize (H3 n).
  assert (Hg : In g (tag_rows_named n t)).
  { unfold tag_rows_named. apply filter_In. split; [exact Hin|].
    rewrite Hn. simpl. apply String.eqb_refl. }
  destruct (tag_rows_named n t) as [|x l]; [contradiction|]. simpl in *. lia.
Qed.

Lemma run_calls_tags cs : forall w rs w',
  store_ok w -> session_clean w ->
  run_calls ext fuel cs w = (rs, w') ->
  store_ok w' /\ session_clean w'
  /\ extends (tags (committed w)) (tags (committed w'))
  /\ forall i c r n,
       nth_error cs i = Some c -> nth_error rs i = Some r ->
       completed_successfully r = true -> In n (requested_tags c) ->
       exists g, In g (tags (committed w')) /\ Tag.name g = Some n.
Proof.
  induction cs as [|c cs IH]; intros w rs w' Hok Hcl H; simpl in H.
  - inversion H; subst. repeat split; try apply Hcl; auto using extends_refl.
    + apply Hok.
    + apply Hok.
    + apply Hok.
    + intros [|i] c r n Hc; discriminate.
  - destruct (perform ext fuel c w) as [r1 w1] eqn:E1.
    destruct (run_calls ext fuel cs w1) as [rs1 w2] eqn:E2.
    inversion H; subst rs w'. clear H.
    pose proof (tags_inv_perform _ _ _ _ _ (tags_inv_start w Hok Hcl) E1)
      as (_ & Hok1 & _ & Hext1).
    pose proof (perform_clean _ _ _ _ E1) as Hcl1.
    destruct (IH _ _ _ Hok1 Hcl1 E2) as (Hok2 & Hcl2 & Hext2 & Hreq).
    split; [exact Hok2|]. split; [exact Hcl2|]. split.
    + destruct Hext1 as [e1 X1]. destruct Hext2 as [e2 X2].
      exists (e1 ++ e2). now rewrite X2, X1, app_assoc.
    + intros [|i] c0 r0 n Hc Hr Hs Hin; simpl in Hc, Hr.
      * inversion Hc; subst c0. inversion Hr; subst r0.
        destruct (perform_requested _ _ _ _ Hok Hcl E1 Hs n Hin) as (g & Hg & Hname).
        exists g. split; [|exact Hname].
        destruct Hext2 as [e2 X2]. rewrite X2. apply in_or_app. now left.
      * eapply Hreq; eauto.
Qed.

End CallSequences.

(** C2.  A create that asks for a tag leaves no row for it.  [post]
    first builds its schema object, [ArticleSchema()]; the class is a
    pydantic model whose [title], [content] and [slug] are required, so
    the constructor raises [ValidationError] on every request and the
    world is left as it was.  On a store without tags, the request to
    create an article tagged [x] ends that way, and no Tag row called
    [x] exists afterwards. *)
Theorem create_with_tags_leaves_no_tag_row :
  (forall (j : Json) (u : Z) (w : World),
     ArticleList.post j u w = (Raise fields_required, w))
  /\ (forall (ext : External) (fuel : nat),
        let call := Create (mkJson (Some "T") (Some "c") (Some "t") None None (Some ["x"])) 1 in
        In "x" (requested_tags call)
        /\ fst (run_calls ext fuel [call] world_empty) = [Http (Raise fields_required)]
        /\ tag_rows_named "x" (committed (snd (run_calls ext fuel [call] world_empty))) = []).
Proof.
  split; [exact post_refused|].
  intros ext fuel call. split; [now left|].
  subst call. cbn [run_calls perform]. rewrite post_refused.
  split; reflexivity.
Qed.

(** X26.  Tag names stay unique.  After any sequence of create, update and
    blog-writing calls on a store with unique tag names, no two Tag rows
    share a name, and every tag name requested by a call of the sequence
    that completed successfully has exactly one Tag row. *)
Theorem tag_names_stay_unique :
  forall (ext : External) (fuel : nat) (calls : list Call)
         (w w' : World) (results : list CallResult),
    store_ok w ->
    session_clean w ->
    run_calls ext fuel calls w = (results, w') ->
    (forall n, (List.length (tag_rows_named n (committed w')) <= 1)%nat)
    /\ (forall i c r n,
          nth_error calls i = Some c ->
          nth_error results i = Some r ->
          completed_successfully r = true ->
          In n (requested_tags c) ->
          List.length (tag_rows_named n (committed w')) = 1%nat).
Proof.
  intros ext fuel calls w w' results Hok Hcl H.
  destruct (run_calls_tags ext fuel calls w results w' Hok Hcl H)
    as (Hok' & _ & _ & Hreq).
  split.
  - apply Hok'.
  - intros i c r n Hc Hr Hs Hin.
    destruct (Hreq i c r n Hc Hr Hs Hin) as (g & Hg & Hname).
    eapply named_row_count; eauto.
Qed.

Lemma tag_names_stay_unique_witness :
  exists results w',
    run_calls ext_sample 20 calls_sample world_sample = (results, w')
    /\ List.length (tag_rows_named "z" (committed w')) = 1%nat
    /\ List.length (tag_rows_named "w" (committed w')) = 1%nat.
Proof.
  eexists. eexists. split; [vm_compute; reflexivity|].
  split.
  - eapply (tag_names_stay_unique ext_sample 20 calls_sample world_sample _ _
              store_ok_world_sample (conj eq_refl eq_refl))
      with (i := 1%nat) (n := "z");
      [vm_compute; reflexivity | reflexivity | reflexivity | reflexivity | simpl; auto].
  - eapply (tag_names_stay_unique ext_sample 20 calls_sample world_sample _ _
              store_ok_world_sample (conj eq_refl eq_refl))
      with (i := 1%nat) (n := "w");
      [vm_compute; reflexivity | reflexivity | reflexivity | reflexivity | simpl; auto].
Defined.

(* ================================================================== *)
(** * [ArticleResource.delete] *)

Lemma Article_query_get_clean k w :
  pending w = [] ->
  Article_query_get k w
  = (Ok (match k with Some _ => find_article k (txn w) | None => None end),
     with_pending [] w).
Proof.
  intros Hp. unfold Article_query_get, bind. rewrite (flush_clean _ Hp). reflexivity.
Qed.

(** An article that still has association rows cannot be deleted: the
    row delete is refused and nothing is committed. *)
Lemma delete_refused_when_tagged k w a r :
  pending w = [] ->
  find_article (Some k) (txn w) = Some a ->
  In r (associations k (txn w)) ->
  exists msg w',
    ArticleResource.delete k w = (Raise (IntegrityError msg), w')
    /\ committed w' = committed w.
Proof.
  intros Hp Hf Hr.
  assert (Hid : Article.id a = Some k).
  { apply find_some in Hf. destruct Hf as (_ & Hf). now apply opt_Z_eqb_true. }
  assert (Hex : existsb (fun x => opt_Z_eqb (ArticleTag.article_id x) (Article.id a))
                        (article_tags (txn w)) = true).
  { apply existsb_exists. exists r. unfold associations in Hr.
    apply filter_In in Hr. destruct Hr as (Hin & Hk). split; [exact Hin|].
    apply col_is_true in Hk. rewrite Hk, Hid. apply opt_Z_eqb_refl. }
  unfold ArticleResource.delete, Article_query_get_or_404, bind.
  rewrite (Article_query_get_clean _ _ Hp), Hf.
  unfold ret, session_delete, modify, commit, bind, flush, bind, gets.
  cbn [pending with_pending app for_each flush_op bind].
  unfold bind, delete_article. cbn [txn with_pending].
  rewrite Hex. eexists. eexists. split; reflexivity.
Qed.

Lemma not_referenced k (a : Article.t) (l : list ArticleTag.t) :
  Article.id a = Some k ->
  filter (fun r => col_is (ArticleTag.article_id r) k) l = [] ->
  existsb (fun x => opt_Z_eqb (ArticleTag.article_id x) (Article.id a)) l = false.
Proof.
  intros Hid. rewrite Hid. induction l as [|r l IH]; simpl; [reflexivity|].
  destruct (ArticleTag.article_id r) as [z|]; simpl.
  - destruct (z =? k); simpl; [discriminate | exact IH].
  - exact IH.
Qed.

(** An article without association rows is deleted, and the delete is
    committed. *)
Lemma delete_of_untagged_article k w a :
  pending w = [] ->
  find_article (Some k) (txn w) = Some a ->
  associations k (txn w) = [] ->
  exists w',
    ArticleResource.delete k w = (Ok (mkResponse 200 "article deleted" None), w')
    /\ articles (committed w')
       = filter (fun r => negb (opt_Z_eqb (Article.id r) (Some k))) (articles (txn w)).
Proof.
  intros Hp Hf Hr.
  assert (Hid : Article.id a = Some k).
  { apply find_some in Hf. destruct Hf as (_ & Hf). now apply opt_Z_eqb_true. }
  pose proof (not_referenced k a (article_tags (txn w)) Hid Hr) as Hex.
  unfold ArticleResource.delete, Article_query_get_or_404, bind.
  rewrite (Article_query_get_clean _ _ Hp), Hf.
  unfold ret, session_delete, modify, commit, bind, flush, bind, gets.
  cbn [pending with_pending app for_each flush_op bind].
  unfold bind, delete_article. cbn [txn with_pending].
  rewrite Hex. unfold ret, modify. eexists. split; [reflexivity|].
  cbn. rewrite Hid. reflexivity.
Qed.

(** C3 fails on the code.  Deleting the sample article, which has two tag
    associations, is refused with an integrity error; the article row and
    both association rows are still there afterwards. *)
Theorem delete_of_tagged_article_is_refused :
  fst (ArticleResource.delete 1 world_sample)
  = Raise (IntegrityError
      "update or delete on table articles violates foreign key constraint on table article_tags")
  /\ committed (session_remove (snd (ArticleResource.delete 1 world_sample)))
     = tables_sample
  /\ List.length (associations 1 tables_sample) = 2%nat.
Proof. vm_compute. repeat split. Qed.

(* ================================================================== *)
(** Whenever the article exists the [try] block stops at
    [article.description]: the model has no such column. *)
Lemma embedding_body_raises_on_existing_article ext k w a :
  pending w = [] ->
  find_article (Some k) (txn w) = Some a ->
  generate_article_embedding_body ext (Some k) w
  = (Raise no_description, with_pending [] w).
Proof.
  intros Hp Hf. unfold generate_article_embedding_body, bind.
  rewrite (Article_query_get_clean _ _ Hp), Hf. reflexivity.
Qed.

(** C4 fails on the code.  For the sample article, which exists, a run of
    the task never reaches the embedding model: reading
    [article.description] raises [AttributeError], the handler asks for a
    retry, and the stored article keeps an empty [embedding]. *)
Theorem embedding_task_fails_on_existing_article :
  forall ext : External,
    let run := generate_article_embedding ext (mkMessage (Some 1) 0 0) (Some 1) world_sample in
    fst run = Raise (Retry no_description 300)
    /\ map Article.embedding (articles (committed (snd run))) = [None]
    /\ find_article (Some 1) (committed world_sample) <> None.
Proof.
  intros ext. cbv zeta. split; [|split].
  - vm_compute. reflexivity.
  - vm_compute. reflexivity.
  - vm_compute. discriminate.
Qed.

Lemma find_none_iff {A} (f : A -> bool) l :
  (forall x, In x l -> f x = false) -> find f l = None.
Proof.
  induction l as [|y l IH]; simpl; intros H; auto.
  rewrite (H y (or_introl eq_refl)). apply IH. intros x Hx. apply H. now right.
Qed.

(** C8.  When no Article row has the given id, a run of the embedding
    task returns normally; the committed tables, the transaction, the
    sequences and the object heap are as before, nothing is pending and
    no retry is put on the queue.  Only a warning is logged. *)
Theorem embedding_task_noop_on_missing_article :
  forall (ext : External) (self : Message) (k : option Z) (w : World),
    session_clean w ->
    (forall a, In a (articles (committed w)) -> Article.id a <> k) ->
    exists w',
      generate_article_embedding ext self k w = (Ok tt, w')
      /\ committed w' = committed w
      /\ txn w' = txn w
      /\ pending w' = []
      /\ queue w' = queue w
      /\ heap w' = heap w
      /\ (seq_article w', seq_tag w', seq_article_tag w')
         = (seq_article w, seq_tag w, seq_article_tag w)
      /\ log w' = log w ++ [(WARNING, "Article " +++ py_str ext (of_opt VInt k) +++ " not found")].
Proof.
  intros ext self k w (Hp & Ht) Hmiss.
  assert (Hf : match k with Some _ => find_article k (txn w) | None => None end = None).
  { destruct k as [z|]; [|reflexivity]. unfold find_article. apply find_none_iff.
    intros a Ha. rewrite Ht in Ha. specialize (Hmiss a Ha).
    destruct (opt_Z_eqb (Article.id a) (Some z)) eqn:E; [|reflexivity].
    apply opt_Z_eqb_true in E. contradiction. }
  unfold generate_article_embedding, try_except, generate_article_embedding_body, bind.
  rewrite (Article_query_get_clean _ _ Hp), Hf.
  eexists. split; [reflexivity|]. simpl. repeat split.
Qed.

Lemma embedding_task_noop_on_missing_article_witness :
  exists w',
    generate_article_embedding ext_sample (mkMessage (Some 9) 0 0) (Some 9) world_sample
    = (Ok tt, w')
    /\ committed w' = committed world_sample
    /\ queue w' = [].
Proof.
  destruct (embedding_task_noop_on_missing_article
              ext_sample (mkMessage (Some 9) 0 0) (Some 9) world_sample)
    as (w' & H & Hc & _ & _ & Hq & _).
  - split; reflexivity.
  - simpl. intros a [<-|[]]. simpl. discriminate.
  - exists w'. auto.
Defined.

(* ================================================================== *)
(** * Retries of the embedding task *)

Ltac break_flush_op H :=
  match type of H with
  | flush_op ?op ?w = _ =>
      destruct op as [?h|?a|?a]; simpl in H;
      [ destruct (nth_error (heap w) h) as [[?a|?g|?x]|];
        [ unfold insert_article in H | unfold insert_tag in H
        | unfold insert_article_tag in H | ]
      | unfold update_article in H
      | unfold delete_article in H ];
      repeat match type of H with
             | (if ?c then _ else _) = _ => destruct c
             | match ?c with _ => _ end = _ => destruct c
             end;
      inversion H; subst; clear H
  end.

Lemma queue_flush_op q op : preserves (fun w => queue w = q) (flush_op op).
Proof. intros w r w' HJ H. subst q. break_flush_op H; reflexivity. Qed.

Lemma queue_embedding_body q ext k :
  preserves (fun w => queue w = q) (generate_article_embedding_body ext k).
Proof.
  apply preserves_generate_article_embedding_body;
    first [ apply queue_flush_op | untouched ].
Qed.

(** How one run of the task ends, and what it leaves on the queue. *)
Lemma attempt_outcome ext msg k w r w1 :
  generate_article_embedding ext msg k w = (r, w1) ->
  (r = Ok tt /\ queue w1 = queue w)
  \/ (r = Diverge /\ queue w1 = queue w)
  \/ (exists e, (m_retries msg < 3)%nat /\ r = Raise (Retry e 300)
                /\ queue w1 = queue w ++ [mkMessage (m_article_id msg) (m_retries msg + 1) 300])
  \/ (exists e, (3 <= m_retries msg)%nat /\ r = Raise e /\ queue w1 = queue w).
Proof.
  unfold generate_article_embedding, try_except. intros H.
  destruct (generate_article_embedding_body ext k w) as [[[]|e|] w0] eqn:E;
    pose proof (queue_embedding_body (queue w) ext k _ _ _ eq_refl E) as Hq.
  - inversion H; subst. auto.
  - unfold bind, logger, modify, self_retry in H.
    destruct (max_retries <? m_retries msg + 1)%nat eqn:L.
    + apply Nat.ltb_lt in L. unfold max_retries in L.
      inversion H; subst. right. right. right. exists e. simpl. repeat split; auto. lia.
    + apply Nat.ltb_ge in L. unfold max_retries in L.
      unfold bind, modify, raise in H. inversion H; subst.
      right. right. left. exists e. simpl. rewrite Hq. repeat split; auto. lia.
  - inversion H; subst. auto.
Qed.

Lemma worker_step ext f msg rest w recs w' :
  queue w = msg :: rest ->
  worker ext (S f) w = (recs, w') ->
  exists r w1 recs1,
    generate_article_embedding ext msg (m_article_id msg) (with_queue rest w) = (r, w1)
    /\ worker ext f (session_remove w1) = (recs1, w')
    /\ recs = mkTaskRecord msg r :: recs1.
Proof.
  intros Hq H. simpl in H. rewrite Hq in H.
  destruct (generate_article_embedding ext msg (m_article_id msg) (with_queue rest w))
    as [r w1] eqn:E1.
  destruct (worker ext f (session_remove w1)) as [recs1 w2] eqn:E2.
  inversion H; subst. exists r, w1, recs1. auto.
Qed.

Lemma worker_idle ext f w : queue w = [] -> worker ext f w = ([], w).
Proof. intros Hq. destruct f; simpl; [|rewrite Hq]; reflexivity. Qed.

(** One failing attempt that still has retries left: the next message on
    the queue is the same call with the count advanced, due in 300. *)
Lemma failing_attempt_retries ext msg w r w1 :
  (m_retries msg < 3)%nat ->
  generate_article_embedding ext msg (m_article_id msg) (with_queue [] w) = (r, w1) ->
  is_raise r = true ->
  (exists e, r = Raise (Retry e 300))
  /\ queue (session_remove w1) = [mkMessage (m_article_id msg) (m_retries msg + 1) 300].
Proof.
  intros Hlt H Hr.
  destruct (attempt_outcome _ _ _ _ _ _ H)
    as [(-> & _) | [(-> & _) | [(e & _ & -> & Hq) | (e & Hge & _)]]];
    try discriminate; [|lia].
  split; [eauto|]. simpl. rewrite Hq. reflexivity.
Qed.

(** C6, as the code has it.  When every attempt of an embedding job
    raises, the job runs four times: the first run and three retries, each
    retry published with a delay of 300; the first three runs leave
    through [Retry], the fourth raises the error itself out of the task
    function, and nothing more is scheduled. *)
Theorem embedding_task_retries_three_times :
  forall (ext : External) (k : option Z) (fuel : nat)
         (w w' : World) (recs : list TaskRecord),
    queue w = [mkMessage k 0 0] ->
    (4 <= fuel)%nat ->
    worker ext fuel w = (recs, w') ->
    Forall (fun rec => is_raise (t_outcome rec) = true) recs ->
    map t_message recs
    = [mkMessage k 0 0; mkMessage k 1 300; mkMessage k 2 300; mkMessage k 3 300]
    /\ (exists e1 e2 e3 e4,
          map t_outcome recs
          = [Raise (Retry e1 300); Raise (Retry e2 300); Raise (Retry e3 300); Raise e4])
    /\ queue w' = [].
Proof.
  intros ext k fuel w w' recs Hq Hfuel H Hall.
  destruct fuel as [|[|[|[|f]]]]; try lia. clear Hfuel.
  (* first run *)
  destruct (worker_step _ _ _ _ _ _ _ Hq H) as (r0 & w1 & recs1 & H0 & Hw1 & ->).
  inversion Hall as [|? ? Hr0 Hall1]; subst. simpl in Hr0.
  destruct (failing_attempt_retries ext (mkMessage k 0 0) w r0 w1) as ((e1 & ->) & Hq1);
    simpl; auto.
  (* first retry *)
  destruct (worker_step _ _ _ _ _ _ _ Hq1 Hw1) as (r1 & w2 & recs2 & H1 & Hw2 & ->).
  inversion Hall1 as [|? ? Hr1 Hall2]; subst. simpl in Hr1.
  destruct (failing_attempt_retries ext (mkMessage k 1 300) (session_remove w1) r1 w2)
    as ((e2 & ->) & Hq2); simpl; auto.
  (* second retry *)
  destruct (worker_step _ _ _ _ _ _ _ Hq2 Hw2) as (r2 & w3 & recs3 & H2 & Hw3 & ->).
  inversion Hall2 as [|? ? Hr2 Hall3]; subst. simpl in Hr2.
  destruct (failing_attempt_retries ext (mkMessage k 2 300) (session_remove w2) r2 w3)
    as ((e3 & ->) & Hq3); simpl; auto.
  (* third retry: the count is exhausted *)
  destruct (worker_step _ _ _ _ _ _ _ Hq3 Hw3) as (r3 & w4 & recs4 & H3 & Hw4 & ->).
  inversion Hall3 as [|? ? Hr3 _]; subst. simpl in Hr3.
  destruct (attempt_outcome _ _ _ _ _ _ H3)
    as [(-> & _) | [(-> & _) | [(e & Hlt & _) | (e4 & _ & -> & Hq4)]]];
    try discriminate; [simpl in Hlt; lia|].
  assert (Hidle : queue (session_remove w4) = []) by (simpl; rewrite Hq4; reflexivity).
  rewrite (worker_idle _ _ _ Hidle) in Hw4. inversion Hw4; subst.
  simpl. split; [reflexivity|]. split; [|exact Hidle]. eauto.
Qed.

Lemma embedding_task_retries_three_times_witness :
  exists recs w',
    worker ext_sample 6 (with_queue [mkMessage (Some 1) 0 0] world_sample) = (recs, w')
    /\ map t_message recs
       = [mkMessage (Some 1) 0 0; mkMessage (Some 1) 1 300;
          mkMessage (Some 1) 2 300; mkMessage (Some 1) 3 300]
    /\ queue w' = [].
Proof.
  eexists. eexists. split; [vm_compute; reflexivity|].
  destruct (embedding_task_retries_three_times ext_sample (Some 1) 6
              (with_queue [mkMessage (Some 1) 0 0] world_sample) _ _
              eq_refl ltac:(lia) ltac:(vm_compute; reflexivity)) as (Hm & _ & Hq).
  - repeat constructor.
  - split; [exact Hm | exact Hq].
Defined.

(** C6 as stated fails: once the retries are used up the error is not
    kept inside the task.  On the sample article the fourth run ends by
    raising [AttributeError] out of the task function. *)
Lemma exhausted_retries_raise :
  map t_outcome
      (fst (worker ext_sample 6 (with_queue [mkMessage (Some 1) 0 0] world_sample)))
  = [Raise (Retry no_description 300); Raise (Retry no_description 300);
     Raise (Retry no_description 300); Raise no_description].
Proof. vm_compute. reflexivity. Qed.

(* ================================================================== *)
(** * [EmbeddingService.get_embeddings] *)

Section Batching.

Import EmbeddingService.

Variable ext : External.

Lemma model_embed_app a b :
  model_embed ext (a ++ b) = then_append (model_embed ext a) (model_embed ext b).
Proof.
  induction a as [|t a IH]; simpl.
  - destruct (model_embed ext b); reflexivity.
  - destruct (model_embed_one ext t); auto.
    rewrite IH. destruct (model_embed ext a); simpl; auto.
    destruct (model_embed ext b); reflexivity.
Qed.

Lemma model_embed_map (f : string -> Vector) texts :
  (forall t, In t texts -> model_embed_one ext t = Ok (f t)) ->
  model_embed ext texts = Ok (map f texts).
Proof.
  induction texts as [|t texts IH]; intros H; simpl; auto.
  rewrite (H t (or_introl eq_refl)), IH; auto.
  intros x Hx. apply H. now right.
Qed.

Lemma then_append_Ok_l acc r :
  then_append (Ok acc) r
  = match r with Ok vs => Ok (acc ++ vs) | Raise e => Raise e | Diverge => Diverge end.
Proof. reflexivity. Qed.

(** The batching loop started at offset [i] with [acc] collected so far
    embeds what is left of the list, in order. *)
Lemma embed_batches_from texts b fuel : forall i acc,
  0 < b -> 0 <= i ->
  Z.of_nat (List.length texts) - i <= Z.of_nat fuel ->
  embed_batches ext texts b (range_from fuel i (Z.of_nat (List.length texts)) b) acc
  = then_append (Ok acc) (model_embed ext (skipn (Z.to_nat i) texts)).
Proof.
  induction fuel as [|fuel IH]; intros i acc Hb Hi Hfuel.
  - simpl range_from. simpl embed_batches.
    rewrite skipn_all2 by lia. simpl. now rewrite app_nil_r.
  - simpl range_from. destruct (i <? Z.of_nat (List.length texts)) eqn:L.
    + apply Z.ltb_lt in L. simpl embed_batches. unfold slice.
      replace (i + b - i) with b by lia.
      assert (Esplit : skipn (Z.to_nat i) texts
                       = firstn (Z.to_nat b) (skipn (Z.to_nat i) texts)
                         ++ skipn (Z.to_nat (i + b)) texts).
      { rewrite <- (firstn_skipn (Z.to_nat b) (skipn (Z.to_nat i) texts)) at 1.
        f_equal. rewrite skipn_skipn. f_equal. lia. }
      rewrite Esplit at 2. rewrite model_embed_app.
      destruct (model_embed ext (firstn (Z.to_nat b) (skipn (Z.to_nat i) texts)))
        as [vb|e|]; simpl; auto.
      rewrite IH by lia. simpl.
      destruct (model_embed ext (skipn (Z.to_nat (i + b)) texts)); simpl; auto.
      now rewrite app_assoc.
    + apply Z.ltb_ge in L. simpl embed_batches.
      rewrite skipn_all2 by lia. simpl. now rewrite app_nil_r.
Qed.

Lemma embed_batches_all texts b :
  0 < b ->
  embed_batches ext texts b (range0 (Z.of_nat (List.length texts)) b) []
  = model_embed ext texts.
Proof.
  intros Hb. unfold range0.
  assert (L : (0 <? b) = true) by now apply Z.ltb_lt.
  rewrite L, embed_batches_from by lia.
  simpl. destruct (model_embed ext texts); reflexivity.
Qed.

(** With a positive batch size the call behaves as without one. *)
Lemma get_embeddings_batch_irrelevant texts b :
  0 < b -> get_embeddings ext texts (Some b) = get_embeddings ext texts None.
Proof.
  intros Hb. unfold get_embeddings. destruct texts as [|t texts]; auto.
  destruct (negb (forallb _ _)); auto.
  assert (L : (b =? 0) = false) by (apply Z.eqb_neq; lia).
  rewrite L. simpl negb. cbv iota. now rewrite embed_batches_all.
Qed.

End Batching.

(** C9, as the code has it.  For a positive batch size:
    the batched call returns what the unbatched call returns, on every
    list; on a non-empty list of texts that each contain a non-space
    character it returns the per-text embeddings in input order; and it
    fails with [ValueError] when some text is empty or consists of white
    space only. *)
Theorem get_embeddings_batched :
  forall (ext : External) (texts : list string) (b : Z),
    0 < b ->
    EmbeddingService.get_embeddings ext texts (Some b)
    = EmbeddingService.get_embeddings ext texts None
    /\ (forall f : string -> Vector,
          texts <> [] ->
          (forall t, In t texts -> truthy (strip t) = true) ->
          (forall t, In t texts -> model_embed_one ext t = Ok (f t)) ->
          EmbeddingService.get_embeddings ext texts (Some b) = Ok (map f texts))
    /\ ((exists t, In t texts /\ truthy (strip t) = false) ->
        EmbeddingService.get_embeddings ext texts (Some b)
        = Raise (ValueError "All inputs must be non-empty strings")).
Proof.
  intros ext texts b Hb. split; [now apply get_embeddings_batch_irrelevant|]. split.
  - intros f Hne Hvalid Hemb.
    rewrite get_embeddings_batch_irrelevant by exact Hb.
    unfold EmbeddingService.get_embeddings.
    destruct texts as [|t texts]; [contradiction|].
    assert (Hall : forallb (fun t => truthy (strip t)) (t :: texts) = true)
      by (apply forallb_forall; exact Hvalid).
    rewrite Hall. simpl negb. cbv iota.
    now rewrite (model_embed_map ext f (t :: texts) Hemb).
  - intros (t & Hin & Hbad).
    unfold EmbeddingService.get_embeddings.
    destruct texts as [|t0 texts]; [contradiction|].
    assert (Hall : forallb (fun t => truthy (strip t)) (t0 :: texts) = false).
    { destruct (forallb _ (t0 :: texts)) eqn:E; [|reflexivity].
      rewrite forallb_forall in E. rewrite (E t Hin) in Hbad. discriminate. }
    rewrite Hall. reflexivity.
Qed.

Lemma get_embeddings_batched_witness :
  EmbeddingService.get_embeddings ext_sample ["a"; "b"; "c"] (Some 2)
  = EmbeddingService.get_embeddings ext_sample ["a"; "b"; "c"] None
  /\ EmbeddingService.get_embeddings ext_sample ["a"; "b"; "c"] (Some 2)
     = Ok [[Float64 0]; [Float64 0]; [Float64 0]]
  /\ EmbeddingService.get_embeddings ext_sample ["a"; ""; "c"] (Some 2)
     = Raise (ValueError "All inputs must be non-empty strings").
Proof.
  destruct (get_embeddings_batched ext_sample ["a"; "b"; "c"] 2 eq_refl) as (H1 & H2 & _).
  destruct (get_embeddings_batched ext_sample ["a"; ""; "c"] 2 eq_refl) as (_ & _ & H3).
  split; [exact H1|]. split.
  - apply (H2 (fun _ => [Float64 0])).
    + discriminate.
    + intros t [<-|[<-|[<-|[]]]]; reflexivity.
    + intros t _. reflexivity.
  - apply H3. exists "". split; [simpl; auto | reflexivity].
Defined.

(** C9 as stated fails on a text that is not empty but holds white space
    only: the call is refused instead of returning an embedding. *)
Lemma whitespace_text_is_refused :
  (forall t, In t [" "] -> t <> "")
  /\ EmbeddingService.get_embeddings ext_sample [" "] (Some 1)
     = Raise (ValueError "All inputs must be non-empty strings").
Proof.
  split.
  - intros t [<-|[]]. discriminate.
  - vm_compute. reflexivity.
Qed.

(* ================================================================== *)
(** * The section-writing loop of the workflow *)

Section SectionLoop.

Variable ext : External.

Local Abbreviation g := (BlogWriterAgent.create_workflow ext).

Lemma run_from_write_section f s :
  run_from g (S f) "write_section" s
  = match BlogWriterAgent.write_section ext s with
    | Ok s' =>
        let (visited, r) := run_from g f "should_continue" s' in
        ("write_section" :: visited, r)
    | Raise e => (["write_section"], Raise e)
    | Diverge => (["write_section"], Diverge)
    end.
Proof. reflexivity. Qed.

Lemma run_from_should_continue f s :
  run_from g (S f) "should_continue" s
  = let (visited, r) :=
      run_from g f
        (match current_section s with
         | None => if truthy (draft s) then "analyze_content" else "write_section"
         | Some _ => "write_section"
         end) s in
    ("should_continue" :: visited, r).
Proof.
  cbn [run_from]. change (String.eqb "should_continue" END) with false. cbv iota.
  change (assoc "should_continue" (nodes g)) with (@None (BlogState -> Res BlogState)).
  cbv iota. unfold next_node.
  change (assoc "should_continue" (conditional_edges g))
    with (Some (BlogWriterAgent.should_continue,
                [("continue_writing", "write_section"); ("analyze", "analyze_content")])).
  cbv iota beta. unfold BlogWriterAgent.should_continue.
  destruct (current_section s); [reflexivity|].
  destruct (truthy (draft s)); reflexivity.
Qed.

(** [write_section] on a state whose pointer names [cur], found first at
    position [i] of the outline. *)
Lemma write_section_at s cur i :
  current_section s = Some cur -> truthy cur = true ->
  index cur (outline s) = Some i ->
  BlogWriterAgent.write_section ext s
  = match llm_invoke ext (section_prompt s cur) with
    | Ok response => Ok (after_section s cur response (nth_error (outline s) (i + 1)))
    | Raise e => Raise e
    | Diverge => Diverge
    end.
Proof.
  intros Hc Ht Hi. unfold BlogWriterAgent.write_section. rewrite Hc, Ht.
  cbn [topic research_data set_current_section].
  change (llm_invoke ext _) with (llm_invoke ext (section_prompt s cur)).
  destruct (llm_invoke ext (section_prompt s cur)) as [response|e|]; auto.
  unfold after_section, section_text.
  cbn [outline set_draft set_current_section draft].
  assert (Hout : forall b : bool,
             outline (if b then set_draft (draft s +++ nl +++ nl) (set_current_section (Some cur) s)
                      else set_current_section (Some cur) s) = outline s)
    by (intros []; reflexivity).
  destruct (truthy (draft s)); cbn [outline set_draft set_current_section draft];
    rewrite Hi;
    destruct (nth_error (outline s) (i + 1)) as [nx|] eqn:En.
  - assert (L : (i + 1 <? List.length (outline s))%nat = true).
    { apply Nat.ltb_lt. apply nth_error_Some. rewrite En. discriminate. }
    rewrite L. reflexivity.
  - assert (L : (i + 1 <? List.length (outline s))%nat = false).
    { apply Nat.ltb_ge. now apply nth_error_None. }
    rewrite L. reflexivity.
  - assert (L : (i + 1 <? List.length (outline s))%nat = true).
    { apply Nat.ltb_lt. apply nth_error_Some. rewrite En. discriminate. }
    rewrite L. reflexivity.
  - assert (L : (i + 1 <? List.length (outline s))%nat = false).
    { apply Nat.ltb_ge. now apply nth_error_None. }
    rewrite L. reflexivity.
Qed.

(** On entry the pointer is empty and the first outline entry is taken. *)
Lemma write_section_first s cur rest :
  current_section s = None -> outline s = cur :: rest ->
  BlogWriterAgent.write_section ext s
  = BlogWriterAgent.write_section ext (set_current_section (Some cur) s).
Proof.
  intros Hc Ho. unfold BlogWriterAgent.write_section.
  cbn [outline current_section set_current_section].
  rewrite Hc, Ho.
  destruct (truthy cur) eqn:T; reflexivity.
Qed.

Lemma run_from_write_section_first f s cur rest :
  current_section s = None -> outline s = cur :: rest ->
  run_from g f "write_section" s
  = run_from g f "write_section" (set_current_section (Some cur) s).
Proof.
  intros Hc Ho. destruct f as [|f]; [reflexivity|].
  rewrite !run_from_write_section. now rewrite (write_section_first s cur rest Hc Ho).
Qed.

(** ** An outline that names a section twice

    With the outline [Intro; Body; Intro] the pointer goes from [Intro]
    to [Body] and, looked up by value, from the second [Intro] back to
    [Body]: the loop is left only by a failure of the language model. *)

Lemma repeated_outline_cycles f : forall s cur,
  outline s = repeated_outline ->
  current_section s = Some cur ->
  cur = "Intro" \/ cur = "Body" ->
  stuck ext (snd (run_from g f "write_section" s))
  /\ stuck ext (snd (run_from g f "should_continue" s)).
Proof.
  induction f as [|f IH]; intros s cur Ho Hc Hcur; [split; exact I|].
  split.
  - rewrite run_from_write_section.
    assert (Hstep : exists i nx,
               index cur (outline s) = Some i /\ truthy cur = true
               /\ nth_error (outline s) (i + 1) = Some nx
               /\ (nx = "Intro" \/ nx = "Body")).
    { rewrite Ho. destruct Hcur as [->| ->].
      - exists 0%nat, "Body". repeat split; auto.
      - exists 1%nat, "Intro". repeat split; auto. }
    destruct Hstep as (i & nx & Hi & Ht & Hn & Hnx).
    rewrite (write_section_at s cur i Hc Ht Hi), Hn.
    destruct (llm_invoke ext (section_prompt s cur)) as [response|e|] eqn:L.
    + destruct (IH (after_section s cur response (Some nx)) nx Ho eq_refl Hnx) as (_ & H2).
      destruct (run_from g f "should_continue" _) as [visited r]. exact H2.
    + simpl. eauto.
    + exact I.
  - rewrite run_from_should_continue, Hc.
    destruct (IH s cur Ho Hc Hcur) as (H1 & _).
    destruct (run_from g f "write_section" s) as [visited r]. exact H1.
Qed.

Lemma repeated_outline_stuck f topic research :
  stuck ext (snd (run_from g f "write_section" (outlined topic research repeated_outline))).
Proof.
  rewrite (run_from_write_section_first f _ "Intro" ["Body"; "Intro"]) by reflexivity.
  eapply repeated_outline_cycles; [reflexivity | reflexivity | now left].
Qed.

End SectionLoop.

Lemma run_from_research ext f s :
  run_from (BlogWriterAgent.create_workflow ext) (S f) "research" s
  = match BlogWriterAgent.research_topic ext s with
    | Ok s' =>
        let (visited, r) :=
          run_from (BlogWriterAgent.create_workflow ext) f "create_outline" s' in
        ("research" :: visited, r)
    | Raise e => (["research"], Raise e)
    | Diverge => (["research"], Diverge)
    end.
Proof. reflexivity. Qed.

Lemma run_from_create_outline ext f s :
  run_from (BlogWriterAgent.create_workflow ext) (S f) "create_outline" s
  = match BlogWriterAgent.create_outline ext s with
    | Ok s' =>
        let (visited, r) :=
          run_from (BlogWriterAgent.create_workflow ext) f "write_section" s' in
        ("create_outline" :: visited, r)
    | Raise e => (["create_outline"], Raise e)
    | Diverge => (["create_outline"], Diverge)
    end.
Proof. reflexivity. Qed.

Lemma run_ext_repeating f topic :
  run (BlogWriterAgent.create_workflow ext_repeating) (S (S f))
      (set_topic topic BlogState_init)
  = let (visited, r) :=
      run_from (BlogWriterAgent.create_workflow ext_repeating) f "write_section"
        (outlined topic [mkSearchResult "Rocq" "A proof assistant."]
                  ["Intro"; "Body"; "Intro"]) in
    ("research" :: "create_outline" :: visited, r).
Proof.
  change (run (BlogWriterAgent.create_workflow ext_repeating) (S (S f))
              (set_topic topic BlogState_init))
    with (run_from (BlogWriterAgent.create_workflow ext_repeating) (S (S f)) "research"
            (set_topic topic BlogState_init)).
  rewrite run_from_research.
  change (BlogWriterAgent.research_topic ext_repeating (set_topic topic BlogState_init))
    with (Ok (set_research_data [mkSearchResult "Rocq" "A proof assistant."]
                (set_topic topic BlogState_init))).
  cbv iota. rewrite run_from_create_outline.
  change (BlogWriterAgent.create_outline ext_repeating
            (set_research_data [mkSearchResult "Rocq" "A proof assistant."]
               (set_topic topic BlogState_init)))
    with (Ok (outlined topic [mkSearchResult "Rocq" "A proof assistant."]
                       ["Intro"; "Body"; "Intro"])).
  cbv iota.
  destruct (run_from _ f "write_section" _) as [visited r]. reflexivity.
Qed.

Lemma run_ext_repeating_diverges fuel topic :
  snd (run (BlogWriterAgent.create_workflow ext_repeating) fuel
         (set_topic topic BlogState_init)) = Diverge.
Proof.
  destruct fuel as [|[|f]]; [reflexivity | reflexivity |].
  rewrite run_ext_repeating.
  pose proof (repeated_outline_stuck ext_repeating f topic
                [mkSearchResult "Rocq" "A proof assistant."]) as H.
  destruct (run_from _ f "write_section" _) as [visited [s|e|]]; simpl in *.
  - contradiction.
  - destruct H as (prompt & H). discriminate.
  - reflexivity.
Qed.

(** C5 fails on the code.  When the outline names a section twice, here
    [Intro; Body; Intro], the section loop is never left normally,
    whatever the services answer and however many steps it is given; and
    with a language model that answers every prompt with these three
    lines, neither the workflow nor the blog-writing task comes back. *)
Theorem section_loop_repeats_on_repeated_entry :
  (forall (ext : External) (fuel : nat) (topic : string) (research : list SearchResult),
     is_ok (snd (run_from (BlogWriterAgent.create_workflow ext) fuel "write_section"
                   (outlined topic research ["Intro"; "Body"; "Intro"]))) = false)
  /\ (forall (fuel : nat) (topic : string),
        snd (run (BlogWriterAgent.create_workflow ext_repeating) fuel
               (set_topic topic BlogState_init)) = Diverge)
  /\ (forall (fuel : nat) (topic : string) (author : Z) (tgs : option (list string))
             (w : World),
        fst (write_blog ext_repeating fuel topic author tgs w) = Diverge).
Proof.
  split; [|split].
  - intros ext fuel topic research.
    pose proof (repeated_outline_stuck ext fuel topic research) as H.
    destruct (snd (run_from _ fuel "write_section" _));
      [contradiction | reflexivity | reflexivity].
  - apply run_ext_repeating_diverges.
  - intros fuel topic author tgs w.
    unfold write_blog, try_except, write_blog_body, bind, lift.
    now rewrite run_ext_repeating_diverges.
Qed.

(* ================================================================== *)
(** * [write_blog]: the article row of a run *)

Section NewArticle.

Variable h : nat.
Variable A : list Article.t.

Lemma inserted_flush_op a h' w w1 :
  (h < h')%nat ->
  inserted h a A w ->
  flush_op (PInsert h') w = (Ok tt, w1) ->
  inserted h a A w1.
Proof.
  intros Hlt [Ho Hr Hl] H. simpl in H.
  destruct (nth_error (heap w) h') as [[x|g|x]|] eqn:E.
  - apply Hl in E; [discriminate | exact Hlt].
  - unfold insert_tag in H.
    repeat match type of H with
           | (if ?c then _ else _) = _ => destruct c
           | match ?c with _ => _ end = _ => destruct c
           end; inversion H; subst; clear H;
      (split; cbn [heap txn articles with_heap with_seq_tag with_txn with_tags];
       [ rewrite nth_error_list_set_other by lia; exact Ho
       | exact Hr
       | intros k o Hk Hn;
         destruct (Nat.eq_dec h' k) as [<-|Hne];
         [ rewrite (nth_error_list_set_same _ _ _ _ E) in Hn; inversion Hn; reflexivity
         | rewrite nth_error_list_set_other in Hn by exact Hne; eapply Hl; eauto ] ]).
  - unfold insert_article_tag in H.
    repeat match type of H with
           | (if ?c then _ else _) = _ => destruct c
           | match ?c with _ => _ end = _ => destruct c
           end; inversion H; subst; clear H.
    split; cbn [heap txn articles with_heap with_seq_article_tag with_txn with_article_tags].
    + rewrite nth_error_list_set_other by lia. exact Ho.
    + exact Hr.
    + intros k o Hk Hn.
      destruct (Nat.eq_dec h' k) as [<-|Hne].
      * rewrite (nth_error_list_set_same _ _ _ _ E) in Hn. inversion Hn. reflexivity.
      * rewrite nth_error_list_set_other in Hn by exact Hne. eapply Hl; eauto.
  - discriminate.
Qed.

Lemma inserted_flush_ops a ops : forall w w1,
  Forall (fun op => exists h', op = PInsert h' /\ (h < h')%nat) ops ->
  inserted h a A w ->
  for_each ops flush_op w = (Ok tt, w1) ->
  inserted h a A w1.
Proof.
  induction ops as [|op ops IH]; intros w w1 Hops Hi H; simpl in H.
  - inversion H; subst. exact Hi.
  - inversion Hops as [|? ? (h' & -> & Hlt) Hops']; subst.
    apply bind_Ok in H. destruct H as ([] & w0 & H0 & H).
    apply (IH w0 w1 Hops'); [|exact H]. eapply inserted_flush_op; eauto.
Qed.

Lemma inserted_frame a w w' :
  inserted h a A w -> heap w' = heap w -> articles (txn w') = articles (txn w) ->
  inserted h a A w'.
Proof. intros [Ho Hr Hl] Eh Et. split; rewrite ?Eh, ?Et; auto. Qed.

Lemma inserted_flush a w w1 :
  inserted h a A w -> pending_after h w ->
  flush w = (Ok tt, w1) ->
  inserted h a A w1 /\ pending w1 = [].
Proof.
  intros Hi Hp H. apply flush_Ok in H. destruct H as (w0 & H & ->).
  split; [|reflexivity].
  eapply inserted_frame; [eapply inserted_flush_ops; eauto | reflexivity | reflexivity].
Qed.

Lemma to_insert_flush a0 w w1 :
  to_insert h a0 A w ->
  flush w = (Ok tt, w1) ->
  exists a, row_of a0 a /\ inserted h a A w1 /\ pending w1 = [].
Proof.
  intros [Ho Hlast Hp Hr] H. apply flush_Ok in H. destruct H as (w0 & H & ->).
  rewrite Hp in H. simpl in H. apply bind_Ok in H. destruct H as ([] & w2 & H & Hret).
  inversion Hret; subst w0. clear Hret.
  rewrite Ho in H. unfold insert_article in H.
  destruct (too_long _ || too_long _); [discriminate|].
  destruct (Article.author_id a0) as [u|] eqn:Eu; [|discriminate].
  destruct (negb _); [discriminate|].
  destruct (existsb _ _); [discriminate|].
  inversion H; subst w2. clear H.
  exists (Article.with_updated_at (or_default (Article.updated_at a0) (clock w))
            (Article.with_created_at (or_default (Article.created_at a0) (clock w))
               (Article.with_id (Some (seq_article w)) a0))).
  split; [|split; [|reflexivity]].
  - unfold row_of. cbn. rewrite Eu.
    repeat split; auto.
    + eexists; reflexivity.
    + unfold or_default. destruct (Article.created_at a0); eexists; reflexivity.
  - split; cbn [heap txn articles with_pending with_heap with_seq_article with_txn with_articles].
    + eapply nth_error_list_set_same; eauto.
    + rewrite Hr. reflexivity.
    + intros k o Hk Hn. exfalso.
      rewrite nth_error_list_set_other in Hn by lia.
      assert (k < List.length (heap w))%nat by (apply nth_error_Some; rewrite Hn; discriminate).
      lia.
Qed.

Lemma ready_flush a0 w w1 :
  ready h A a0 w -> flush w = (Ok tt, w1) ->
  exists a, row_of a0 a /\ inserted h a A w1 /\ pending w1 = [].
Proof.
  intros [Ht | (a & Hrow & Hi & Hp)] H.
  - eapply to_insert_flush; eauto.
  - exists a. split; [exact Hrow|]. eapply inserted_flush; eauto.
Qed.

Lemma inserted_lt a w : inserted h a A w -> (h < List.length (heap w))%nat.
Proof. intros [Ho _ _]. apply nth_error_Some. rewrite Ho. discriminate. Qed.

Lemma inserted_new_obj a o w :
  inserted h a A w -> is_article o = false ->
  inserted h a A (with_heap (heap w ++ [o]) w).
Proof.
  intros Hi Hno. pose proof (inserted_lt _ _ Hi) as Hlt. destruct Hi as [Ho Hr Hl].
  split; cbn [heap txn with_heap].
  - rewrite nth_error_app1 by exact Hlt. exact Ho.
  - exact Hr.
  - intros k x Hk Hn.
    destruct (Nat.lt_ge_cases k (List.length (heap w))) as [L|L].
    + rewrite nth_error_app1 in Hn by exact L. eapply Hl; eauto.
    + rewrite nth_error_app2 in Hn by exact L.
      destruct (k - List.length (heap w))%nat as [|m]; simpl in Hn.
      * inversion Hn; subst. exact Hno.
      * destruct m; discriminate.
Qed.

Lemma ready_get_or_create_tag a0 n w g w1 :
  ready h A a0 w -> get_or_create_tag n w = (Ok g, w1) ->
  exists a, row_of a0 a /\ inserted h a A w1 /\ pending w1 = [].
Proof.
  unfold get_or_create_tag. intros Hr H.
  apply bind_Ok in H. destruct H as (found & wa & Hq & H).
  unfold Tag_query_filter_by_name_first in Hq.
  apply bind_Ok in Hq. destruct Hq as ([] & wf & Hf & Hq).
  inversion Hq; subst wa found. clear Hq.
  destruct (ready_flush _ _ _ Hr Hf) as (a & Hrow & Hi & Hp).
  exists a. split; [exact Hrow|].
  destruct (find _ (tags (txn wf))) as [g0|].
  - inversion H; subst. auto.
  - apply bind_Ok in H. destruct H as (h' & wb & Hn & H).
    inversion Hn; subst h' wb. clear Hn.
    apply bind_Ok in H. destruct H as ([] & wc & Ha & H).
    inversion Ha; subst wc. clear Ha.
    apply bind_Ok in H. destruct H as ([] & wd & Hfl & H).
    assert (Hw : w1 = wd).
    { unfold obj_tag in H. destruct (nth_error (heap wd) _) as [[?|?|?]|]; inversion H; auto. }
    subst w1. eapply inserted_flush; [| |exact Hfl].
    + eapply inserted_frame; [apply (inserted_new_obj a (OTag (Tag.mk None (Some n))) wf Hi)
                             | reflexivity | reflexivity].
      reflexivity.
    + unfold pending_after. cbn [pending with_pending with_heap]. rewrite Hp.
      constructor; [|constructor]. eexists. split; [reflexivity|].
      now apply (inserted_lt a).
Qed.

Lemma ready_tag_loop_body a0 n w w1 :
  ready h A a0 w -> tag_loop_body h n w = (Ok tt, w1) -> ready h A a0 w1.
Proof.
  unfold tag_loop_body. intros Hr H.
  apply bind_Ok in H. destruct H as (g & wa & Hg & H).
  destruct (ready_get_or_create_tag _ _ _ _ _ Hr Hg) as (a & Hrow & Hi & Hp).
  apply bind_Ok in H. destruct H as (a' & wb & Ho & H).
  assert (Hw : wb = wa).
  { unfold obj_article in Ho. destruct (nth_error (heap wa) h) as [[?|?|?]|]; inversion Ho; auto. }
  subst wb.
  apply bind_Ok in H. destruct H as (h' & wc & Hn & H).
  inversion Hn; subst h' wc. clear Hn.
  inversion H; subst w1. clear H.
  right. exists a. split; [exact Hrow|]. split.
  - eapply inserted_frame;
      [apply (inserted_new_obj a
                (OArticleTag (ArticleTag.mk None (Article.id a') (Tag.id g))) wa Hi)
      | reflexivity | reflexivity].
    reflexivity.
  - unfold pending_after. cbn [pending with_pending with_heap]. rewrite Hp.
    constructor; [|constructor]. eexists. split; [reflexivity|].
    now apply (inserted_lt a).
Qed.

Lemma ready_tag_loop a0 names : forall w w1,
  ready h A a0 w -> for_each names (tag_loop_body h) w = (Ok tt, w1) -> ready h A a0 w1.
Proof.
  induction names as [|n names IH]; intros w w1 Hr H; simpl in H.
  - inversion H; subst. exact Hr.
  - apply bind_Ok in H. destruct H as ([] & w0 & H0 & H).
    eapply IH; [|exact H]. eapply ready_tag_loop_body; eauto.
Qed.

Lemma ready_commit a0 w w1 :
  ready h A a0 w -> commit w = (Ok tt, w1) ->
  exists a, row_of a0 a /\ inserted h a A w1 /\ committed w1 = txn w1.
Proof.
  unfold commit. intros Hr H.
  apply bind_Ok in H. destruct H as ([] & wf & Hf & H).
  inversion H; subst w1. clear H.
  destruct (ready_flush _ _ _ Hr Hf) as (a & Hrow & Hi & Hp).
  exists a. split; [exact Hrow|]. split; [|reflexivity].
  eapply inserted_frame; eauto.
Qed.

End NewArticle.

(* ================================================================== *)
(** * [write_blog]: how a run ends *)

Lemma committed_flush_op C op : preserves (fun w => committed w = C) (flush_op op).
Proof. intros w r w' HJ H. subst C. break_flush_op H; reflexivity. Qed.

Lemma committed_flush C : preserves (fun w => committed w = C) flush.
Proof. apply preserves_flush; first [apply committed_flush_op | untouched]. Qed.

Lemma committed_tag_loop C h names :
  preserves (fun w => committed w = C) (for_each names (tag_loop_body h)).
Proof.
  apply preserves_for_each. intros n. unfold tag_loop_body. preserves_structure.
  - apply preserves_get_or_create_tag; first [apply committed_flush_op | untouched].
  - apply preserves_obj_article.
  - untouched.
  - untouched.
Qed.

Lemma commit_outcome w r w1 :
  commit w = (r, w1) ->
  (r = Ok tt /\ committed w1 = txn w1) \/ (r <> Ok tt /\ committed w1 = committed w).
Proof.
  unfold commit. intros H.
  destruct (bind_cases _ _ _ _ _ H) as [([] & wf & Hf & Hm) | [(e & Hf & ->) | (Hf & ->)]].
  - inversion Hm; subst. left. auto.
  - right. split; [discriminate|]. eapply (committed_flush (committed w)); eauto.
  - right. split; [discriminate|]. eapply (committed_flush (committed w)); eauto.
Qed.

Section Outcome.

Variable ext : External.
Variable fuel : nat.
Variables (topic : string) (author : Z) (tgs : option (list string)).

(** A run of the [try] block either returns the success record of a row
    it has just committed, the only new row of [articles], or it ends
    otherwise and has committed nothing. *)
Lemma write_blog_body_outcome w r w1 :
  pending w = [] ->
  write_blog_body ext fuel topic author tgs w = (r, w1) ->
  (exists result a d,
      snd (run (BlogWriterAgent.create_workflow ext) fuel
             (set_topic topic BlogState_init)) = Ok result
      /\ row_of (new_article (slugify ext topic) topic (draft result) author) a
      /\ Article.created_at a = Some d
      /\ articles (committed w1) = articles (txn w) ++ [a]
      /\ r = Ok (success_record ext a d result))
  \/ (is_ok r = false /\ committed w1 = committed w).
Proof.
  intros Hp H. unfold write_blog_body in H.
  destruct (bind_cases _ _ _ _ _ H) as [(result & wa & H1 & H2) | [(e & H1 & ->) | (H1 & ->)]];
    clear H; try (right; split; [reflexivity | inversion H1; reflexivity]).
  unfold lift in H1. inversion H1 as [[Hrun Hw]]. subst wa. clear H1.
  apply bind_cases in H2.
  destruct H2 as [(h & wb & H1 & H2) | [(e & H1 & ->) | (H1 & ->)]]; try discriminate.
  inversion H1; subst h wb. clear H1.
  apply bind_cases in H2.
  destruct H2 as [([] & wc & H1 & H2) | [(e & H1 & ->) | (H1 & ->)]]; try discriminate.
  inversion H1; subst wc. clear H1.
  set (h := List.length (heap w)) in *.
  set (a0 := new_article (slugify ext topic) topic (draft result) author).
  set (w3 := with_pending _ _) in H2.
  assert (Hready : ready h (articles (txn w)) a0 w3).
  { left. split; subst w3; cbn [heap pending txn with_pending with_heap].
    - apply nth_error_snoc.
    - rewrite length_app. simpl. lia.
    - rewrite Hp. reflexivity.
    - reflexivity. }
  assert (Hc3 : committed w3 = committed w) by reflexivity.
  apply bind_cases in H2.
  destruct H2 as [([] & w4 & Hloop & H2) | [(e & Hloop & ->) | (Hloop & ->)]].
  2, 3: right; split; [reflexivity|];
        destruct tgs as [[|t ts]|];
        try (inversion Hloop; subst; exact Hc3);
        apply (committed_tag_loop (committed w) h (t :: ts) _ _ _ Hc3 Hloop).
  assert (Hready4 : ready h (articles (txn w)) a0 w4 /\ committed w4 = committed w).
  { destruct tgs as [[|t ts]|]; try (inversion Hloop; subst; auto).
    split.
    - apply (ready_tag_loop h _ a0 (t :: ts) w3 w4 Hready Hloop).
    - apply (committed_tag_loop (committed w) h (t :: ts) _ _ _ Hc3 Hloop). }
  destruct Hready4 as (Hready4 & Hc4). clear Hloop.
  apply bind_cases in H2.
  destruct H2 as [([] & w5 & Hcommit & H2) | [(e & Hcommit & ->) | (Hcommit & ->)]].
  2, 3: right; split; [reflexivity|];
        destruct (commit_outcome _ _ _ Hcommit) as [(Hx & _) | (_ & Hx)];
        [discriminate | congruence].
  destruct (ready_commit h _ a0 _ _ Hready4 Hcommit) as (a & Hrow & Hins & Hcm).
  left.
  pose proof Hrow as (_ & _ & _ & _ & _ & _ & (d & Hd)).
  exists result, a, d.
  destruct Hins as [Hobj Hrows _].
  unfold bind, obj_article, logger, modify, ret in H2. rewrite Hobj, Hd in H2.
  inversion H2; subst r w1. clear H2.
  cbn [committed with_log]. rewrite Hcm, Hrows.
  split; [exact Hrun|]. split; [exact Hrow|]. split; [exact Hd|].
  split; reflexivity.
Qed.

End Outcome.

(** C10.  A blog-writing run that reports success has added exactly one
    row to [articles], and that row is a draft: [is_draft] is true
    whatever the topic, the author, the tags and the text the pipeline
    produced.  The row carries the topic as title and the given author. *)
Theorem write_blog_persists_a_draft :
  forall (ext : External) (fuel : nat) (topic : string) (author : Z)
         (tgs : option (list string)) (w w' : World) (d : list (string * PyVal)),
    session_clean w ->
    write_blog ext fuel topic author tgs w = (Ok d, w') ->
    completed_successfully (Task (Ok d)) = true ->
    exists a,
      articles (committed w') = articles (committed w) ++ [a]
      /\ Article.is_draft a = true
      /\ Article.title a = topic
      /\ Article.author_id a = Some author.
Proof.
  intros ext fuel topic author tgs w w' d (Hp & Ht) H Hs.
  apply write_blog_success in H; [|exact Hs].
  destruct (write_blog_body_outcome ext fuel topic author tgs w _ _ Hp H)
    as [(result & a & dt & _ & Hrow & _ & Hrows & _) | (Hno & _)]; [|discriminate].
  destruct Hrow as (Htitle & _ & _ & Hauthor & Hdraft & _).
  exists a. rewrite <- Ht. auto.
Qed.

Lemma write_blog_persists_a_draft_witness :
  exists d w' a,
    write_blog ext_sample 20 "Proofs" 1 (Some ["x"; "new"]) world_sample = (Ok d, w')
    /\ articles (committed w') = articles (committed world_sample) ++ [a]
    /\ Article.is_draft a = true.
Proof.
  destruct (write_blog ext_sample 20 "Proofs" 1 (Some ["x"; "new"]) world_sample)
    as [[d| |] w'] eqn:E; try (vm_compute in E; discriminate).
  destruct (write_blog_persists_a_draft ext_sample 20 "Proofs" 1 (Some ["x"; "new"])
              world_sample w' d (conj eq_refl eq_refl) E) as (a & Hrows & Hdraft & _).
  - vm_compute in E. inversion E. reflexivity.
  - exists d, w', a. auto.
Defined.

(** C7.  The blog-writing task never lets an exception out.  When its
    [try] block raises, whether a database error or any other, the task
    returns the ["error"] record with the matching category, the session
    is rolled back, and nothing of the run has been committed. *)
Theorem write_blog_reports_failure :
  forall (ext : External) (fuel : nat) (topic : string) (author : Z)
         (tgs : option (list string)) (w : World),
    session_clean w ->
    is_raise (fst (write_blog ext fuel topic author tgs w)) = false
    /\ forall e w1,
         write_blog_body ext fuel topic author tgs w = (Raise e, w1) ->
         exists w',
           write_blog ext fuel topic author tgs w = (Ok (failure_record e), w')
           /\ pending w' = []
           /\ txn w' = committed w'
           /\ committed w' = committed w.
Proof.
  intros ext fuel topic author tgs w (Hp & Ht). split.
  - unfold write_blog, try_except.
    destruct (write_blog_body ext fuel topic author tgs w) as [[d|e|] w1]; try reflexivity.
    destruct (is_SQLAlchemyError e); reflexivity.
  - intros e w1 H.
    destruct (write_blog_body_outcome ext fuel topic author tgs w _ _ Hp H)
      as [(result & a & dt & _ & _ & _ & _ & Hr) | (_ & Hc)]; [discriminate|].
    unfold write_blog, try_except. rewrite H.
    unfold failure_record.
    destruct (is_SQLAlchemyError e); eexists; (split; [reflexivity|]);
      simpl; auto.
Qed.

Lemma write_blog_reports_failure_witness :
  fst (write_blog ext_sample 20 "Proofs" 7 None world_sample)
  = Ok (failure_record
          (IntegrityError "articles.author_id is not present in table users"))
  /\ committed (snd (write_blog ext_sample 20 "Proofs" 7 None world_sample))
     = committed world_sample.
Proof.
  destruct (write_blog_reports_failure ext_sample 20 "Proofs" 7 None world_sample
              (conj eq_refl eq_refl)) as (_ & H).
  destruct (H (IntegrityError "articles.author_id is not present in table users")
              (snd (write_blog_body ext_sample 20 "Proofs" 7 None world_sample)))
    as (w' & E & _ & _ & Hc).
  - vm_compute. reflexivity.
  - rewrite E. simpl. auto.
Defined.

(* ================================================================== *)
(** * The section loop on an outline without repeated entries *)

Lemma string_append_assoc (a b c : string) : (a +++ b) +++ c = a +++ b +++ c.
Proof. induction a as [|x a IH]; simpl; [reflexivity | now rewrite IH]. Qed.

Lemma append_empty_r (a : string) : a +++ "" = a.
Proof. induction a as [|x a IH]; simpl; [reflexivity | now rewrite IH]. Qed.

Lemma join_snoc sep l x :
  join sep (l ++ [x]) = match l with [] => x | _ => join sep l +++ sep +++ x end.
Proof.
  induction l as [|y l IH]; [reflexivity|].
  simpl app. destruct l as [|z l].
  - reflexivity.
  - change (join sep (y :: (z :: l) ++ [x])) with (y +++ sep +++ join sep ((z :: l) ++ [x])).
    rewrite IH. change (join sep (y :: z :: l)) with (y +++ sep +++ join sep (z :: l)).
    now rewrite !string_append_assoc.
Qed.

Lemma truthy_append a b : truthy a = true -> truthy (a +++ b) = true.
Proof. destruct a; simpl; [discriminate | reflexivity]. Qed.

Lemma truthy_append_r a b : truthy b = true -> truthy (a +++ b) = true.
Proof. destruct a; simpl; auto. Qed.

Lemma truthy_join_sections sep (f : string -> string) l :
  l <> [] -> (forall x, truthy (f x) = true) -> truthy (join sep (map f l)) = true.
Proof.
  intros Hl Hf. destruct l as [|x l]; [contradiction|]. simpl map.
  destruct (map f l) eqn:E; simpl join; [apply Hf|].
  apply truthy_append. apply Hf.
Qed.

Lemma index_first_occurrence pre cur post :
  ~ In cur pre -> index cur (pre ++ cur :: post) = Some (List.length pre).
Proof.
  induction pre as [|y pre IH]; intros Hn; simpl.
  - now rewrite String.eqb_refl.
  - destruct (String.eqb y cur) eqn:E.
    + apply String.eqb_eq in E. exfalso. apply Hn. now left.
    + rewrite IH; [reflexivity|]. intros H. apply Hn. now right.
Qed.

Lemma nth_error_after pre (cur : string) post :
  nth_error (pre ++ cur :: post) (List.length pre + 1) = nth_error post 0.
Proof.
  rewrite nth_error_app2 by lia.
  replace (List.length pre + 1 - List.length pre)%nat with 1%nat by lia. reflexivity.
Qed.

Section DistinctOutline.

Variable ext : External.
Hypothesis llm_answers : forall prompt, exists c, llm_invoke ext prompt = Ok c.

Local Abbreviation g := (BlogWriterAgent.create_workflow ext).

Lemma run_from_END f s : run_from g (S f) END s = ([], Ok s).
Proof. reflexivity. Qed.

Lemma run_from_analyze_content f s :
  exists final,
    run_from g (S (S f)) "analyze_content" s = (["analyze_content"], Ok final)
    /\ draft final = draft s.
Proof.
  destruct (llm_answers
    ("Analyze this blog post and provide:" +++ nl
      +++ BlogWriterAgent.indent +++ "1. 5-7 relevant tags" +++ nl
      +++ BlogWriterAgent.indent +++ "2. Estimated read time in minutes" +++ nl
      +++ BlogWriterAgent.indent +++ "3. 3-5 main SEO keywords" +++ nl
      +++ nl
      +++ BlogWriterAgent.indent +++ "Content:" +++ nl
      +++ BlogWriterAgent.indent +++ draft s +++ nl
      +++ BlogWriterAgent.indent)) as (c & Hc).
  eexists. split.
  - change (run_from g (S (S f)) "analyze_content" s)
      with (match BlogWriterAgent.analyze_content ext s with
            | Ok s' => let (visited, r) := run_from g (S f) END s' in
                       ("analyze_content" :: visited, r)
            | Raise e => (["analyze_content"], Raise e)
            | Diverge => (["analyze_content"], Diverge)
            end).
    unfold BlogWriterAgent.analyze_content. rewrite Hc. rewrite run_from_END. reflexivity.
  - reflexivity.
Qed.

Variable topic0 : string.
Variable research0 : list SearchResult.
Variable o : list string.
Hypothesis o_distinct : NoDup o.
Hypothesis o_truthy : forall x, In x o -> truthy x = true.

Let base := outlined topic0 research0 o.

Lemma response_for_answer s cur :
  topic s = topic0 -> research_data s = research0 ->
  llm_invoke ext (section_prompt s cur) = Ok (response_for ext base cur).
Proof.
  intros Ht Hr. unfold response_for.
  assert (E : section_prompt base cur = section_prompt s cur).
  { unfold section_prompt. rewrite Ht, Hr. reflexivity. }
  rewrite E. destruct (llm_answers (section_prompt s cur)) as (c & ->). reflexivity.
Qed.

(** From the point where [pre] is written and the pointer is at [cur],
    the loop writes [cur] and the sections [post] and goes on to the
    analysis. *)
Lemma distinct_outline_from post : forall pre cur s extra,
  o = pre ++ cur :: post ->
  outline s = o -> topic s = topic0 -> research_data s = research0 ->
  current_section s = Some cur ->
  draft s = drafted ext base pre ->
  exists final,
    run_from g (2 * (List.length post + 1) + 2 + extra) "write_section" s
    = (section_visits (List.length post + 1), Ok final)
    /\ draft final = drafted ext base o.
Proof.
  induction post as [|nx post IH]; intros pre cur s extra Ho Hout Ht Hr Hc Hd.
  - (* last section *)
    assert (Hnotin : ~ In cur pre).
    { rewrite Ho in o_distinct. apply NoDup_remove_2 in o_distinct.
      intros H. apply o_distinct. apply in_or_app. now left. }
    assert (Htr : truthy cur = true).
    { apply o_truthy. rewrite Ho. apply in_or_app. right. now left. }
    change (2 * (List.length (@nil string) + 1) + 2 + extra)%nat with (S (S (S (S extra)))).
    rewrite run_from_write_section.
    rewrite (write_section_at ext s cur (List.length pre) Hc Htr)
      by (rewrite Hout, Ho; now apply index_first_occurrence).
    rewrite (response_for_answer s cur Ht Hr).
    rewrite Hout, Ho, nth_error_after. cbn [nth_error].
    set (s' := after_section s cur (response_for ext base cur) None).
    assert (Hd' : draft s' = drafted ext base o).
    { subst s'. cbn [draft after_section]. rewrite Hd, Ho. unfold drafted.
      rewrite map_app. cbn [map]. rewrite join_snoc.
      destruct pre as [|p pre]; [reflexivity|].
      rewrite truthy_join_sections; [|discriminate|intros x; reflexivity].
      cbn [map]. now rewrite !string_append_assoc. }
    rewrite run_from_should_continue.
    assert (Hroute : match current_section s' with
                     | None => if truthy (draft s') then "analyze_content" else "write_section"
                     | Some _ => "write_section"
                     end = "analyze_content").
    { subst s'. cbn [current_section after_section draft].
      rewrite truthy_append_r; reflexivity. }
    rewrite Hroute.
    destruct (run_from_analyze_content extra s') as (final & Hrun & Hfd).
    rewrite Hrun. exists final. split; [reflexivity|]. rewrite Hfd, <- Ho. exact Hd'.
  - (* a section followed by others *)
    assert (Hnotin : ~ In cur pre).
    { rewrite Ho in o_distinct. apply NoDup_remove_2 in o_distinct.
      intros H. apply o_distinct. apply in_or_app. now left. }
    assert (Htr : truthy cur = true).
    { apply o_truthy. rewrite Ho. apply in_or_app. right. now left. }
    replace (2 * (List.length (nx :: post) + 1) + 2 + extra)%nat
      with (S (S (2 * (List.length post + 1) + 2 + extra))) by (simpl; lia).
    rewrite run_from_write_section.
    rewrite (write_section_at ext s cur (List.length pre) Hc Htr)
      by (rewrite Hout, Ho; now apply index_first_occurrence).
    rewrite (response_for_answer s cur Ht Hr).
    rewrite Hout, Ho, nth_error_after. cbn [nth_error].
    rewrite <- Ho, <- Hout.
    set (s' := after_section s cur (response_for ext base cur) (Some nx)).
    rewrite run_from_should_continue.
    change (current_section s') with (Some nx). cbv iota.
    destruct (IH (pre ++ [cur]) nx s' extra) as (final & Hrun & Hfd).
    + rewrite Ho, <- app_assoc. reflexivity.
    + exact Hout.
    + exact Ht.
    + exact Hr.
    + reflexivity.
    + subst s'. cbn [draft after_section]. rewrite Hd. unfold drafted.
      rewrite map_app. cbn [map]. rewrite join_snoc.
      destruct pre as [|p pre]; [reflexivity|].
      rewrite truthy_join_sections; [|discriminate|intros x; reflexivity].
      cbn [map]. now rewrite !string_append_assoc.
    + rewrite Hrun. exists final. split; [|rewrite Hout; exact Hfd].
      replace (List.length (nx :: post) + 1)%nat with (S (List.length post + 1))
        by (simpl; lia).
      reflexivity.
Qed.

End DistinctOutline.

(** More steps do not change a run that has come back. *)
Lemma run_from_more_fuel g f : forall node s visited x k,
  run_from g f node s = (visited, Ok x) ->
  run_from g (f + k) node s = (visited, Ok x).
Proof.
  induction f as [|f IH]; intros node s visited x k H; [discriminate|].
  simpl in H |- *.
  destruct (String.eqb node END); [exact H|].
  destruct (match assoc node (nodes g) with Some fn => fn s | None => Ok s end)
    as [s'|e|]; try discriminate.
  destruct (next_node g node s') as [n|]; [|discriminate].
  destruct (run_from g f n s') as [v r] eqn:E.
  inversion H; subst. now rewrite (IH _ _ _ _ k E).
Qed.

Lemma count_section_visits n :
  count_occ string_dec (section_visits n) "write_section" = n.
Proof. induction n as [|n IH]; [reflexivity|]. simpl in *. now rewrite IH. Qed.

(** X1.  On an outline without repeated entries the section loop does end:
    with a language model that answers, an outline of [n] non-empty,
    pairwise distinct entries is written in [n] passes of
    [write_section], and the draft holds the [n] sections under their
    headings in outline order. *)
Theorem section_loop_ends_on_distinct_outline :
  forall (ext : External) (topic : string) (research : list SearchResult)
         (o : list string),
    o <> [] ->
    NoDup o ->
    (forall x, In x o -> truthy x = true) ->
    (forall prompt, exists c, llm_invoke ext prompt = Ok c) ->
    exists final,
      (forall fuel, (2 * List.length o + 2 <= fuel)%nat ->
         run_from (BlogWriterAgent.create_workflow ext) fuel "write_section"
                  (outlined topic research o)
         = (section_visits (List.length o), Ok final))
      /\ count_occ string_dec (section_visits (List.length o)) "write_section"
         = List.length o
      /\ draft final = drafted ext (outlined topic research o) o.
Proof.
  intros ext topic research o Hne Hnd Htr Hllm.
  destruct o as [|cur post]; [contradiction|].
  destruct (distinct_outline_from ext Hllm topic research (cur :: post) Hnd Htr
              post [] cur
              (set_current_section (Some cur) (outlined topic research (cur :: post))) 0%nat)
    as (final & Hrun & Hd); try reflexivity.
  exists final. split; [|split].
  - intros fuel Hfuel.
    rewrite (run_from_write_section_first ext fuel _ cur post) by reflexivity.
    replace fuel
      with ((2 * (List.length post + 1) + 2 + 0) + (fuel - (2 * (List.length post + 1) + 2)))%nat
      by (simpl in Hfuel; lia).
    apply run_from_more_fuel.
    replace (List.length (cur :: post)) with (List.length post + 1)%nat by (simpl; lia).
    exact Hrun.
  - apply count_section_visits.
  - exact Hd.
Qed.

Lemma section_loop_ends_on_distinct_outline_witness :
  exists final,
    run_from (BlogWriterAgent.create_workflow ext_sample) 8 "write_section"
             (outlined "Proofs" [] ["Intro"; "Body"; "Outro"])
    = (["write_section"; "should_continue"; "write_section"; "should_continue";
        "write_section"; "should_continue"; "analyze_content"], Ok final)
    /\ draft final = drafted ext_sample (outlined "Proofs" [] ["Intro"; "Body"; "Outro"])
                             ["Intro"; "Body"; "Outro"].
Proof.
  destruct (section_loop_ends_on_distinct_outline ext_sample "Proofs" []
              ["Intro"; "Body"; "Outro"]) as (final & Hrun & _ & Hd).
  - discriminate.
  - repeat constructor; simpl; intuition discriminate.
  - intros x [<-|[<-|[<-|[]]]]; reflexivity.
  - intros prompt. eexists. reflexivity.
  - exists final. split; [|exact Hd]. apply (Hrun 8%nat). simpl. lia.
Defined.

(* ================================================================== *)
(** * [EmbeddingService]: single texts, lists of texts and the cache *)

Lemma In_firstn {A} n (l : list A) x : In x (firstn n l) -> In x l.
Proof.
  intros H. rewrite <- (firstn_skipn n l). apply in_or_app. now left.
Qed.

Lemma In_skipn {A} n (l : list A) x : In x (skipn n l) -> In x l.
Proof.
  intros H. rewrite <- (firstn_skipn n l). apply in_or_app. now right.
Qed.

Section EmbeddingCalls.

Import EmbeddingService.

Variable ext : External.

Lemma model_embed_Ok texts : forall vs,
  model_embed ext texts = Ok vs
  <-> Forall2 (fun t v => model_embed_one ext t = Ok v) texts vs.
Proof.
  induction texts as [|t texts IH]; intros vs; simpl.
  - split.
    + intros H. inversion H. constructor.
    + intros H. inversion H. reflexivity.
  - destruct (model_embed_one ext t) as [v|e|] eqn:E.
    + destruct (model_embed ext texts) as [vs'|e|] eqn:E'.
      * split.
        -- intros H. inversion H; subst. constructor; auto. now apply IH.
        -- intros H. inversion H as [|? v0 ? vs0 H1 H2]; subst.
           apply IH in H2. congruence.
      * split; [discriminate|].
        intros H. inversion H as [|? v0 ? vs0 H1 H2]; subst.
        apply IH in H2. discriminate.
      * split; [discriminate|].
        intros H. inversion H as [|? v0 ? vs0 H1 H2]; subst.
        apply IH in H2. discriminate.
    + split; [discriminate|]. intros H. inversion H; subst. congruence.
    + split; [discriminate|]. intros H. inversion H; subst. congruence.
Qed.

Lemma model_embed_Raise texts : forall e,
  model_embed ext texts = Raise e ->
  exists t, In t texts /\ model_embed_one ext t = Raise e.
Proof.
  induction texts as [|t texts IH]; intros e; simpl; [discriminate|].
  destruct (model_embed_one ext t) as [v|e0|] eqn:E.
  - destruct (model_embed ext texts) as [vs'|e1|] eqn:E'; try discriminate.
    intros H. inversion H; subst.
    destruct (IH e eq_refl) as (x & Hx & Ex). exists x. split; auto.
  - intros H. inversion H; subst. exists t. split; auto.
  - discriminate.
Qed.

Lemma compute_single_cases text :
  _compute_single_embedding ext text
  = match model_embed_one ext text with
    | Ok v => Ok v
    | Raise e => Raise (PyException ("Failed to compute embedding: " +++ exn_str e))
    | Diverge => Diverge
    end.
Proof.
  unfold _compute_single_embedding. simpl.
  destruct (model_embed_one ext text); reflexivity.
Qed.

Lemma get_embedding_Ok text c v :
  get_embedding ext text c = Ok v
  <-> truthy (strip text) = true /\ model_embed_one ext text = Ok v.
Proof.
  unfold get_embedding, _get_single_embedding.
  destruct (truthy (strip text)); simpl.
  - assert (E : (if c then _compute_single_embedding ext text
                 else _compute_single_embedding ext text)
                = _compute_single_embedding ext text) by (destruct c; reflexivity).
    rewrite E, compute_single_cases.
    destruct (model_embed_one ext text); split;
      try discriminate; try (intros [_ H]; discriminate).
    + intros H. split; auto.
    + intros [_ H]. exact H.
  - split; [discriminate | intros [H _]; discriminate].
Qed.

(** What the call without batching returns when it returns. *)
Lemma get_embeddings_unbatched texts vs :
  texts <> [] ->
  (get_embeddings ext texts None = Ok vs
   <-> forallb (fun t => truthy (strip t)) texts = true /\ model_embed ext texts = Ok vs).
Proof.
  intros Hne. unfold get_embeddings.
  destruct texts as [|t texts]; [congruence|].
  destruct (forallb (fun t0 => truthy (strip t0)) (t :: texts)); simpl negb; cbv iota.
  - destruct (model_embed ext (t :: texts)); split;
      try discriminate; try (intros [_ H]; discriminate).
    + intros H. split; auto.
    + intros [_ H]. exact H.
  - split; [discriminate | intros [H _]; discriminate].
Qed.

Lemma get_embeddings_zero texts :
  get_embeddings ext texts (Some 0) = get_embeddings ext texts None.
Proof. reflexivity. Qed.

Lemma get_embeddings_forward texts b :
  forward_batch b -> get_embeddings ext texts b = get_embeddings ext texts None.
Proof.
  destruct b as [z|]; simpl; auto. intros Hz.
  destruct (Z.eq_dec z 0) as [->|Hnz].
  - apply get_embeddings_zero.
  - apply get_embeddings_batch_irrelevant. lia.
Qed.

Lemma forallb_Forall2_l {A B} (p : A -> bool) (R : A -> B -> Prop) l l' :
  Forall2 (fun a b => p a = true /\ R a b) l l'
  <-> forallb p l = true /\ Forall2 R l l'.
Proof.
  split.
  - induction 1 as [|a b l l' [Hp HR] H IH]; simpl.
    + split; auto.
    + destruct IH as [IH1 IH2]. rewrite Hp, IH1. split; auto.
  - intros [Hp H]. induction H as [|a b l l' HR H IH]; simpl in *.
    + constructor.
    + apply andb_true_iff in Hp as [Hp1 Hp2]. constructor; auto.
Qed.

Lemma Forall2_iff {A B} (R R' : A -> B -> Prop) l l' :
  (forall a b, R a b <-> R' a b) -> Forall2 R l l' <-> Forall2 R' l l'.
Proof.
  intros H. split; induction 1; constructor; auto; now apply H.
Qed.

Lemma get_embeddings_pointwise texts b c vs :
  forward_batch b -> texts <> [] ->
  (get_embeddings ext texts b = Ok vs
   <-> Forall2 (fun t v => get_embedding ext t c = Ok v) texts vs).
Proof.
  intros Hb Hne. rewrite get_embeddings_forward by exact Hb.
  rewrite get_embeddings_unbatched by exact Hne.
  rewrite model_embed_Ok.
  rewrite <- (forallb_Forall2_l (fun t => truthy (strip t))
                (fun t v => model_embed_one ext t = Ok v)).
  apply Forall2_iff. intros t v. symmetry. apply get_embedding_Ok.
Qed.

(** ** A negative batch size *)

Lemma get_embeddings_backward texts b :
  b < 0 -> texts <> [] ->
  (forall t, In t texts -> truthy (strip t) = true) ->
  get_embeddings ext texts (Some b) = Ok [].
Proof.
  intros Hb Hne Hall. unfold get_embeddings.
  destruct texts as [|t texts]; [congruence|].
  assert (F : forallb (fun t0 => truthy (strip t0)) (t :: texts) = true)
    by (apply forallb_forall; exact Hall).
  rewrite F. simpl negb. cbv iota.
  assert (N : (b =? 0) = false) by (apply Z.eqb_neq; lia).
  rewrite N. simpl negb. cbv iota.
  unfold range0. assert (L : (0 <? b) = false) by (apply Z.ltb_ge; lia).
  rewrite L. reflexivity.
Qed.

(** ** Which errors leave the service *)

Lemma In_slice {A} (i j : Z) (l : list A) x : In x (slice i j l) -> In x l.
Proof.
  unfold slice. intros H. apply In_firstn in H. now apply In_skipn in H.
Qed.

Lemma embed_batches_Raise texts b starts : forall acc e,
  embed_batches ext texts b starts acc = Raise e ->
  exists t, In t texts /\ model_embed_one ext t = Raise e.
Proof.
  induction starts as [|i starts IH]; intros acc e; simpl; [discriminate|].
  destruct (model_embed ext (slice i (i + b) texts)) as [vs|e0|] eqn:E.
  - apply IH.
  - intros H. inversion H; subst.
    destruct (model_embed_Raise _ _ E) as (t & Ht & Et).
    exists t. split; auto. eapply In_slice; eauto.
  - discriminate.
Qed.

Lemma get_embedding_Raise text c e :
  get_embedding ext text c = Raise e ->
  (truthy (strip text) = false /\ e = ValueError "Input must be a non-empty string")
  \/ (exists e', model_embed_one ext text = Raise e'
                 /\ e = PyException ("Failed to compute embedding: " +++ exn_str e')).
Proof.
  unfold get_embedding, _get_single_embedding.
  destruct (truthy (strip text)); simpl.
  - assert (E : (if c then _compute_single_embedding ext text
                 else _compute_single_embedding ext text)
                = _compute_single_embedding ext text) by (destruct c; reflexivity).
    rewrite E, compute_single_cases.
    destruct (model_embed_one ext text) as [v|e0|]; try discriminate.
    intros H. inversion H; subst. right. exists e0. split; auto.
  - intros H. inversion H; subst. left. split; auto.
Qed.

Lemma get_embeddings_Raise texts b e :
  get_embeddings ext texts b = Raise e ->
  (texts = [] /\ e = ValueError "Input must be a non-empty list of strings")
  \/ ((exists t, In t texts /\ truthy (strip t) = false)
      /\ e = ValueError "All inputs must be non-empty strings")
  \/ (exists t e', In t texts /\ model_embed_one ext t = Raise e'
                   /\ e = PyException ("Failed to compute embeddings: " +++ exn_str e')).
Proof.
  unfold get_embeddings. destruct texts as [|t0 texts].
  - intros H. inversion H; subst. left. split; auto.
  - destruct (forallb (fun t => truthy (strip t)) (t0 :: texts)) eqn:F;
      simpl negb; cbv iota.
    + intros H. right. right.
      destruct b as [z|].
      * destruct (z =? 0); simpl negb in H; cbv iota in H.
        -- destruct (model_embed ext (t0 :: texts)) as [vs|e0|] eqn:E; try discriminate.
           inversion H; subst.
           destruct (model_embed_Raise _ _ E) as (t & Ht & Et).
           exists t, e0. split; auto.
        -- destruct (embed_batches ext (t0 :: texts) z _ []) as [vs|e0|] eqn:E;
             try discriminate.
           inversion H; subst.
           destruct (embed_batches_Raise _ _ _ _ _ E) as (t & Ht & Et).
           exists t, e0. split; auto.
      * destruct (model_embed ext (t0 :: texts)) as [vs|e0|] eqn:E; try discriminate.
        inversion H; subst.
        destruct (model_embed_Raise _ _ E) as (t & Ht & Et).
        exists t, e0. split; auto.
    + intros H. inversion H; subst. right. left. split; auto.
      assert (G : forallb (fun t => truthy (strip t)) (t0 :: texts) <> true)
        by (rewrite F; discriminate).
      destruct (existsb (fun t => negb (truthy (strip t))) (t0 :: texts)) eqn:X.
      * apply existsb_exists in X as (t & Ht & Et). exists t. split; auto.
        now apply negb_true_iff in Et.
      * exfalso. apply G. apply forallb_forall. intros t Ht.
        destruct (truthy (strip t)) eqn:T; auto.
        assert (existsb (fun t => negb (truthy (strip t))) (t0 :: texts) = true).
        { apply existsb_exists. exists t. split; auto. now rewrite T. }
        congruence.
Qed.

(** ** The cache *)

Lemma lookup_In key l v : LruCache.lookup key l = Some v -> In (key, v) l.
Proof.
  induction l as [|[k x] l IH]; simpl; [discriminate|].
  destruct (String.eqb k key) eqn:E.
  - apply String.eqb_eq in E. intros H. inversion H; subst. now left.
  - intros H. right. auto.
Qed.

Lemma remove_shorter key l v :
  LruCache.lookup key l = Some v ->
  (S (List.length (LruCache.remove key l)) <= List.length l)%nat.
Proof.
  unfold LruCache.remove.
  induction l as [|[k x] l IH]; simpl; [discriminate|].
  destruct (String.eqb k key) eqn:E; simpl.
  - intros _. pose proof (filter_length_le (fun kv => negb (fst kv =? key)%string) l). lia.
  - intros H. apply IH in H. lia.
Qed.

Lemma Forall_firstn {A} (P : A -> Prop) n l : Forall P l -> Forall P (firstn n l).
Proof.
  intros H. apply Forall_forall. intros x Hx.
  apply In_firstn in Hx. revert x Hx. now apply Forall_forall.
Qed.

Lemma Forall_filter {A} (P : A -> Prop) f l : Forall P l -> Forall P (filter f l).
Proof.
  intros H. apply Forall_forall. intros x Hx.
  apply filter_In in Hx as [Hx _]. revert x Hx. now apply Forall_forall.
Qed.

(** A call through the cache returns what the wrapped function returns,
    and leaves the cache sound and within its bound. *)
Lemma cached_call text c :
  cache_sound ext c -> cache_bounded c ->
  fst (CachedEmbeddingService._get_single_embedding ext text c)
  = _compute_single_embedding ext text
  /\ cache_sound ext (snd (CachedEmbeddingService._get_single_embedding ext text c))
  /\ cache_bounded (snd (CachedEmbeddingService._get_single_embedding ext text c))
  /\ LruCache.maxsize (snd (CachedEmbeddingService._get_single_embedding ext text c))
     = LruCache.maxsize c.
Proof.
  intros Hs Hb.
  unfold CachedEmbeddingService._get_single_embedding, LruCache.call.
  destruct (LruCache.maxsize c <=? 0) eqn:Z0; simpl; [auto|].
  apply Z.leb_gt in Z0.
  destruct (LruCache.lookup text (LruCache.entries c)) as [v|] eqn:L; simpl.
  - pose proof (lookup_In _ _ _ L) as Hin.
    unfold cache_sound in Hs.
    pose proof (proj1 (Forall_forall _ _) Hs _ Hin) as Ev. simpl in Ev.
    split; [now rewrite Ev|]. split; [|split; auto].
    + unfold cache_sound. simpl. constructor; auto.
      now apply Forall_filter.
    + unfold cache_bounded in *. simpl.
      pose proof (remove_shorter _ _ _ L). lia.
  - destruct (_compute_single_embedding ext text) as [v|e|] eqn:E; simpl; auto.
    split; auto. split; [|split; auto].
    + unfold cache_sound. simpl.
      apply (Forall_firstn _ (Z.to_nat (LruCache.maxsize c)) ((text, v) :: LruCache.entries c)).
      constructor; auto.
    + unfold cache_bounded. simpl LruCache.entries. simpl LruCache.maxsize.
      rewrite length_firstn. lia.
Qed.

Lemma cached_get_embedding text use_cache c :
  cache_sound ext c -> cache_bounded c ->
  fst (CachedEmbeddingService.get_embedding ext text use_cache c)
  = get_embedding ext text use_cache
  /\ cache_sound ext (snd (CachedEmbeddingService.get_embedding ext text use_cache c))
  /\ cache_bounded (snd (CachedEmbeddingService.get_embedding ext text use_cache c))
  /\ LruCache.maxsize (snd (CachedEmbeddingService.get_embedding ext text use_cache c))
     = LruCache.maxsize c.
Proof.
  intros Hs Hb. unfold CachedEmbeddingService.get_embedding, get_embedding.
  destruct (negb (truthy (strip text))); simpl; auto.
  destruct use_cache; simpl; auto.
  unfold _get_single_embedding. now apply cached_call.
Qed.

Lemma serve_transparent requests : forall c,
  cache_sound ext c -> cache_bounded c ->
  fst (serve ext requests c)
  = map (fun q => get_embedding ext (fst q) (snd q)) requests
  /\ cache_sound ext (snd (serve ext requests c))
  /\ cache_bounded (snd (serve ext requests c))
  /\ LruCache.maxsize (snd (serve ext requests c)) = LruCache.maxsize c.
Proof.
  induction requests as [|[text use_cache] rest IH]; intros c Hs Hb; simpl.
  - auto.
  - destruct (cached_get_embedding text use_cache c Hs Hb) as (E1 & S1 & B1 & M1).
    destruct (CachedEmbeddingService.get_embedding ext text use_cache c) as [r c1].
    simpl in *.
    destruct (IH c1 S1 B1) as (E2 & S2 & B2 & M2).
    destruct (serve ext rest c1) as [rs c2]. simpl in *.
    subst. split; auto. split; auto. split; auto. congruence.
Qed.

End EmbeddingCalls.

(** X2.  [get_embeddings] and [get_embedding].  On a non-empty list, with no
    batch size or one that is not negative, the list call returns the
    vectors [vs] exactly when the single-text call returns, text by text
    and in order, the vectors of [vs]. *)
Theorem get_embeddings_is_get_embedding_on_each :
  forall (ext : External) (texts : list string) (b : option Z)
         (use_cache : bool) (vs : list Vector),
    forward_batch b ->
    texts <> [] ->
    (EmbeddingService.get_embeddings ext texts b = Ok vs
     <-> Forall2 (fun t v => EmbeddingService.get_embedding ext t use_cache = Ok v)
                 texts vs).
Proof. intros. now apply get_embeddings_pointwise. Qed.

Lemma get_embeddings_is_get_embedding_on_each_witness :
  Forall2 (fun t v => EmbeddingService.get_embedding ext_sample t true = Ok v)
          ["a"; "b"; "c"] [[Float64 0]; [Float64 0]; [Float64 0]].
Proof.
  apply (proj1 (get_embeddings_is_get_embedding_on_each
                  ext_sample ["a"; "b"; "c"] (Some 2) true
                  [[Float64 0]; [Float64 0]; [Float64 0]]
                  ltac:(simpl; lia) ltac:(discriminate))).
  vm_compute. reflexivity.
Defined.

(** X3.  [get_embeddings] with a batch size that is not positive.  Zero counts
    as no batch size.  With a negative one the loop over
    [range(0, len(texts), batch_size)] has no round: the call returns the
    empty list for texts that pass the checks, whatever the model would
    do with them. *)
Theorem get_embeddings_without_positive_batch_size :
  forall (ext : External) (texts : list string),
    EmbeddingService.get_embeddings ext texts (Some 0)
    = EmbeddingService.get_embeddings ext texts None
    /\ forall b : Z,
         b < 0 ->
         texts <> [] ->
         (forall t, In t texts -> truthy (strip t) = true) ->
         EmbeddingService.get_embeddings ext texts (Some b) = Ok [].
Proof.
  intros ext texts. split.
  - apply get_embeddings_zero.
  - intros b. apply get_embeddings_backward.
Qed.

Lemma get_embeddings_without_positive_batch_size_witness :
  EmbeddingService.get_embeddings ext_model_down ["a"; "b"] (Some (-1)) = Ok []
  /\ EmbeddingService.get_embeddings ext_model_down ["a"; "b"] None
     = Raise (PyException "Failed to compute embeddings: model unavailable").
Proof.
  split.
  - apply (proj2 (get_embeddings_without_positive_batch_size ext_model_down ["a"; "b"])).
    + lia.
    + discriminate.
    + intros t [<-|[<-|[]]]; reflexivity.
  - reflexivity.
Defined.

(** X4.  The errors of [EmbeddingService].  [get_embedding] raises either the
    [ValueError] of its input check or the [Exception] that wraps, with
    the prefix of [_compute_single_embedding], an error the model raised
    on that text; [get_embeddings] raises either one of its two
    [ValueError]s or the [Exception] that wraps an error the model raised
    on one of the texts.  No error of the model leaves unwrapped. *)
Theorem embedding_errors_are_wrapped :
  forall ext : External,
    (forall (text : string) (use_cache : bool) (e : exn),
       EmbeddingService.get_embedding ext text use_cache = Raise e ->
       (truthy (strip text) = false /\ e = ValueError "Input must be a non-empty string")
       \/ (exists e', model_embed_one ext text = Raise e'
                      /\ e = PyException ("Failed to compute embedding: " +++ exn_str e')))
    /\ (forall (texts : list string) (b : option Z) (e : exn),
          EmbeddingService.get_embeddings ext texts b = Raise e ->
          (texts = [] /\ e = ValueError "Input must be a non-empty list of strings")
          \/ ((exists t, In t texts /\ truthy (strip t) = false)
              /\ e = ValueError "All inputs must be non-empty strings")
          \/ (exists t e', In t texts /\ model_embed_one ext t = Raise e'
                /\ e = PyException ("Failed to compute embeddings: " +++ exn_str e'))).
Proof.
  intros ext. split.
  - intros text c e. apply get_embedding_Raise.
  - intros texts b e. apply get_embeddings_Raise.
Qed.

Lemma embedding_errors_are_wrapped_witness :
  (truthy (strip "a") = false
   /\ PyException "Failed to compute embedding: model unavailable"
      = ValueError "Input must be a non-empty string")
  \/ (exists e', model_embed_one ext_model_down "a" = Raise e'
                 /\ PyException "Failed to compute embedding: model unavailable"
                    = PyException ("Failed to compute embedding: " +++ exn_str e')).
Proof.
  apply (proj1 (embedding_errors_are_wrapped ext_model_down) "a" true).
  reflexivity.
Defined.

(** X5.  The cache of [EmbeddingService].  From the empty cache made by
    [__init__], whatever its size, any sequence of [get_embedding] calls,
    each with or without [use_cache], returns call by call what the
    service without a cache returns, and the cache never holds more than
    [cache_size] entries. *)
Theorem embedding_cache_is_transparent :
  forall (ext : External) (cache_size : Z) (requests : list (string * bool)),
    CachedEmbeddingService.init (Ok tt) cache_size = Ok (LruCache.mk cache_size [])
    /\ fst (serve ext requests (LruCache.mk cache_size []))
       = map (fun q => EmbeddingService.get_embedding ext (fst q) (snd q)) requests
    /\ (List.length (LruCache.entries (snd (serve ext requests (LruCache.mk cache_size []))))
        <= Z.to_nat cache_size)%nat.
Proof.
  intros ext cache_size requests.
  assert (Hs : cache_sound ext (LruCache.mk cache_size [])) by constructor.
  assert (Hb : cache_bounded (LruCache.mk cache_size []))
    by (unfold cache_bounded; simpl; lia).
  destruct (serve_transparent ext requests _ Hs Hb) as (E & _ & B & M).
  split; [reflexivity|]. split; [exact E|].
  unfold cache_bounded in B. rewrite M in B. exact B.
Qed.

(* ================================================================== *)
(** * [generate_article_embedding]: any queue, any store *)

Lemma retry_budget_app q q' :
  retry_budget (q ++ q') = (retry_budget q + retry_budget q')%nat.
Proof.
  unfold retry_budget. rewrite map_app. induction (map runs_left q); simpl; lia.
Qed.

Lemma retry_budget_zero q : retry_budget q = 0%nat -> q = [].
Proof.
  destruct q as [|m q]; auto. unfold retry_budget, runs_left. simpl. lia.
Qed.

Lemma retry_budget_le q : (retry_budget q <= 4 * List.length q)%nat.
Proof.
  induction q as [|m q IH]; [unfold retry_budget; simpl; lia|].
  change (retry_budget (m :: q)) with (runs_left m + retry_budget q)%nat.
  change (List.length (m :: q)) with (S (List.length q)).
  unfold runs_left, max_retries. lia.
Qed.

(** One run takes its message off the queue and puts back at most the
    same call with one run less to go. *)
Lemma attempt_budget ext msg rest w r w1 :
  generate_article_embedding ext msg (m_article_id msg) (with_queue rest w) = (r, w1) ->
  (S (retry_budget (queue (session_remove w1))) <= retry_budget (msg :: rest))%nat.
Proof.
  intros H.
  assert (Q : queue (session_remove w1) = queue w1) by reflexivity.
  rewrite Q.
  change (retry_budget (msg :: rest)) with (runs_left msg + retry_budget rest)%nat.
  destruct (attempt_outcome _ _ _ _ _ _ H)
    as [(_ & Hq) | [(_ & Hq) | [(e & Hlt & _ & Hq) | (e & _ & _ & Hq)]]];
    rewrite Hq; simpl queue; try (unfold runs_left; lia).
  rewrite retry_budget_app.
  change (retry_budget [mkMessage (m_article_id msg) (m_retries msg + 1) 300])
    with (runs_left (mkMessage (m_article_id msg) (m_retries msg + 1) 300) + 0)%nat.
  unfold runs_left, max_retries. simpl m_retries. lia.
Qed.

Lemma worker_drains ext fuel : forall w,
  (retry_budget (queue w) <= fuel)%nat ->
  queue (snd (worker ext fuel w)) = []
  /\ (List.length (fst (worker ext fuel w)) <= retry_budget (queue w))%nat.
Proof.
  induction fuel as [|fuel IH]; intros w Hb.
  - simpl. split; [|lia]. apply retry_budget_zero. lia.
  - simpl. destruct (queue w) as [|msg rest] eqn:Q.
    + simpl. split; [exact Q | lia].
    + destruct (generate_article_embedding ext msg (m_article_id msg) (with_queue rest w))
        as [r w1] eqn:E.
      pose proof (attempt_budget _ _ _ _ _ _ E) as Hstep.
      destruct (IH (session_remove w1)) as [IH1 IH2]; [lia|].
      destruct (worker ext fuel (session_remove w1)) as [recs w2].
      simpl in *. split; [exact IH1 | lia].
Qed.

(** ** Nothing is committed *)

Lemma committed_log_flush_op C L op :
  preserves (fun w => committed w = C /\ log w = L) (flush_op op).
Proof.
  intros w r w' [HC HL] H. subst C L. break_flush_op H; split; reflexivity.
Qed.

Lemma committed_log_flush C L :
  preserves (fun w => committed w = C /\ log w = L) flush.
Proof. apply preserves_flush; first [apply committed_log_flush_op | untouched]. Qed.

Lemma committed_log_query_get C L k :
  preserves (fun w => committed w = C /\ log w = L) (Article_query_get k).
Proof.
  apply preserves_Article_query_get; first [apply committed_log_flush_op | untouched].
Qed.

(** The [try] block ends in one of two ways: it returns after the
    warning that the article is missing, or it raises before it has
    written anything. *)
Lemma embedding_body_trace ext k w r w1 :
  generate_article_embedding_body ext k w = (r, w1) ->
  committed w1 = committed w
  /\ ((r = Ok tt
       /\ log w1 = log w ++ [(WARNING, "Article " +++ py_str ext (of_opt VInt k)
                                       +++ " not found")])
      \/ (exists e, r = Raise e /\ log w1 = log w)).
Proof.
  unfold generate_article_embedding_body. intros H.
  destruct (bind_cases _ _ _ _ _ H)
    as [(found & wq & Hq & Hrest) | [(e & Hq & ->) | (Hq & ->)]].
  - destruct (committed_log_query_get (committed w) (log w) k _ _ _ (conj eq_refl eq_refl) Hq)
      as [HC HL].
    destruct found as [article|].
    + unfold bind, lift in Hrest. simpl in Hrest. inversion Hrest; subst.
      split; auto. right. eexists. split; [reflexivity | exact HL].
    + unfold logger, modify in Hrest. inversion Hrest; subst. simpl.
      split; auto. left. split; auto. now rewrite HL.
  - destruct (committed_log_query_get (committed w) (log w) k _ _ _ (conj eq_refl eq_refl) Hq)
      as [HC HL].
    split; auto. right. exists e. auto.
  - exfalso. unfold Article_query_get in Hq.
    destruct (bind_cases _ _ _ _ _ Hq)
      as [(u & wf & Hf & Hg) | [(e & Hf & He) | (Hf & _)]]; try discriminate.
    unfold flush in Hf.
    destruct (bind_cases _ _ _ _ _ Hf)
      as [(ops & w0 & H0 & H1) | [(e & H0 & He) | (H0 & _)]]; try discriminate.
    destruct (bind_cases _ _ _ _ _ H1)
      as [(u & w2 & H2 & H3) | [(e & H2 & He) | (H2 & _)]]; try discriminate.
    clear - H2. revert w0 H2. induction ops as [|op ops IH]; intros w0 H2; simpl in H2.
    + discriminate.
    + destruct (bind_cases _ _ _ _ _ H2)
        as [(u & w3 & H4 & H5) | [(e & H4 & He) | (H4 & _)]]; try discriminate.
      * eapply IH; eauto.
      * break_flush_op H4.
Qed.

Lemma embedding_task_trace ext self k w r w1 :
  generate_article_embedding ext self k w = (r, w1) ->
  committed w1 = committed w
  /\ exists lvl msg, log w1 = log w ++ [(lvl, msg)] /\ (lvl = WARNING \/ lvl = ERROR).
Proof.
  unfold generate_article_embedding, try_except. intros H.
  destruct (generate_article_embedding_body ext k w) as [r0 w0] eqn:E.
  destruct (embedding_body_trace _ _ _ _ _ E) as (HC & [(-> & HL) | (e & -> & HL)]).
  - inversion H; subst. split; auto. eauto.
  - unfold bind, logger, modify, self_retry in H.
    destruct (max_retries <? m_retries self + 1)%nat.
    + inversion H; subst. simpl. split; auto. rewrite HL. eauto.
    + unfold bind, modify, raise in H. inversion H; subst. simpl.
      split; auto. rewrite HL. eauto.
Qed.

Lemma worker_commits_nothing ext fuel : forall w,
  committed (snd (worker ext fuel w)) = committed w.
Proof.
  induction fuel as [|fuel IH]; intros w; simpl; [reflexivity|].
  destruct (queue w) as [|msg rest]; [reflexivity|].
  destruct (generate_article_embedding ext msg (m_article_id msg) (with_queue rest w))
    as [r w1] eqn:E.
  destruct (embedding_task_trace _ _ _ _ _ _ E) as (HC & _).
  specialize (IH (session_remove w1)).
  destruct (worker ext fuel (session_remove w1)) as [recs w2].
  simpl in *. rewrite IH. exact HC.
Qed.

(** X6.  The worker and the retries.  Whatever is on the queue, the worker
    empties it: a message causes its own run and at most as many further
    runs as it has retries left out of three, so the number of runs is
    bounded by the retry budget of the queue and that many steps suffice. *)
Theorem worker_drains_every_queue :
  forall (ext : External) (fuel : nat) (w : World),
    (retry_budget (queue w) <= fuel)%nat ->
    queue (snd (worker ext fuel w)) = []
    /\ (List.length (fst (worker ext fuel w)) <= retry_budget (queue w))%nat
    /\ (retry_budget (queue w) <= 4 * List.length (queue w))%nat.
Proof.
  intros ext fuel w Hb.
  destruct (worker_drains ext fuel w Hb) as [H1 H2].
  split; [exact H1|]. split; [exact H2|]. apply retry_budget_le.
Qed.

Lemma worker_drains_every_queue_witness :
  queue (snd (worker ext_sample 7
                (with_queue [mkMessage (Some 1) 0 0; mkMessage (Some 9) 1 0] world_sample)))
  = []
  /\ List.length (fst (worker ext_sample 7
                (with_queue [mkMessage (Some 1) 0 0; mkMessage (Some 9) 1 0] world_sample)))
     = 5%nat.
Proof.
  split.
  - apply (worker_drains_every_queue ext_sample 7
             (with_queue [mkMessage (Some 1) 0 0; mkMessage (Some 9) 1 0] world_sample)).
    vm_compute. lia.
  - vm_compute. reflexivity.
Defined.

(** X7.  The embedding task and the store.  On every store, with every
    message and article id, a run of [generate_article_embedding] commits
    nothing, and it writes one line to the log, a warning or an error:
    the line that reports a stored embedding is never written.  So the
    worker, whatever is on the queue and however long it runs, leaves the
    committed store as it found it. *)
Theorem embedding_task_commits_nothing :
  forall (ext : External) (self : Message) (k : option Z) (w : World),
    committed (snd (generate_article_embedding ext self k w)) = committed w
    /\ (exists lvl msg,
          log (snd (generate_article_embedding ext self k w)) = log w ++ [(lvl, msg)]
          /\ (lvl = WARNING \/ lvl = ERROR))
    /\ (forall fuel : nat, committed (snd (worker ext fuel w)) = committed w).
Proof.
  intros ext self k w.
  destruct (generate_article_embedding ext self k w) as [r w1] eqn:E.
  destruct (embedding_task_trace _ _ _ _ _ _ E) as (HC & HL).
  simpl. split; [exact HC|]. split; [exact HL|].
  intros fuel. apply worker_commits_nothing.
Qed.

(* ================================================================== *)
(** * [ArticleResource.delete], and an id that names no article *)

Lemma with_pending_clean w : pending w = [] -> with_pending [] w = w.
Proof. destruct w; simpl. intros ->. reflexivity. Qed.

Lemma get_or_404_missing k w :
  session_clean w -> find_article (Some k) (committed w) = None ->
  Article_query_get_or_404 k w = (Raise NotFound, w).
Proof.
  intros [Hp Ht] Hf. unfold Article_query_get_or_404, bind.
  rewrite (Article_query_get_clean _ _ Hp), Ht, Hf.
  unfold raise. now rewrite (with_pending_clean _ Hp).
Qed.

Lemma delete_missing k w :
  session_clean w -> find_article (Some k) (committed w) = None ->
  ArticleResource.delete k w = (Raise NotFound, w).
Proof.
  intros Hc Hf. unfold ArticleResource.delete, bind.
  now rewrite (get_or_404_missing _ _ Hc Hf).
Qed.

Lemma find_filter_out {A} (p : A -> bool) l : find p (filter (fun x => negb (p x)) l) = None.
Proof.
  induction l as [|x l IH]; simpl; auto.
  destruct (p x) eqn:E; simpl; auto. now rewrite E.
Qed.

Lemma col_is_opt_Z_eqb c k : col_is c k = opt_Z_eqb c (Some k).
Proof. destruct c; reflexivity. Qed.

Lemma referenced k (l : list ArticleTag.t) :
  existsb (fun x => opt_Z_eqb (ArticleTag.article_id x) (Some k)) l = false ->
  filter (fun r => col_is (ArticleTag.article_id r) k) l = [].
Proof.
  induction l as [|r l IH]; simpl; auto.
  rewrite col_is_opt_Z_eqb.
  destruct (opt_Z_eqb (ArticleTag.article_id r) (Some k)); simpl; [discriminate | exact IH].
Qed.

(** What a delete that is answered did. *)
Lemma delete_Ok k w resp w1 :
  session_clean w ->
  ArticleResource.delete k w = (Ok resp, w1) ->
  associations k (committed w) = []
  /\ resp = mkResponse 200 "article deleted" None
  /\ committed w1
     = with_articles (filter (fun r => negb (opt_Z_eqb (Article.id r) (Some k)))
                             (articles (committed w))) (committed w)
  /\ txn w1 = committed w1 /\ pending w1 = [] /\ queue w1 = queue w.
Proof.
  intros [Hp Ht] H.
  unfold ArticleResource.delete, Article_query_get_or_404, bind in H.
  rewrite (Article_query_get_clean _ _ Hp) in H.
  destruct (find_article (Some k) (txn w)) as [a|] eqn:Hf; [|discriminate].
  assert (Hid : Article.id a = Some k).
  { apply find_some in Hf. destruct Hf as (_ & Hf). now apply opt_Z_eqb_true. }
  unfold ret, session_delete, modify, commit, bind, flush, bind, gets in H.
  cbn [pending with_pending app for_each flush_op bind] in H.
  unfold bind, delete_article in H. cbn [txn with_pending] in H.
  rewrite Hid in H.
  destruct (existsb (fun r => opt_Z_eqb (ArticleTag.article_id r) (Some k))
                    (article_tags (txn w))) eqn:Hex; [discriminate|].
  unfold ret, modify in H. inversion H; subst. cbn.
  rewrite <- Ht. split; [|auto].
  unfold associations. now apply referenced.
Qed.

(** X8.  An id that names no article.  In a fresh session on a store that
    has no article with the id, [delete] raises the 404 of [get_or_404]
    and leaves everything as it was: store, session, log and queue.
    [put] does not get as far as [get_or_404]: it raises the
    [ValidationError] of its schema constructor, for this id as for any
    other, and leaves everything as it was too. *)
Theorem missing_article_is_not_found :
  forall (j : Json) (k : Z) (w : World),
    session_clean w ->
    find_article (Some k) (committed w) = None ->
    ArticleResource.delete k w = (Raise NotFound, w)
    /\ ArticleResource.put j k w = (Raise fields_required, w).
Proof.
  intros j k w Hc Hf. split.
  - now apply delete_missing.
  - apply put_refused.
Qed.

Lemma missing_article_is_not_found_witness :
  ArticleResource.delete 9 world_sample = (Raise NotFound, world_sample)
  /\ ArticleResource.put (json_tags ["x"]) 9 world_sample
     = (Raise fields_required, world_sample).
Proof.
  apply (missing_article_is_not_found (json_tags ["x"]) 9 world_sample).
  - split; reflexivity.
  - reflexivity.
Defined.

(** X9.  A delete that is answered.  In a fresh session, when [delete]
    returns its response the article had no tag association; the
    committed [articles] table is the old one without the rows of that
    id, the other tables are as before, and no embedding job is queued.
    From then on the id names no article: a further [delete] in a new
    session raises the 404. *)
Theorem delete_removes_the_article :
  forall (k : Z) (w w1 : World) (resp : Response),
    session_clean w ->
    ArticleResource.delete k w = (Ok resp, w1) ->
    associations k (committed w) = []
    /\ articles (committed w1)
       = filter (fun r => negb (opt_Z_eqb (Article.id r) (Some k))) (articles (committed w))
    /\ tags (committed w1) = tags (committed w)
    /\ article_tags (committed w1) = article_tags (committed w)
    /\ users (committed w1) = users (committed w)
    /\ queue w1 = queue w
    /\ find_article (Some k) (committed w1) = None
    /\ ArticleResource.delete k (session_remove w1) = (Raise NotFound, session_remove w1).
Proof.
  intros k w w1 resp Hc H.
  destruct (delete_Ok _ _ _ _ Hc H) as (Ha & _ & HC & Ht & Hp & Hq).
  assert (Hgone : find_article (Some k) (committed w1) = None).
  { rewrite HC. unfold find_article. simpl.
    apply (find_filter_out (fun a => opt_Z_eqb (Article.id a) (Some k))). }
  assert (Hclean : session_clean (session_remove w1)) by (split; reflexivity).
  split; [exact Ha|]. split; [now rewrite HC|]. split; [now rewrite HC|].
  split; [now rewrite HC|]. split; [now rewrite HC|]. split; [exact Hq|].
  split; [exact Hgone|].
  apply delete_missing; assumption.
Qed.

Lemma delete_removes_the_article_witness :
  exists resp w1,
    ArticleResource.delete 1 (with_txn (with_article_tags [] tables_sample)
                                (with_committed (with_article_tags [] tables_sample)
                                   world_sample))
    = (Ok resp, w1)
    /\ articles (committed w1) = []
    /\ tags (committed w1) = tags tables_sample.
Proof.
  eexists. eexists. split; [vm_compute; reflexivity|].
  pose proof (delete_removes_the_article 1
                (with_txn (with_article_tags [] tables_sample)
                   (with_committed (with_article_tags [] tables_sample) world_sample))
                _ _ ltac:(split; reflexivity) ltac:(vm_compute; reflexivity))
    as (_ & H1 & H2 & _).
  split; [exact H1 | exact H2].
Defined.

(* ================================================================== *)
(** * Lines of an outline *)

Lemma lstrip_headed s : headed (lstrip s).
Proof.
  induction s as [|c r IH]; simpl; auto.
  destruct (isspace c) eqn:E; simpl; auto.
Qed.

Lemma lstrip_of_headed s : headed s -> lstrip s = s.
Proof. destruct s as [|c r]; simpl; auto. intros ->. reflexivity. Qed.

Lemma all_space_rstrip s : all_space (rstrip s) = all_space s.
Proof.
  induction s as [|c r IH]; auto.
  change (rstrip (String c r))
    with (if all_space (String c r) then EmptyString else String c (rstrip r)).
  destruct (all_space (String c r)) eqn:E; auto.
  simpl. rewrite IH. exact E.
Qed.

Lemma rstrip_idempotent s : rstrip (rstrip s) = rstrip s.
Proof.
  induction s as [|c r IH]; auto.
  change (rstrip (String c r))
    with (if all_space (String c r) then EmptyString else String c (rstrip r)).
  destruct (all_space (String c r)) eqn:E; auto.
  change (rstrip (String c (rstrip r)))
    with (if all_space (String c (rstrip r)) then EmptyString
          else String c (rstrip (rstrip r))).
  assert (E' : all_space (String c (rstrip r)) = false).
  { simpl. rewrite all_space_rstrip. exact E. }
  rewrite E', IH. reflexivity.
Qed.

Lemma rstrip_headed s : headed s -> headed (rstrip s).
Proof.
  destruct s as [|c r]; auto. intros H.
  change (rstrip (String c r))
    with (if all_space (String c r) then EmptyString else String c (rstrip r)).
  destruct (all_space (String c r)); simpl; auto.
Qed.

Lemma strip_idempotent s : strip (strip s) = strip s.
Proof.
  unfold strip.
  rewrite (lstrip_of_headed (rstrip (lstrip s))).
  - apply rstrip_idempotent.
  - apply rstrip_headed, lstrip_headed.
Qed.

Lemma contains_lstrip c s : contains c s = false -> contains c (lstrip s) = false.
Proof.
  induction s as [|x r IH]; simpl; auto.
  intros H. destruct (isspace x); auto.
  apply orb_false_iff in H. now apply IH.
Qed.

Lemma contains_rstrip c s : contains c s = false -> contains c (rstrip s) = false.
Proof.
  induction s as [|x r IH]; auto. intros H.
  change (rstrip (String x r))
    with (if all_space (String x r) then EmptyString else String x (rstrip r)).
  destruct (all_space (String x r)); auto.
  simpl in *. apply orb_false_iff in H as [H1 H2]. rewrite H1, IH; auto.
Qed.

Lemma contains_strip c s : contains c s = false -> contains c (strip s) = false.
Proof. intros H. unfold strip. now apply contains_rstrip, contains_lstrip. Qed.

Lemma contains_snoc c acc x :
  contains c acc = false -> Ascii.eqb x c = false ->
  contains c (acc +++ String x EmptyString) = false.
Proof.
  induction acc as [|y r IH]; simpl; intros H E.
  - now rewrite E.
  - apply orb_false_iff in H as [H1 H2]. rewrite H1. simpl. now apply IH.
Qed.

(** No piece of [s.split(sep)] contains the separator. *)
Lemma split_acc_pieces sep s : forall acc piece,
  contains sep acc = false ->
  In piece (split_acc sep acc s) -> contains sep piece = false.
Proof.
  induction s as [|x r IH]; intros acc piece Hacc Hin; simpl in Hin.
  - destruct Hin as [<-|[]]. exact Hacc.
  - destruct (Ascii.eqb x sep) eqn:E.
    + destruct Hin as [<-|Hin]; auto. eapply IH; [|exact Hin]. reflexivity.
    + eapply IH; [|exact Hin]. now apply contains_snoc.
Qed.

Lemma outline_of_clean response : Forall clean_line (outline_of response).
Proof.
  unfold outline_of. apply Forall_forall. intros x Hx.
  apply in_map_iff in Hx as (line & <- & Hline).
  apply filter_In in Hline as [Hin Ht].
  split; [exact Ht|]. split; [apply strip_idempotent|].
  apply contains_strip. unfold split in Hin.
  eapply split_acc_pieces; [|exact Hin]. reflexivity.
Qed.

(* ================================================================== *)
(** * The nodes of the workflow, one by one *)

Section Nodes.

Variable ext : External.

Local Abbreviation g := (BlogWriterAgent.create_workflow ext).

Lemma research_topic_cases s :
  BlogWriterAgent.research_topic ext s
  = match search_tool_invoke ext (research_query (topic s)) with
    | Ok rs => Ok (set_research_data rs s)
    | Raise e => Raise e
    | Diverge => Diverge
    end.
Proof. reflexivity. Qed.

Lemma create_outline_cases s :
  BlogWriterAgent.create_outline ext s
  = match llm_invoke ext (outline_prompt (topic s) (research_data s)) with
    | Ok response => Ok (set_outline (outline_of response) s)
    | Raise e => Raise e
    | Diverge => Diverge
    end.
Proof. reflexivity. Qed.

Lemma index_In x l : In x l -> exists i, index x l = Some i /\ (i < List.length l)%nat.
Proof.
  induction l as [|y l IH]; simpl; [intros []|].
  intros H. destruct (String.eqb y x) eqn:E.
  - exists 0%nat. split; auto. lia.
  - destruct H as [->|H]; [rewrite String.eqb_refl in E; discriminate|].
    destruct (IH H) as (i & Hi & Hlt). exists (S i). rewrite Hi. split; auto. lia.
Qed.

(** One round of [write_section] on a state of the loop. *)
Lemma write_section_round s :
  loop_state s ->
  match BlogWriterAgent.write_section ext s with
  | Ok s' => loop_state s' /\ same_inputs s s' /\ metadata s' = metadata s
             /\ truthy (draft s') = true
  | Raise e => (exists prompt, llm_invoke ext prompt = Raise e)
               \/ (e = empty_outline /\ outline s = [])
  | Diverge => True
  end.
Proof.
  intros [Htruthy Hcur].
  assert (Hsection :
    (exists cur, In cur (outline s) /\ truthy cur = true
       /\ BlogWriterAgent.write_section ext s
          = BlogWriterAgent.write_section ext (set_current_section (Some cur) s))
    \/ (outline s = [] /\ BlogWriterAgent.write_section ext s = Raise empty_outline)).
  { destruct (current_section s) as [c|] eqn:C.
    - left. exists c. pose proof (Hcur c eq_refl) as Hin.
      split; [exact Hin|]. split; [now apply Htruthy|].
      destruct s; simpl in C; subst; reflexivity.
    - destruct (outline s) as [|cur rest] eqn:O.
      + right. split; auto.
        unfold BlogWriterAgent.write_section. rewrite C, O. reflexivity.
      + left. exists cur. split; [now left|]. split; [apply Htruthy; now left|].
        eapply write_section_first; eauto. }
  destruct Hsection as [(cur & Hin & Ht & ->) | (HO & ->)]; [|right; auto].
  destruct (index_In _ _ Hin) as (i & Hi & Hlt).
  rewrite (write_section_at ext (set_current_section (Some cur) s) cur i eq_refl Ht Hi).
  destruct (llm_invoke ext (section_prompt (set_current_section (Some cur) s) cur))
    as [response|e|] eqn:L; [|left; eauto|exact I].
  unfold after_section. simpl. repeat split; auto.
  - intros c Hc. now apply nth_error_In in Hc.
  - apply truthy_append_r. reflexivity.
Qed.

Lemma run_from_analyze f s :
  run_from g (S f) "analyze_content" s
  = match BlogWriterAgent.analyze_content ext s with
    | Ok s' => let (visited, r) := run_from g f END s' in
               ("analyze_content" :: visited, r)
    | Raise e => (["analyze_content"], Raise e)
    | Diverge => (["analyze_content"], Diverge)
    end.
Proof. reflexivity. Qed.

Lemma run_from_END_any f s :
  run_from g f END s = ([], match f with O => Diverge | S _ => Ok s end).
Proof. destruct f; reflexivity. Qed.

Lemma analyze_content_cases s :
  match BlogWriterAgent.analyze_content ext s with
  | Ok s' => s' = set_metadata (metadata_of (draft s)) s
  | Raise e => exists prompt, llm_invoke ext prompt = Raise e
  | Diverge => True
  end.
Proof.
  unfold BlogWriterAgent.analyze_content.
  match goal with |- context [llm_invoke ext ?p] => destruct (llm_invoke ext p) eqn:L end;
    eauto.
Qed.

Lemma same_inputs_trans s1 s2 s3 :
  same_inputs s1 s2 -> same_inputs s2 s3 -> same_inputs s1 s3.
Proof.
  unfold same_inputs. intros (A1 & A2 & A3 & A4 & A5) (B1 & B2 & B3 & B4 & B5).
  repeat split; congruence.
Qed.

Lemma same_inputs_refl s : same_inputs s s.
Proof. repeat split. Qed.

(** The loop from either of its two nodes: a run that returns has
    finished the state, and a run that raises met an error of the
    language model or an empty outline. *)
Lemma loop_outcome f : forall s visited r,
  loop_state s ->
  (run_from g f "write_section" s = (visited, r) ->
   match r with
   | Ok final => finished s final /\ exists n, visited = section_visits (S n)
   | Raise e => (exists prompt, llm_invoke ext prompt = Raise e)
                \/ (e = empty_outline /\ outline s = [])
   | Diverge => True
   end)
  /\ (run_from g f "should_continue" s = (visited, r) ->
      match r with
      | Ok final => finished s final
                    /\ exists n, visited = "should_continue" :: section_visits n
      | Raise e => (exists prompt, llm_invoke ext prompt = Raise e)
                   \/ (e = empty_outline /\ outline s = [])
      | Diverge => True
      end).
Proof.
  induction f as [|f IH]; intros s visited r Hs.
  - split; intros H; inversion H; subst; exact I.
  - split.
    + rewrite run_from_write_section. pose proof (write_section_round s Hs) as Hw.
      destruct (BlogWriterAgent.write_section ext s) as [s'|e|].
      * destruct Hw as (Hs' & Hsame & Hmeta & Hdraft).
        destruct (run_from g f "should_continue" s') as [v r'] eqn:E.
        intros H. inversion H; subst.
        destruct (IH s' v r Hs') as [_ IH2]. specialize (IH2 E).
        destruct r as [final|e|]; auto.
        -- destruct IH2 as ((F1 & F2 & F3 & F4) & n & ->).
           split; [|exists n; reflexivity].
           split; [eapply same_inputs_trans; eauto|auto].
        -- destruct IH2 as [IH2|(-> & HO)]; auto. right. split; auto.
           destruct Hsame as (_ & _ & _ & HO' & _). congruence.
      * intros H. inversion H; subst. exact Hw.
      * intros H. inversion H; subst. exact I.
    + rewrite run_from_should_continue.
      destruct (current_section s) as [c|] eqn:C.
      * destruct (run_from g f "write_section" s) as [v r'] eqn:E.
        intros H. inversion H; subst.
        destruct (IH s v r Hs) as [IH1 _]. specialize (IH1 E).
        destruct r as [final|e|]; auto.
        destruct IH1 as (F & n & ->). split; auto. exists (S n). reflexivity.
      * destruct (truthy (draft s)) eqn:D.
        -- destruct f as [|f'].
           ++ intros H. inversion H; subst. exact I.
           ++ rewrite run_from_analyze.
              pose proof (analyze_content_cases s) as Ha.
              destruct (BlogWriterAgent.analyze_content ext s) as [s'|e|].
              ** rewrite run_from_END_any. intros H. inversion H; subst.
                 destruct f'; auto. split; [|exists 0%nat; reflexivity].
                 split; [repeat split|]. simpl. auto.
              ** intros H. inversion H; subst. left. exact Ha.
              ** intros H. inversion H; subst. exact I.
        -- destruct (run_from g f "write_section" s) as [v r'] eqn:E.
           intros H. inversion H; subst.
           destruct (IH s v r Hs) as [IH1 _]. specialize (IH1 E).
           destruct r as [final|e|]; auto.
           destruct IH1 as (F & n & ->). split; auto. exists (S n). reflexivity.
Qed.

Lemma loop_state_outlined s response :
  current_section s = None ->
  loop_state (set_outline (outline_of response) s).
Proof.
  intros C. split.
  - intros x Hx. simpl in Hx.
    pose proof (outline_of_clean response) as Hc.
    apply (proj1 (Forall_forall _ _) Hc x Hx).
  - simpl. rewrite C. discriminate.
Qed.

(** The whole run, from the entry point. *)
Lemma run_outcome fuel topic0 visited r :
  run g fuel (set_topic topic0 BlogState_init) = (visited, r) ->
  match r with
  | Ok final =>
      exists rs response n,
        search_tool_invoke ext (research_query topic0) = Ok rs
        /\ llm_invoke ext (outline_prompt topic0 rs) = Ok response
        /\ finished
             (set_outline (outline_of response)
                (set_research_data rs (set_topic topic0 BlogState_init))) final
        /\ visited = "research" :: "create_outline" :: section_visits (S n)
  | Raise e => failure_cause ext topic0 e
  | Diverge => True
  end.
Proof.
  unfold run. change (entry_point g) with (Some "research").
  destruct fuel as [|f]; [intros H; inversion H; subst; exact I|].
  rewrite run_from_research, research_topic_cases.
  change (topic (set_topic topic0 BlogState_init)) with topic0.
  destruct (search_tool_invoke ext (research_query topic0)) as [rs|e|] eqn:S0.
  2: { intros H. inversion H; subst. left. exact S0. }
  2: { intros H. inversion H; subst. exact I. }
  destruct f as [|f].
  { intros H. inversion H; subst. exact I. }
  rewrite run_from_create_outline, create_outline_cases.
  change (topic (set_research_data rs (set_topic topic0 BlogState_init))) with topic0.
  change (research_data (set_research_data rs (set_topic topic0 BlogState_init))) with rs.
  destruct (llm_invoke ext (outline_prompt topic0 rs)) as [response|e|] eqn:L0.
  2: { intros H. inversion H; subst. right. left. eauto. }
  2: { intros H. inversion H; subst. exact I. }
  set (s0 := set_outline (outline_of response)
               (set_research_data rs (set_topic topic0 BlogState_init))).
  destruct (run_from g f "write_section" s0) as [v r'] eqn:E.
  intros H. inversion H; subst.
  assert (Hs0 : loop_state s0) by (apply loop_state_outlined; reflexivity).
  destruct (loop_outcome f s0 v r Hs0) as [Hl _]. specialize (Hl E).
  destruct r as [final|e|]; auto.
  - destruct Hl as (F & n & ->). exists rs, response, n. auto.
  - destruct Hl as [Hl|(-> & HO)].
    + right. left. exact Hl.
    + right. right. split; auto. exists rs, response. auto.
Qed.

End Nodes.

(** X10.  The outline stage.  Whatever the language model answers, the outline
    [create_outline] stores holds only lines that are not empty, carry no
    white space at either end and contain no line break; the other keys
    of the state are left as they were. *)
Theorem outline_holds_clean_lines :
  forall (ext : External) (s s' : BlogState),
    BlogWriterAgent.create_outline ext s = Ok s' ->
    Forall clean_line (outline s')
    /\ (exists response,
          llm_invoke ext (outline_prompt (topic s) (research_data s)) = Ok response
          /\ s' = set_outline (outline_of response) s).
Proof.
  intros ext s s'. rewrite create_outline_cases.
  destruct (llm_invoke ext (outline_prompt (topic s) (research_data s)))
    as [response|e|]; try discriminate.
  intros H. inversion H; subst. split.
  - apply outline_of_clean.
  - exists response. auto.
Qed.

Lemma outline_holds_clean_lines_witness :
  Forall clean_line
    (outline (set_outline
                (outline_of (" Intro " +++ nl +++ nl +++ "Body  "))
                (set_topic "Proofs" BlogState_init))).
Proof.
  pose (e := mkExternal (search_tool_invoke ext_sample)
               (fun _ => Ok (" Intro " +++ nl +++ nl +++ "Body  "))
               (model_embed_one ext_sample) (slugify ext_sample) (isoformat ext_sample)
               (str_datetime ext_sample) (repr_float ext_sample)).
  apply (outline_holds_clean_lines e (set_topic "Proofs" BlogState_init)).
  reflexivity.
Defined.

(** X11.  The result of the workflow.  When [workflow.run] returns, the state
    it returns holds the topic it was given, the hits of the search
    tool, the outline read off the answer of the language model, no
    current section, a draft that is not empty, the three fixed suggested
    tags with the read time of the draft at 200 words a minute, and the
    status it started with; the run went through the research and outline
    nodes once and through the section loop at least once. *)
Theorem workflow_result :
  forall (ext : External) (fuel : nat) (topic0 : string)
         (visited : list string) (final : BlogState),
    run (BlogWriterAgent.create_workflow ext) fuel (set_topic topic0 BlogState_init)
    = (visited, Ok final) ->
    exists rs response n,
      search_tool_invoke ext (research_query topic0) = Ok rs
      /\ llm_invoke ext (outline_prompt topic0 rs) = Ok response
      /\ topic final = topic0
      /\ research_data final = rs
      /\ outline final = outline_of response
      /\ current_section final = None
      /\ truthy (draft final) = true
      /\ metadata final = metadata_of (draft final)
      /\ status final = "initialized"
      /\ visited = "research" :: "create_outline" :: section_visits (S n).
Proof.
  intros ext fuel topic0 visited final H.
  pose proof (run_outcome ext fuel topic0 visited (Ok final) H) as Hr.
  destruct Hr as (rs & response & n & HS & HL & F & Hv).
  destruct F as ((F1 & F2 & F3 & F4 & F5) & F6 & F7 & F8).
  exists rs, response, n. simpl in *. repeat split; auto.
Qed.

Lemma workflow_result_witness :
  exists visited final,
    run (BlogWriterAgent.create_workflow ext_sample) 10 (set_topic "Proofs" BlogState_init)
    = (visited, Ok final)
    /\ outline final = ["Intro"; "Body"; "Outro"]
    /\ suggested_tags (metadata final) = ["AI"; "Technology"; "Tutorial"].
Proof.
  eexists. eexists. split; [vm_compute; reflexivity|].
  destruct (workflow_result ext_sample 10 "Proofs" _ _ ltac:(vm_compute; reflexivity))
    as (rs & response & n & _ & HL & _ & _ & HO & _ & _ & HM & _).
  split.
  - rewrite HO. inversion HL. reflexivity.
  - rewrite HM. reflexivity.
Defined.

(** X12.  Why the workflow fails.  When [workflow.run] raises, the error is
    one the search tool raised on the research query, or one the language
    model raised on a prompt, or the [IndexError] of reading the first
    entry of an outline that came out empty.  Looking up the current
    section in the outline and following the edges of the graph never
    fail. *)
Theorem workflow_fails_from_outside_or_on_empty_outline :
  forall (ext : External) (fuel : nat) (topic0 : string)
         (visited : list string) (e : exn),
    run (BlogWriterAgent.create_workflow ext) fuel (set_topic topic0 BlogState_init)
    = (visited, Raise e) ->
    failure_cause ext topic0 e.
Proof.
  intros ext fuel topic0 visited e H.
  exact (run_outcome ext fuel topic0 visited (Raise e) H).
Qed.

Lemma workflow_fails_from_outside_or_on_empty_outline_witness :
  failure_cause ext_blank "Proofs" empty_outline.
Proof.
  apply (workflow_fails_from_outside_or_on_empty_outline ext_blank 5 "Proofs"
           ["research"; "create_outline"; "write_section"]).
  vm_compute. reflexivity.
Defined.

(* ================================================================== *)
(** * [write_blog]: failures of the pipeline, the queue, a taken slug *)

Section WriteBlogRuns.

Variable ext : External.
Variable fuel : nat.

Lemma bind_Raise {A B} (m : M A) (f : A -> M B) w e w1 :
  m w = (Raise e, w1) -> bind m f w = (Raise e, w1).
Proof. intros H. unfold bind. now rewrite H. Qed.

(** The handlers: whatever the [try] block raised is logged, rolled back
    and reported. *)
Lemma write_blog_handles topic author tgs w e w1 :
  write_blog_body ext fuel topic author tgs w = (Raise e, w1) ->
  write_blog ext fuel topic author tgs w = (Ok (failure_record e), after_failure e w1).
Proof.
  intros H. unfold write_blog, try_except. rewrite H.
  unfold failure_record, after_failure.
  destruct (is_SQLAlchemyError e); reflexivity.
Qed.

(** A pipeline that raises ends the [try] block at once. *)
Lemma write_blog_body_pipeline_raises topic author tgs w e :
  snd (run (BlogWriterAgent.create_workflow ext) fuel (set_topic topic BlogState_init))
  = Raise e ->
  write_blog_body ext fuel topic author tgs w = (Raise e, w).
Proof.
  intros H. unfold write_blog_body, bind, lift. rewrite H. reflexivity.
Qed.

Lemma run_on_empty_outline topic0 rs response f :
  search_tool_invoke ext (research_query topic0) = Ok rs ->
  llm_invoke ext (outline_prompt topic0 rs) = Ok response ->
  outline_of response = [] ->
  run (BlogWriterAgent.create_workflow ext) (S (S (S f))) (set_topic topic0 BlogState_init)
  = (["research"; "create_outline"; "write_section"], Raise empty_outline).
Proof.
  intros HS HL HO. unfold run.
  change (entry_point (BlogWriterAgent.create_workflow ext)) with (Some "research").
  cbv iota. rewrite run_from_research, research_topic_cases.
  change (topic (set_topic topic0 BlogState_init)) with topic0. rewrite HS.
  rewrite run_from_create_outline, create_outline_cases.
  change (topic (set_research_data rs (set_topic topic0 BlogState_init))) with topic0.
  change (research_data (set_research_data rs (set_topic topic0 BlogState_init))) with rs.
  rewrite HL, HO. rewrite run_from_write_section. reflexivity.
Qed.

(** ** The queue and the session *)

Lemma queue_write_blog q topic author tgs :
  preserves (fun w => queue w = q) (write_blog ext fuel topic author tgs).
Proof. apply preserves_write_blog; first [apply queue_flush_op | untouched]. Qed.

Lemma obj_article_Ok h w a w1 : obj_article h w = (Ok a, w1) -> w1 = w.
Proof.
  unfold obj_article. destruct (nth_error (heap w) h) as [[?|?|?]|]; intros H;
    inversion H; reflexivity.
Qed.

Lemma write_blog_body_Ok_clean topic author tgs w d w1 :
  write_blog_body ext fuel topic author tgs w = (Ok d, w1) ->
  pending w1 = [] /\ txn w1 = committed w1.
Proof.
  unfold write_blog_body. intros H.
  apply bind_Ok in H as (result & wa & _ & H).
  apply bind_Ok in H as (h & wb & _ & H).
  apply bind_Ok in H as ([] & wc & _ & H).
  apply bind_Ok in H as ([] & wd & _ & H).
  apply bind_Ok in H as ([] & we & Hcommit & H).
  destruct (commit_Ok 0 _ _ Hcommit) as (Hc & Hp & _).
  apply bind_Ok in H as (a & wf & Ha & H).
  apply obj_article_Ok in Ha. subst wf.
  apply bind_Ok in H as ([] & wg & Hl & H).
  unfold logger, modify in Hl. inversion Hl; subst wg. clear Hl.
  apply bind_Ok in H as (c & wh & Hm & H).
  destruct (Article.created_at a); [|discriminate].
  inversion Hm; subst. inversion H; subst. simpl. auto.
Qed.

Lemma write_blog_clean topic author tgs w r w1 :
  write_blog ext fuel topic author tgs w = (r, w1) ->
  r = Diverge \/ (pending w1 = [] /\ txn w1 = committed w1).
Proof.
  intros H.
  destruct (write_blog_body ext fuel topic author tgs w) as [[d|e|] w0] eqn:E.
  - unfold write_blog, try_except in H. rewrite E in H. inversion H; subst.
    right. eapply write_blog_body_Ok_clean; eauto.
  - rewrite (write_blog_handles _ _ _ _ _ _ E) in H. inversion H; subst.
    right. split; reflexivity.
  - unfold write_blog, try_except in H. rewrite E in H. inversion H; subst. now left.
Qed.

(** ** A slug that is taken *)

Lemma slug_found s (l : list Article.t) :
  (exists a, In a l /\ Article.slug a = s) ->
  existsb (fun r => String.eqb (Article.slug r) s) l = true.
Proof.
  intros (a & Hin & Hs). apply existsb_exists. exists a. split; auto.
  rewrite Hs. apply String.eqb_refl.
Qed.

(** The INSERT of an article whose slug is taken is refused with a
    database error. *)
Lemma insert_article_taken h a w :
  slug_taken (Article.slug a) (txn w) ->
  exists e, insert_article h a w = (Raise e, w) /\ is_SQLAlchemyError e = true.
Proof.
  intros Hs. apply slug_found in Hs. unfold insert_article.
  destruct (too_long (Article.slug a) || too_long (Article.title a)); [eauto|].
  destruct (Article.author_id a) as [u|]; [|eauto].
  destruct (negb (existsb (Z.eqb u) (users (txn w)))); [eauto|].
  rewrite Hs. eauto.
Qed.

Lemma flush_taken h a w :
  pending w = [PInsert h] ->
  nth_error (heap w) h = Some (OArticle a) ->
  slug_taken (Article.slug a) (txn w) ->
  exists e, flush w = (Raise e, w) /\ is_SQLAlchemyError e = true.
Proof.
  intros Hp Hh Hs. destruct (insert_article_taken h a w Hs) as (e & He & Hsql).
  exists e. split; auto.
  unfold flush, bind, gets. rewrite Hp. simpl. unfold bind. rewrite Hh, He. reflexivity.
Qed.

Lemma taken_slug_refused topic author tgs w result :
  session_clean w ->
  slug_taken (slugify ext topic) (committed w) ->
  snd (run (BlogWriterAgent.create_workflow ext) fuel (set_topic topic BlogState_init))
  = Ok result ->
  exists e,
    write_blog ext fuel topic author tgs w
    = (Ok (failure_record e),
       after_failure e (with_pending [PInsert (List.length (heap w))]
                          (with_heap (heap w ++ [OArticle (new_article (slugify ext topic)
                                                     topic (draft result) author)]) w)))
    /\ is_SQLAlchemyError e = true.
Proof.
  intros [Hp Ht] Hs Hrun.
  set (a0 := new_article (slugify ext topic) topic (draft result) author).
  set (w3 := with_pending [PInsert (List.length (heap w))]
               (with_heap (heap w ++ [OArticle a0]) w)).
  destruct (flush_taken (List.length (heap w)) a0 w3) as (e & Hf & Hsql).
  { reflexivity. }
  { apply nth_error_snoc. }
  { simpl. rewrite Ht. exact Hs. }
  exists e. split; [|exact Hsql].
  apply write_blog_handles.
  assert (Hstart : forall k : nat -> M (list (string * PyVal)),
             bind (new_obj (OArticle a0))
                  (fun article => bind (session_add article) (fun _ => k article)) w
             = k (List.length (heap w)) w3).
  { intros k. unfold bind, new_obj, session_add, modify. cbn [pending with_heap].
    rewrite Hp. reflexivity. }
  unfold write_blog_body, bind at 1, lift. rewrite Hrun. fold a0.
  rewrite Hstart.
  assert (Hcommit : forall B (k : unit -> M B), bind commit k w3 = (Raise e, w3)).
  { intros B k. apply bind_Raise. unfold commit. apply bind_Raise. exact Hf. }
  destruct tgs as [[|t ts]|].
  - apply (Hcommit _ _).
  - cbv beta iota. apply bind_Raise. cbn [for_each]. apply bind_Raise. cbv beta.
    apply bind_Raise. unfold get_or_create_tag.
    apply bind_Raise. unfold Tag_query_filter_by_name_first. apply bind_Raise. exact Hf.
  - apply (Hcommit _ _).
Qed.

End WriteBlogRuns.

(** X13.  An empty outline.  When the search tool answers and the language
    model answers the outline prompt with blank lines only, the workflow
    stops at its first [write_section] with the [IndexError] of an empty
    list, and the blog-writing task returns the error record of the
    unexpected kind with that message; nothing is committed or queued. *)
Theorem write_blog_reports_an_empty_outline :
  forall (ext : External) (fuel : nat) (topic : string) (author : Z)
         (tgs : option (list string)) (w : World)
         (rs : list SearchResult) (response : string),
    (3 <= fuel)%nat ->
    search_tool_invoke ext (research_query topic) = Ok rs ->
    llm_invoke ext (outline_prompt topic rs) = Ok response ->
    outline_of response = [] ->
    run (BlogWriterAgent.create_workflow ext) fuel (set_topic topic BlogState_init)
    = (["research"; "create_outline"; "write_section"], Raise empty_outline)
    /\ write_blog ext fuel topic author tgs w
       = (Ok [("status", VStr "error");
              ("error", VStr "An unexpected error occurred");
              ("details", VStr "list index out of range")],
          after_failure empty_outline w)
    /\ committed (after_failure empty_outline w) = committed w
    /\ queue (after_failure empty_outline w) = queue w.
Proof.
  intros ext fuel topic author tgs w rs response Hfuel HS HL HO.
  destruct fuel as [|[|[|f]]]; try lia.
  pose proof (run_on_empty_outline ext topic rs response f HS HL HO) as Hrun.
  split; [exact Hrun|]. split; [|split; reflexivity].
  apply (write_blog_handles ext (S (S (S f))) topic author tgs w empty_outline w).
  apply write_blog_body_pipeline_raises. now rewrite Hrun.
Qed.

Lemma write_blog_reports_an_empty_outline_witness :
  fst (write_blog ext_blank 5 "Proofs" 1 (Some ["x"]) world_sample)
  = Ok [("status", VStr "error");
        ("error", VStr "An unexpected error occurred");
        ("details", VStr "list index out of range")].
Proof.
  destruct (write_blog_reports_an_empty_outline ext_blank 5 "Proofs" 1 (Some ["x"])
              world_sample [mkSearchResult "Rocq" "A proof assistant."]
              ("  " +++ nl +++ " ")
              ltac:(lia) eq_refl eq_refl eq_refl) as (_ & E & _).
  rewrite E. reflexivity.
Defined.

(** X14.  The blog-writing task, the queue and the session.  However a run of
    [write_blog] ends, it has put nothing on the task queue: no embedding
    job is requested for the article it stores.  Unless the pipeline does
    not come back, the run leaves the session with nothing pending and
    the transaction equal to the committed store. *)
Theorem write_blog_queues_nothing :
  forall (ext : External) (fuel : nat) (topic : string) (author : Z)
         (tgs : option (list string)) (w : World),
    queue (snd (write_blog ext fuel topic author tgs w)) = queue w
    /\ (fst (write_blog ext fuel topic author tgs w) = Diverge
        \/ (pending (snd (write_blog ext fuel topic author tgs w)) = []
            /\ txn (snd (write_blog ext fuel topic author tgs w))
               = committed (snd (write_blog ext fuel topic author tgs w)))).
Proof.
  intros ext fuel topic author tgs w.
  destruct (write_blog ext fuel topic author tgs w) as [r w1] eqn:E. simpl. split.
  - apply (queue_write_blog ext fuel (queue w) topic author tgs w r w1 eq_refl E).
  - eapply write_blog_clean; eauto.
Qed.

(** X15.  A slug that is taken.  In a fresh session on a store that already
    holds an article with the slug of the topic, a run of [write_blog]
    whose pipeline returns a draft ends in the error record of the
    database kind, and the store is as before. *)
Theorem write_blog_refuses_a_taken_slug :
  forall (ext : External) (fuel : nat) (topic : string) (author : Z)
         (tgs : option (list string)) (w : World) (result : BlogState),
    session_clean w ->
    slug_taken (slugify ext topic) (committed w) ->
    snd (run (BlogWriterAgent.create_workflow ext) fuel (set_topic topic BlogState_init))
    = Ok result ->
    exists e w',
      write_blog ext fuel topic author tgs w
      = (Ok [("status", VStr "error");
             ("error", VStr "Database error occurred");
             ("details", VStr (exn_str e))], w')
      /\ is_SQLAlchemyError e = true
      /\ committed w' = committed w
      /\ session_clean w'.
Proof.
  intros ext fuel topic author tgs w result Hc Hs Hrun.
  destruct (taken_slug_refused ext fuel topic author tgs w result Hc Hs Hrun)
    as (e & E & Hsql).
  exists e. eexists. split.
  { rewrite E. unfold failure_record. rewrite Hsql. reflexivity. }
  split; [exact Hsql|]. split; [reflexivity|]. split; reflexivity.
Qed.

Lemma write_blog_refuses_a_taken_slug_witness :
  exists e w',
    write_blog ext_sample 10 "a" 1 None world_sample
    = (Ok [("status", VStr "error");
           ("error", VStr "Database error occurred");
           ("details", VStr (exn_str e))], w')
    /\ is_SQLAlchemyError e = true
    /\ committed w' = committed world_sample
    /\ session_clean w'.
Proof.
  eapply (write_blog_refuses_a_taken_slug ext_sample 10 "a" 1 None world_sample).
  - split; reflexivity.
  - eexists. split; [left; reflexivity | reflexivity].
  - vm_compute. reflexivity.
Defined.





(* ================================================================== *)
(** * The INSERT of a new article *)

Lemma insert_article_Ok h a w w1 :
  insert_article h a w = (Ok tt, w1) ->
  w1 = with_heap (list_set h (OArticle (stored a w)) (heap w))
         (with_seq_article (seq_article w + 1)
            (with_txn (with_articles (articles (txn w) ++ [stored a w]) (txn w)) w)).
Proof.
  unfold insert_article.
  destruct (too_long (Article.slug a) || too_long (Article.title a)); [discriminate|].
  destruct (Article.author_id a) as [u|]; [|discriminate].
  destruct (negb (existsb (Z.eqb u) (users (txn w)))); [discriminate|].
  destruct (existsb _ (articles (txn w))); [discriminate|].
  intros H. inversion H; subst. reflexivity.
Qed.

(** The flush of a session that holds one new article and nothing else. *)
Lemma flush_one_article h a w w1 :
  pending w = [PInsert h] ->
  nth_error (heap w) h = Some (OArticle a) ->
  flush w = (Ok tt, w1) ->
  w1 = with_pending []
         (with_heap (list_set h (OArticle (stored a w)) (heap w))
            (with_seq_article (seq_article w + 1)
               (with_txn (with_articles (articles (txn w) ++ [stored a w]) (txn w)) w))).
Proof.
  intros Hp Hh H. unfold flush in H.
  apply bind_Ok in H as (ops & w0 & H0 & H). inversion H0; subst ops w0. clear H0.
  rewrite Hp in H.
  apply bind_Ok in H as ([] & w2 & H2 & H). inversion H; subst w1. clear H.
  simpl in H2. apply bind_Ok in H2 as ([] & w3 & H3 & H2). inversion H2; subst w3.
  rewrite Hh in H3. apply insert_article_Ok in H3. now subst w2.
Qed.

(* ================================================================== *)
(** * [write_blog] only adds rows *)

Lemma grows_flush_op T AT U op : preserves (grows T AT U) (flush_op op).
Proof.
  intros w r w' (H1 & H2 & H3 & H4 & H5 & H6) H.
  break_flush_op H; repeat split; auto;
    cbn [txn tags article_tags with_txn with_tags with_article_tags with_articles
         with_heap with_seq_tag with_seq_article_tag with_seq_article];
    now apply extends_app.
Qed.

Ltac grows_side :=
  first [ apply grows_flush_op
        | untouched
        | (intros ? (? & ? & ? & ? & ? & ?); repeat split; assumption) ].

Lemma grows_write_blog T AT U ext fuel topic author tgs :
  preserves (grows T AT U) (write_blog ext fuel topic author tgs).
Proof.
  apply preserves_write_blog; grows_side.
Qed.

Lemma write_blog_articles ext fuel topic author tgs w r w' :
  session_clean w ->
  write_blog ext fuel topic author tgs w = (r, w') ->
  extends (articles (committed w)) (articles (committed w')).
Proof.
  intros [Hp Ht] H.
  destruct (write_blog_body ext fuel topic author tgs w) as [r0 w0] eqn:E.
  destruct (write_blog_body_outcome ext fuel topic author tgs w _ _ Hp E)
    as [(result & a & dt & _ & _ & _ & Hrows & ->) | (Hno & Hc)].
  - unfold write_blog, try_except in H. rewrite E in H. inversion H; subst.
    exists [a]. now rewrite Hrows, Ht.
  - destruct r0 as [d|e|]; [discriminate| |].
    + rewrite (write_blog_handles _ _ _ _ _ _ _ _ E) in H. inversion H; subst.
      cbn. rewrite Hc. apply extends_refl.
    + unfold write_blog, try_except in H. rewrite E in H. inversion H; subst.
      rewrite Hc. apply extends_refl.
Qed.

(** X21.  The blog-writing task only adds rows.  In a fresh session, however
    a run of [write_blog] ends, the committed [articles], [tags] and
    [article_tags] tables are the ones before the run with rows added at
    the end, and the [users] table is the same: no stored row is changed
    or removed. *)
Theorem write_blog_only_adds_rows :
  forall (ext : External) (fuel : nat) (topic : string) (author : Z)
         (tgs : option (list string)) (w w' : World) (r : Res (list (string * PyVal))),
    session_clean w ->
    write_blog ext fuel topic author tgs w = (r, w') ->
    extends (articles (committed w)) (articles (committed w'))
    /\ extends (tags (committed w)) (tags (committed w'))
    /\ extends (article_tags (committed w)) (article_tags (committed w'))
    /\ users (committed w') = users (committed w).
Proof.
  intros ext fuel topic author tgs w w' r Hc H.
  split; [eapply write_blog_articles; eauto|].
  destruct Hc as [Hp Ht].
  assert (G : grows (tags (committed w)) (article_tags (committed w))
                    (users (committed w)) w).
  { unfold grows. rewrite Ht. repeat split; apply extends_refl. }
  destruct (grows_write_blog _ _ _ ext fuel topic author tgs _ _ _ G H)
    as (_ & H2 & _ & H4 & _ & H6).
  auto.
Qed.

Lemma write_blog_only_adds_rows_witness :
  exists r w',
    write_blog ext_sample 10 "Proofs" 1 (Some ["x"; "new"]) world_sample = (r, w')
    /\ extends (tags (committed world_sample)) (tags (committed w'))
    /\ extends (article_tags (committed world_sample)) (article_tags (committed w')).
Proof.
  destruct (write_blog ext_sample 10 "Proofs" 1 (Some ["x"; "new"]) world_sample)
    as [r w'] eqn:E.
  exists r, w'. split; [reflexivity|].
  destruct (write_blog_only_adds_rows ext_sample 10 "Proofs" 1 (Some ["x"; "new"])
              world_sample w' r (conj eq_refl eq_refl) E) as (_ & H1 & H2 & _).
  split; [exact H1 | exact H2].
Defined.

(* ================================================================== *)
(** * [write_blog]: the tags of the new article *)

Section NewArticleTags.

Variable h : nat.
Variable A : list Article.t.

Lemma to_insert_flush_stored a0 w w1 :
  to_insert h a0 A w -> flush w = (Ok tt, w1) ->
  inserted h (stored a0 w) A w1 /\ pending w1 = [].
Proof.
  intros [Ho Hlast Hp Hr] Hf.
  rewrite (flush_one_article _ _ _ _ Hp Ho Hf). split; [|reflexivity].
  split; cbn [heap txn articles with_pending with_heap with_seq_article with_txn
              with_articles].
  - eapply nth_error_list_set_same; eauto.
  - now rewrite Hr.
  - intros h' o Hlt Hn. rewrite nth_error_list_set_other in Hn by lia.
    assert (nth_error (heap w) h' = None) by (apply nth_error_None; lia).
    congruence.
Qed.

Lemma placed_flush a0 a w w1 :
  placed h a0 a A w -> flush w = (Ok tt, w1) ->
  inserted h a A w1 /\ pending w1 = [].
Proof.
  intros [(Ht & <-) | (Hi & Hp)] Hf.
  - eapply to_insert_flush_stored; eauto.
  - eapply inserted_flush; eauto.
Qed.

Lemma placed_get_or_create_tag a0 a n w g w1 :
  placed h a0 a A w -> get_or_create_tag n w = (Ok g, w1) ->
  inserted h a A w1 /\ pending w1 = [].
Proof.
  unfold get_or_create_tag. intros Hr H.
  apply bind_Ok in H as (found & wa & Hq & H).
  unfold Tag_query_filter_by_name_first in Hq.
  apply bind_Ok in Hq as ([] & wf & Hf & Hq).
  inversion Hq; subst wa found. clear Hq.
  destruct (placed_flush _ _ _ _ Hr Hf) as (Hi & Hp).
  destruct (find _ (tags (txn wf))) as [g0|].
  - inversion H; subst. auto.
  - apply bind_Ok in H as (h' & wb & Hn & H).
    inversion Hn; subst h' wb. clear Hn.
    apply bind_Ok in H as ([] & wc & Ha & H).
    inversion Ha; subst wc. clear Ha.
    apply bind_Ok in H as ([] & wd & Hfl & H).
    assert (Hw : w1 = wd).
    { unfold obj_tag in H. destruct (nth_error (heap wd) _) as [[?|?|?]|]; inversion H; auto. }
    subst w1. eapply inserted_flush; [| |exact Hfl].
    + eapply inserted_frame;
        [apply (inserted_new_obj h A a (OTag (Tag.mk None (Some n))) wf Hi)
        | reflexivity | reflexivity].
      reflexivity.
    + unfold pending_after. cbn [pending with_pending with_heap]. rewrite Hp.
      constructor; [|constructor]. eexists. split; [reflexivity|].
      now apply (inserted_lt h A a).
Qed.

(** Once the article is placed, the loop body of [write_blog] does what
    the loop body of [put] does for the key of its row. *)
Lemma tag_loop_body_as_put a0 a i n w w1 :
  placed h a0 a A w -> Article.id a = Some i ->
  tag_loop_body h n w = (Ok tt, w1) ->
  put_loop_body (Some i) n w = (Ok tt, w1) /\ placed h a0 a A w1.
Proof.
  unfold tag_loop_body. intros Hr Hid H.
  apply bind_Ok in H as (g & wa & Hg & H).
  destruct (placed_get_or_create_tag _ _ _ _ _ _ Hr Hg) as (Hi & Hp).
  apply bind_Ok in H as (a' & wb & Ho & H).
  pose proof Hi as [Hobj _ _].
  unfold obj_article in Ho. rewrite Hobj in Ho. inversion Ho; subst a' wb. clear Ho.
  rewrite Hid in H. split.
  - unfold put_loop_body, bind at 1. rewrite Hg. exact H.
  - apply bind_Ok in H as (h' & wc & Hn & H).
    inversion Hn; subst h' wc. clear Hn.
    inversion H; subst w1. clear H.
    right. split.
    + eapply inserted_frame;
        [apply (inserted_new_obj h A a
                  (OArticleTag (ArticleTag.mk None (Some i) (Tag.id g))) wa Hi)
        | reflexivity | reflexivity].
      reflexivity.
    + unfold pending_after. cbn [pending with_pending with_heap]. rewrite Hp.
      constructor; [|constructor]. eexists. split; [reflexivity|].
      now apply (inserted_lt h A a).
Qed.

Lemma tag_loop_as_put a0 a i names : forall w w1,
  placed h a0 a A w -> Article.id a = Some i ->
  for_each names (tag_loop_body h) w = (Ok tt, w1) ->
  for_each names (put_loop_body (Some i)) w = (Ok tt, w1) /\ placed h a0 a A w1.
Proof.
  induction names as [|n names IH]; intros w w1 Hr Hid H; simpl in H |- *.
  - inversion H; subst. auto.
  - apply bind_Ok in H as ([] & w0 & H0 & H).
    destruct (tag_loop_body_as_put _ _ _ _ _ _ Hr Hid H0) as (Hput & Hr0).
    destruct (IH _ _ Hr0 Hid H) as (Hrest & Hr1).
    split; [|exact Hr1]. unfold bind at 1. rewrite Hput. exact Hrest.
Qed.

Lemma placed_commit a0 a w w1 :
  placed h a0 a A w -> commit w = (Ok tt, w1) ->
  articles (committed w1) = A ++ [a].
Proof.
  unfold commit. intros Hr H.
  apply bind_Ok in H as ([] & wf & Hf & H).
  inversion H; subst w1. clear H.
  destruct (placed_flush _ _ _ _ Hr Hf) as ([_ Hrows _] & _).
  exact Hrows.
Qed.

End NewArticleTags.

Lemma session_tag_ids_article k w h a :
  pending w = [PInsert h] -> nth_error (heap w) h = Some (OArticle a) ->
  session_tag_ids k w = map ArticleTag.tag_id (associations k (txn w)).
Proof.
  intros Hp Hh. unfold session_tag_ids. rewrite Hp. simpl. rewrite Hh.
  now rewrite app_nil_r.
Qed.

(** What a run of the [try] block that returns has stored. *)
Lemma write_blog_body_Ok_associations ext fuel topic author tgs w d w' :
  store_ok w ->
  session_clean w ->
  associations (seq_article w) (committed w) = [] ->
  write_blog_body ext fuel topic author tgs w = (Ok d, w') ->
  exists a,
    articles (committed w') = articles (committed w) ++ [a]
    /\ Article.id a = Some (seq_article w)
    /\ associated_tag_names (seq_article w) (committed w') = map Some (from_opt tgs []).
Proof.
  intros Hok Hclean Hfresh H.
  pose proof (tags_inv_start _ Hok Hclean) as HJ.
  destruct Hclean as [Hp Ht].
  set (i := seq_article w) in *.
  set (base := tags (committed w)) in *.
  unfold write_blog_body in H.
  apply bind_Ok in H as (result & wa & H0 & H).
  unfold lift in H0. inversion H0 as [[Hrun Hwa]]. subst wa. clear H0.
  apply bind_Ok in H as (h & wb & H1 & H).
  inversion H1 as [[Hh Hwb]]. clear H1.
  apply bind_Ok in H as ([] & wc & H1 & H).
  inversion H1 as [Hwc]. clear H1.
  set (a0 := new_article (slugify ext topic) topic (draft result) author) in *.
  assert (Hw3 : wc = with_pending [PInsert (List.length (heap w))]
                       (with_heap (heap w ++ [OArticle a0]) w)).
  { subst wc wb h. cbn [pending with_heap]. rewrite Hp. reflexivity. }
  clear Hwc Hwb. subst h.
  set (h := List.length (heap w)) in *.
  set (A := articles (txn w)).
  set (a := stored a0 wc).
  assert (Hplaced : placed h a0 a A wc).
  { left. split; [|reflexivity]. subst wc. split;
      cbn [heap pending txn with_pending with_heap].
    - apply nth_error_snoc.
    - rewrite length_app. simpl. fold h. lia.
    - reflexivity.
    - reflexivity. }
  assert (Hid : Article.id a = Some i) by (subst a wc; reflexivity).
  assert (HJ3 : tags_inv base wc).
  { subst wc. apply (tags_inv_frame base w); auto; simpl; lia. }
  assert (Hs3 : session_tag_ids i wc = []).
  { rewrite (session_tag_ids_article i wc h a0).
    - subst wc. cbn [txn with_pending with_heap]. rewrite Ht. fold i in Hfresh.
      now rewrite Hfresh.
    - subst wc. reflexivity.
    - subst wc. cbn [heap with_pending with_heap]. apply nth_error_snoc. }
  apply bind_Ok in H as ([] & w4 & Hloop & H).
  assert (H4 : tags_inv base w4
               /\ map (tag_name_of (txn w4)) (session_tag_ids i w4)
                  = map Some (from_opt tgs [])
               /\ placed h a0 a A w4).
  { destruct tgs as [[|t ts]|].
    - inversion Hloop; subst w4. rewrite Hs3. auto.
    - destruct (tag_loop_as_put h A a0 a i (t :: ts) wc w4 Hplaced Hid Hloop)
        as (Hput & Hpl4).
      destruct (put_loop_Ok base i (t :: ts) [] wc w4 Hput HJ3) as (HJ4 & Hn4).
      { now rewrite Hs3. }
      auto.
    - inversion Hloop; subst w4. rewrite Hs3. auto. }
  destruct H4 as (HJ4 & Hn4 & Hpl4). clear Hloop.
  apply bind_Ok in H as ([] & w5 & Hc & H).
  destruct (commit_Ok i _ _ Hc) as (Hcm & Hp5 & Hs5 & Hext).
  pose proof (placed_commit h A a0 a _ _ Hpl4 Hc) as Hrows.
  apply bind_Ok in H as (a' & w6 & Ho & H).
  apply obj_article_Ok in Ho. subst w6.
  apply bind_Ok in H as ([] & w7 & Hl & H).
  unfold logger, modify in Hl. inversion Hl; subst w7. clear Hl.
  apply bind_Ok in H as (c & w8 & Hm & H).
  destruct (Article.created_at a'); [|discriminate].
  inversion Hm; subst c w8. inversion H; subst d w'. clear Hm H.
  cbn [committed with_log].
  exists a. split; [rewrite Hrows; subst A; now rewrite Ht|]. split; [exact Hid|].
  unfold associated_tag_names. rewrite Hcm, <- map_map.
  assert (E : map ArticleTag.tag_id (associations i (txn w5)) = session_tag_ids i w5).
  { unfold session_tag_ids. rewrite Hp5. simpl. now rewrite app_nil_r. }
  rewrite E, Hs5. eapply map_names_extends; eauto.
Qed.

(** X22.  The tags of a written article.  On a store with unique tag names
    where no association row refers to the next article key, a run of
    [write_blog] in a fresh session that reports success has stored one
    new article under that key, and the tag associations of the article
    resolve, in row order, to exactly the tag names the run was given
    (none when it was given no list). *)
Theorem write_blog_tags_the_article :
  forall (ext : External) (fuel : nat) (topic : string) (author : Z)
         (tgs : option (list string)) (w w' : World) (d : list (string * PyVal)),
    store_ok w ->
    session_clean w ->
    associations (seq_article w) (committed w) = [] ->
    write_blog ext fuel topic author tgs w = (Ok d, w') ->
    completed_successfully (Task (Ok d)) = true ->
    exists a,
      articles (committed w') = articles (committed w) ++ [a]
      /\ Article.id a = Some (seq_article w)
      /\ associated_tag_names (seq_article w) (committed w') = map Some (from_opt tgs []).
Proof.
  intros ext fuel topic author tgs w w' d Hok Hclean Hfresh H Hs.
  apply write_blog_success in H; [|exact Hs].
  eapply write_blog_body_Ok_associations; eauto.
Qed.

Lemma write_blog_tags_the_article_witness :
  exists d w',
    write_blog ext_sample 10 "Proofs" 1 (Some ["x"; "new"]) world_sample = (Ok d, w')
    /\ associated_tag_names 2 (committed w') = [Some "x"; Some "new"].
Proof.
  destruct (write_blog ext_sample 10 "Proofs" 1 (Some ["x"; "new"]) world_sample)
    as [[d| |] w'] eqn:E; try (vm_compute in E; discriminate).
  destruct (write_blog_tags_the_article ext_sample 10 "Proofs" 1 (Some ["x"; "new"])
              world_sample w' d store_ok_world_sample (conj eq_refl eq_refl) eq_refl E)
    as (a & _ & _ & Hn).
  - vm_compute in E. inversion E. reflexivity.
  - exists d, w'. split; [reflexivity | exact Hn].
Defined.

(* ================================================================== *)
(** * Get-or-create, asked twice *)

Lemma find_app_none {A} (f : A -> bool) l l' :
  find f l = None -> find f (l ++ l') = find f l'.
Proof.
  induction l as [|x l IH]; simpl; auto.
  destruct (f x); [discriminate | exact IH].
Qed.

(** The row a get-or-create returns is the one the query for the name
    finds from then on. *)
Lemma get_or_create_tag_found n w g w1 :
  get_or_create_tag n w = (Ok g, w1) ->
  find (fun x => name_is (Tag.name x) n) (tags (txn w1)) = Some g.
Proof.
  unfold get_or_create_tag. intros H.
  apply bind_Ok in H as (found & wa & Hq & H).
  unfold Tag_query_filter_by_name_first in Hq.
  apply bind_Ok in Hq as ([] & wf & Hf & Hq).
  inversion Hq; subst wa found. clear Hq.
  assert (Hpf : pending wf = []) by (eapply (flush_tag_ids 0); eauto).
  destruct (find _ (tags (txn wf))) as [g0|] eqn:F.
  - inversion H; subst. exact F.
  - apply bind_Ok in H as (h & wb & Hn & H).
    inversion Hn; subst h wb. clear Hn.
    apply bind_Ok in H as ([] & wc & Ha & H).
    inversion Ha; subst wc. clear Ha.
    apply bind_Ok in H as ([] & wd & Hfl & H).
    apply flush_Ok in Hfl. destruct Hfl as (we & Hops & ->).
    simpl in Hops. rewrite Hpf in Hops. simpl in Hops.
    apply bind_Ok in Hops as ([] & wg & Hins & Hret).
    inversion Hret; subst we. clear Hret.
    cbn [heap with_pending with_heap] in Hins.
    rewrite nth_error_snoc in Hins.
    unfold insert_tag in Hins. cbn [Tag.name] in Hins.
    destruct (too_long n); [discriminate|].
    destruct (existsb _ _); [discriminate|].
    inversion Hins; subst wg. clear Hins.
    unfold obj_tag in H. cbn [heap with_pending with_heap with_seq_tag with_txn] in H.
    rewrite (nth_error_list_set_same _ _ _ _ (nth_error_snoc _ _)) in H.
    inversion H; subst. cbn [txn tags with_pending with_heap with_seq_tag with_txn with_tags].
    rewrite (find_app_none _ _ _ F). simpl. now rewrite String.eqb_refl.
Qed.

Lemma get_or_create_tag_again n w g w1 :
  get_or_create_tag n w = (Ok g, w1) ->
  get_or_create_tag n w1 = (Ok g, w1).
Proof.
  intros H.
  pose proof (get_or_create_tag_found _ _ _ _ H) as F.
  destruct (get_or_create_tag_Ok _ _ _ _ H) as (Hp & _).
  unfold get_or_create_tag, Tag_query_filter_by_name_first, bind.
  rewrite (flush_clean _ Hp). unfold gets. cbn [txn with_pending].
  rewrite F. unfold ret. now rewrite (with_pending_clean _ Hp).
Qed.

(* ================================================================== *)
(** * [ArticleResource.delete] of a tagged article *)

Lemma queue_delete q k : preserves (fun w => queue w = q) (ArticleResource.delete k).
Proof. apply preserves_delete; first [apply queue_flush_op | untouched]. Qed.

(** X23.  Get-or-create, asked twice.  When the get-or-create of a tag name
    has returned a row, that row bears the name and is in the [tags]
    table of the transaction, and asking again for the same name returns
    the same row and changes nothing: no second row is made. *)
Theorem get_or_create_tag_is_idempotent :
  forall (n : string) (w w1 : World) (g : Tag.t),
    get_or_create_tag n w = (Ok g, w1) ->
    Tag.name g = Some n
    /\ In g (tags (txn w1))
    /\ get_or_create_tag n w1 = (Ok g, w1).
Proof.
  intros n w w1 g H.
  destruct (get_or_create_tag_Ok _ _ _ _ H) as (_ & _ & Hin & Hn).
  split; [exact Hn|]. split; [exact Hin|].
  eapply get_or_create_tag_again; eauto.
Qed.

Lemma get_or_create_tag_is_idempotent_witness :
  exists g w1,
    get_or_create_tag "new" world_sample = (Ok g, w1)
    /\ Tag.id g = Some 3
    /\ get_or_create_tag "new" w1 = (Ok g, w1)
    /\ List.length (tags (txn w1)) = 3%nat.
Proof.
  destruct (get_or_create_tag "new" world_sample) as [[g| |] w1] eqn:E;
    try (vm_compute in E; discriminate).
  destruct (get_or_create_tag_is_idempotent "new" world_sample w1 g E) as (_ & _ & H).
  exists g, w1. split; [reflexivity|].
  vm_compute in E. inversion E; subst. split; [reflexivity|]. split; [exact H | reflexivity].
Defined.

(** X24.  A tagged article is not deleted.  In a fresh session, [delete] of
    an article that has a tag association raises the integrity error of
    the foreign key; nothing is committed or queued, and the article and
    its associations are still stored afterwards. *)
Theorem delete_refuses_a_tagged_article :
  forall (k : Z) (w : World) (a : Article.t) (r0 : ArticleTag.t),
    session_clean w ->
    find_article (Some k) (committed w) = Some a ->
    In r0 (associations k (committed w)) ->
    exists msg w',
      ArticleResource.delete k w = (Raise (IntegrityError msg), w')
      /\ committed w' = committed w
      /\ queue w' = queue w
      /\ find_article (Some k) (committed (session_remove w')) = Some a
      /\ In r0 (associations k (committed (session_remove w'))).
Proof.
  intros k w a r0 [Hp Ht] Hf Hr. rewrite <- Ht in Hf, Hr.
  destruct (delete_refused_when_tagged k w a r0 Hp Hf Hr) as (msg & w' & E & HC).
  exists msg, w'. split; [exact E|]. split; [exact HC|].
  split; [exact (queue_delete (queue w) k _ _ _ eq_refl E)|].
  change (committed (session_remove w')) with (committed w').
  rewrite HC, <- Ht. auto.
Qed.

Lemma delete_refuses_a_tagged_article_witness :
  exists msg w',
    ArticleResource.delete 1 world_sample = (Raise (IntegrityError msg), w')
    /\ committed w' = committed world_sample.
Proof.
  destruct (delete_refuses_a_tagged_article 1 world_sample
              (Article.mk (Some 1) None "a" "A" "text" (Some 1) (Some 0) (Some 0) true None)
              (ArticleTag.mk (Some 1) (Some 1) (Some 1))
              (conj eq_refl eq_refl) eq_refl ltac:(left; reflexivity))
    as (msg & w' & E & HC & _).
  exists msg, w'. auto.
Defined.

(* ================================================================== *)
(** * [ArticleList.post]: the association is built before the article has a key *)

(** A flush whose first statement inserts an association without article
    key stops there. *)
Lemma flush_refuses_null_article_id w hx ps r :
  pending w = PInsert hx :: ps ->
  nth_error (heap w) hx = Some (OArticleTag r) ->
  ArticleTag.article_id r = None ->
  flush w = (Raise null_article_id, w).
Proof.
  intros Hp Hh Hr. unfold flush, bind, gets. rewrite Hp. cbn [for_each].
  unfold bind. cbn [flush_op]. rewrite Hh. unfold insert_article_tag. rewrite Hr.
  reflexivity.
Qed.

(** The get-or-create of a tag in a session with nothing pending: it
    returns with nothing pending and the objects of the session as they
    were, or it raises a database error; nothing is committed or queued. *)
Lemma get_or_create_tag_clean n w :
  pending w = [] ->
  match get_or_create_tag n w with
  | (Ok g, w1) =>
      pending w1 = [] /\ committed w1 = committed w /\ queue w1 = queue w
      /\ (forall h o, nth_error (heap w) h = Some o -> nth_error (heap w1) h = Some o)
  | (Raise e, w1) =>
      is_SQLAlchemyError e = true /\ committed w1 = committed w /\ queue w1 = queue w
  | (Diverge, _) => False
  end.
Proof.
  intros Hp. unfold get_or_create_tag, Tag_query_filter_by_name_first, bind at 1 2.
  rewrite (flush_clean _ Hp). unfold gets. cbn [txn with_pending].
  destruct (find _ (tags (txn w))) as [g|].
  - unfold ret. cbn. auto.
  - unfold new_obj, session_add, modify, flush, gets, bind.
    cbn [pending heap with_pending with_heap app for_each flush_op].
    unfold bind. cbn [heap with_pending with_heap]. rewrite nth_error_snoc.
    unfold insert_tag. cbn [Tag.name txn with_pending with_heap].
    destruct (too_long n); [cbn; auto|].
    destruct (existsb _ _); [cbn; auto|].
    unfold ret, obj_tag.
    cbn [heap with_pending with_heap with_seq_tag with_txn].
    unfold modify.
    cbn [heap seq_tag with_pending with_heap with_seq_tag with_txn].
    rewrite (nth_error_list_set_same _ _ _ (OTag (Tag.mk None (Some n))))
      by apply nth_error_snoc.
    cbn [pending committed queue with_pending with_heap with_seq_tag with_txn].
    repeat split; auto.
    intros h o Hh. cbn [heap with_pending with_heap with_seq_tag with_txn].
    assert (Hlt : (h < List.length (heap w))%nat).
    { apply nth_error_Some. rewrite Hh. discriminate. }
    rewrite nth_error_list_set_other by lia.
    rewrite nth_error_app1 by exact Hlt. exact Hh.
Qed.

(** One pass through the loop body of [post] for an article object that
    has no key: it leaves a new association without article key as the
    only pending work, or it raises a database error. *)
Lemma tag_loop_body_without_key h a n w :
  pending w = [] ->
  nth_error (heap w) h = Some (OArticle a) ->
  Article.id a = None ->
  match tag_loop_body h n w with
  | (Ok _, w1) =>
      (exists hx r, pending w1 = [PInsert hx]
                    /\ nth_error (heap w1) hx = Some (OArticleTag r)
                    /\ ArticleTag.article_id r = None)
      /\ committed w1 = committed w /\ queue w1 = queue w
  | (Raise e, w1) =>
      is_SQLAlchemyError e = true /\ committed w1 = committed w /\ queue w1 = queue w
  | (Diverge, _) => False
  end.
Proof.
  intros Hp Hh Hid. unfold tag_loop_body, bind at 1.
  pose proof (get_or_create_tag_clean n w Hp) as G.
  destruct (get_or_create_tag n w) as [[g| e |] w1]; [|exact G|exact G].
  destruct G as (Hp1 & HC & Hq & Hheap).
  unfold bind at 1, obj_article. rewrite (Hheap _ _ Hh).
  unfold bind, new_obj, session_add, modify. cbn [pending heap with_pending with_heap].
  rewrite Hp1. cbn [app committed queue with_pending with_heap].
  split; [|auto].
  exists (List.length (heap w1)), (ArticleTag.mk None (Article.id a) (Tag.id g)).
  split; [reflexivity|]. split; [apply nth_error_snoc | exact Hid].
Qed.

(** Whatever starts with a flush ends there when the flush raises. *)
Lemma get_or_create_tag_flush_raises n w e :
  flush w = (Raise e, w) -> get_or_create_tag n w = (Raise e, w).
Proof.
  intros H. unfold get_or_create_tag, Tag_query_filter_by_name_first, bind.
  rewrite H. reflexivity.
Qed.

Lemma commit_flush_raises w e : flush w = (Raise e, w) -> commit w = (Raise e, w).
Proof. intros H. unfold commit, bind. rewrite H. reflexivity. Qed.

Lemma post_tags_and_commit_outcome h a n names w :
  pending w = [] ->
  nth_error (heap w) h = Some (OArticle a) ->
  Article.id a = None ->
  exists e w',
    post_tags_and_commit h (n :: names) w = (Raise e, w')
    /\ is_SQLAlchemyError e = true
    /\ committed w' = committed w /\ queue w' = queue w.
Proof.
  intros Hp Hh Hid. unfold post_tags_and_commit. cbn [for_each].
  unfold bind at 1 2.
  pose proof (tag_loop_body_without_key h a n w Hp Hh Hid) as B.
  destruct (tag_loop_body h n w) as [[[]| e |] w1]; [|eauto|contradiction].
  destruct B as ((hx & r & Hp1 & Hh1 & Hr) & HC & Hq).
  destruct names as [|n2 names].
  - cbn [for_each]. unfold ret, bind, session_add, modify.
    set (w2 := with_pending (pending w1 ++ [PInsert h]) w1).
    assert (F : flush w2 = (Raise null_article_id, w2)).
    { apply (flush_refuses_null_article_id w2 hx [PInsert h] r);
        [subst w2; cbn [pending with_pending]; now rewrite Hp1 | exact Hh1 | exact Hr]. }
    rewrite (commit_flush_raises _ _ F).
    exists null_article_id, w2. auto.
  - cbn [for_each]. unfold bind at 1. unfold tag_loop_body at 1. unfold bind at 1.
    assert (F : flush w1 = (Raise null_article_id, w1)).
    { apply (flush_refuses_null_article_id w1 hx [] r); assumption. }
    rewrite (get_or_create_tag_flush_raises _ _ _ F).
    exists null_article_id, w1. auto.
Qed.

(* ================================================================== *)
(** * The task queue under any sequence of calls *)

Lemma queue_perform ext fuel c w :
  queue (snd (perform ext fuel c w)) = queue w.
Proof.
  destruct c as [j u|j k|topic author tgs]; cbn [perform].
  - rewrite post_refused. reflexivity.
  - rewrite put_refused. reflexivity.
  - destruct (write_blog ext fuel topic author tgs w) as [r w1] eqn:E.
    cbn [snd]. change (queue (session_remove w1)) with (queue w1).
    exact (queue_write_blog ext fuel (queue w) topic author tgs w r w1 eq_refl E).
Qed.

Lemma queue_run_calls ext fuel calls : forall w,
  queue (snd (run_calls ext fuel calls w)) = queue w.
Proof.
  induction calls as [|c calls IH]; intros w; cbn [run_calls]; [reflexivity|].
  pose proof (queue_perform ext fuel c w) as Hc.
  destruct (perform ext fuel c w) as [r w1].
  specialize (IH w1).
  destruct (run_calls ext fuel calls w1) as [rs w2].
  cbn [snd] in *. congruence.
Qed.

(** X27.  The association before the article.  In a session with nothing
    pending that holds a new article object without key, the lines of
    [post] from the tag loop to the commit, run for a non-empty list of
    tag names, always end in a database error: the first association is
    built from [article.id] while that is still [None], and the next
    flush refuses the row.  Nothing is committed and nothing is queued. *)
Theorem association_before_the_article_is_refused :
  forall (h : nat) (a : Article.t) (n : string) (names : list string) (w : World),
    pending w = [] ->
    nth_error (heap w) h = Some (OArticle a) ->
    Article.id a = None ->
    exists e w',
      post_tags_and_commit h (n :: names) w = (Raise e, w')
      /\ is_SQLAlchemyError e = true
      /\ committed w' = committed w /\ queue w' = queue w.
Proof. exact post_tags_and_commit_outcome. Qed.

Lemma association_before_the_article_is_refused_witness :
  exists e w',
    post_tags_and_commit 0 ["x"] world_new_article = (Raise e, w')
    /\ is_SQLAlchemyError e = true
    /\ committed w' = committed world_new_article
    /\ queue w' = queue world_new_article.
Proof.
  apply (association_before_the_article_is_refused 0
           (Article.mk None None "t" "T" "c" (Some 1) None None true None)
           "x" [] world_new_article); reflexivity.
Defined.

(** X28.  No call schedules an embedding.  Under any sequence of create,
    update and blog-writing calls the task queue stays as it was: [put]
    and [post] end in their schema constructor, before their
    [generate_article_embedding.delay], and [write_blog] does not call
    it. *)
Theorem no_call_schedules_an_embedding :
  forall (ext : External) (fuel : nat) (calls : list Call) (w : World),
    queue (snd (run_calls ext fuel calls w)) = queue w.
Proof. intros ext fuel calls w. apply queue_run_calls. Qed.
